(** * Milka inpainting gateway: rate limiter, content validator, request
      pipeline and upstream client, embedded from the Python sources.

    Layout: the definitions (one module per source file) come first, the
    theorems about them afterwards. *)

From Stdlib Require Import Strings.String Strings.Ascii Strings.Byte.
From Stdlib Require Import Numbers.DecimalString.
From Stdlib Require Import ZArith NArith QArith Lia Lqa Bool List.
Import ListNotations.

Set Warnings "-register-all".

(* ================================================================== *)
(** * backend/app/middleware.py : [TokenBucketRateLimit]              *)
(* ================================================================== *)

Module Middleware.

Local Open Scope Q_scope.

(** The attributes set by [__init__].  [tokens], [refill_rate] and the
    clock readings are Python floats; they are modelled as exact
    rationals, so rounding is not part of this model. *)
Record TokenBucketRateLimit : Type := mkTokenBucket {
  capacity    : Z;
  refill_rate : Q;
  tokens      : Q;
  last_refill : Q
}.

(** [__init__(capacity, refill_rate)], with [now] the reading of
    [time.time()] taken by the constructor. *)
Definition init (cap : Z) (rate : Q) (now : Q) : TokenBucketRateLimit :=
  mkTokenBucket cap rate (inject_Z cap) now.

Definition Qltb (a b : Q) : bool := negb (Qle_bool b a).

(** Python's two-argument [min(a, b)]: [b] when [b < a], else [a]. *)
Definition py_min (a b : Q) : Q := if Qltb b a then b else a.

(** Lines 109-113: the token count once the refill has been applied. *)
Definition refilled (now : Q) (st : TokenBucketRateLimit) : Q :=
  let time_passed := now - last_refill st in
  py_min (inject_Z (capacity st)) (tokens st + time_passed * refill_rate st).

(** [consume(tokens=n)], with [now] the reading of [time.time()] at the
    call; returns the boolean result and the mutated object. *)
Definition consume (now : Q) (n : Z) (st : TokenBucketRateLimit)
  : bool * TokenBucketRateLimit :=
  let st1 := mkTokenBucket (capacity st) (refill_rate st)
                           (refilled now st) now in
  if Qle_bool (inject_Z n) (tokens st1)
  then (true, mkTokenBucket (capacity st1) (refill_rate st1)
                            (tokens st1 - inject_Z n) (last_refill st1))
  else (false, st1).

(** [k] successive [consume()] calls (default argument, one token each)
    that all read the same clock value [now]; the results in call order
    and the final object. *)
Fixpoint burst (k : nat) (now : Q) (st : TokenBucketRateLimit)
  : list bool * TokenBucketRateLimit :=
  match k with
  | O => ([], st)
  | S k' =>
      let '(b, st1) := consume now 1 st in
      let '(bs, st2) := burst k' now st1 in
      (b :: bs, st2)
  end.

End Middleware.

(* ================================================================== *)
(** * Python values used by the validators                            *)
(* ================================================================== *)

Module Py.

(** A Python [str] is a sequence of Unicode code points, [bytes] a
    sequence of octets. *)
Definition codepoint := N.
Definition str := list codepoint.
Definition bytes := list byte.

(** A literal of the source, written as a Rocq string. *)
Definition lit (s : string) : str :=
  map N_of_ascii (list_ascii_of_string s).

Definition blit (s : string) : bytes := list_byte_of_string s.

Definition str_eqb (a b : str) : bool :=
  if list_eq_dec N.eq_dec a b then true else false.

Definition bytes_eqb (a b : bytes) : bool :=
  if list_eq_dec Byte.byte_eq_dec a b then true else false.

Definition len {A} (s : list A) : Z := Z.of_nat (List.length s).

(** Slice bounds as Python clamps them: a negative index counts from the
    end, and the result is clipped to [0, len]. *)
Definition clamp_index (n i : Z) : Z :=
  let i' := if (i <? 0)%Z then (i + n)%Z else i in
  if (i' <? 0)%Z then 0%Z else if (n <? i')%Z then n else i'.

(** [s[lo:hi]]; [None] is an omitted bound. *)
Definition slice {A} (s : list A) (lo hi : option Z) : list A :=
  let n := len s in
  let l := match lo with Some i => clamp_index n i | None => 0%Z end in
  let h := match hi with Some i => clamp_index n i | None => n end in
  firstn (Z.to_nat (h - l)) (skipn (Z.to_nat l) s).

Fixpoint starts_with {A} (eqb : A -> A -> bool) (s prefix : list A)
  {struct prefix} : bool :=
  match prefix, s with
  | [], _ => true
  | p :: prefix', c :: s' => eqb c p && starts_with eqb s' prefix'
  | _ :: _, [] => false
  end.

(** [s.startswith(prefix)] on [str] and on [bytes]. *)
Definition startswith (s prefix : str) : bool := starts_with N.eqb s prefix.
Definition bstartswith (s prefix : bytes) : bool :=
  starts_with Byte.eqb s prefix.

(** [s.endswith(suffix)]. *)
Definition endswith (s suffix : str) : bool :=
  starts_with N.eqb (rev s) (rev suffix).

(** [str.isspace] on one code point: the white-space table of CPython. *)
Definition isspace (c : codepoint) : bool :=
  ((9 <=? c) && (c <=? 13) || (28 <=? c) && (c <=? 32)
   || (c =? 133) || (c =? 160) || (c =? 5760)
   || (8192 <=? c) && (c <=? 8202)
   || (c =? 8232) || (c =? 8233) || (c =? 8239) || (c =? 8287)
   || (c =? 12288))%N.

Fixpoint dropwhile {A} (f : A -> bool) (s : list A) : list A :=
  match s with
  | [] => []
  | c :: s' => if f c then dropwhile f s' else s
  end.

Definition lstrip (s : str) : str := dropwhile isspace s.
Definition rstrip (s : str) : str := rev (dropwhile isspace (rev s)).

(** [s.strip()]: white space removed at both ends. *)
Definition strip (s : str) : str := rstrip (lstrip s).

(** [s.rfind(c)] for a one-character needle: the highest index holding
    [c], or [-1]. *)
Fixpoint rfind_from (c : codepoint) (s : str) (i : Z) (best : Z) : Z :=
  match s with
  | [] => best
  | x :: s' => rfind_from c s' (i + 1)%Z (if (x =? c)%N then i else best)
  end.

Definition rfind (c : codepoint) (s : str) : Z := rfind_from c s 0%Z (-1)%Z.

(** [str.lower] on the code points it maps to one ASCII letter: [A]-[Z]
    and U+212A (to [k]).  It maps U+0130 to [i] followed by U+0307 and
    every other cased code point to code points outside ASCII; neither
    can complete an ASCII literal, so the comparisons of lowered text
    with ASCII literals made in security.py come out as in Python. *)
Definition lower_cp (c : codepoint) : codepoint :=
  if ((65 <=? c) && (c <=? 90))%N then (c + 32)%N
  else if (c =? 8490)%N then 107%N
  else c.

Definition lower (s : str) : str := map lower_cp s.

(** [str(n)] for an integer. *)
Definition str_of_Z (z : Z) : str := lit (NilZero.string_of_int (Z.to_int z)).

(** The exceptions the application raises.  [InputValidationError] is a
    subclass of [HTTPException] with [status_code = 422] and a [field];
    [OtherError] stands for any exception that is not an
    [HTTPException]. *)
Inductive exn : Type :=
| InputValidationError (detail : str) (field : option str)
| HTTPException (status_code : Z) (detail : str)
| OtherError (message : str).

(** [isinstance(e, HTTPException)] and
    [isinstance(e, InputValidationError)], as the [except] clauses test
    them; every exception is an [Exception]. *)
Definition is_exception (e : exn) : bool := true.

Definition is_http_exception (e : exn) : bool :=
  match e with OtherError _ => false | _ => true end.

Definition is_input_validation_error (e : exn) : bool :=
  match e with InputValidationError _ _ => true | _ => false end.

(** [str(e)]; starlette prints an [HTTPException] as status, colon,
    detail. *)
Definition str_of_exn (e : exn) : str :=
  match e with
  | InputValidationError d _ => str_of_Z 422 ++ lit ": " ++ d
  | HTTPException c d => str_of_Z c ++ lit ": " ++ d
  | OtherError m => m
  end.

(** [e.detail] of an [HTTPException]. *)
Definition detail_of (e : exn) : str :=
  match e with
  | InputValidationError d _ => d
  | HTTPException _ d => d
  | OtherError m => m
  end.

Inductive level : Type := DEBUG | INFO | WARNING | ERROR.

(** What a run leaves behind besides its result: log records (level and
    event text, without the key/value fields), metric updates (without
    the durations), and the calls into the image normaliser and to the
    upstream API. *)
Inductive event : Type :=
| Log (lvl : level) (message : string)
| Metric (recorder : string) (label : string) (status : string)
| ProcessImage (data : bytes)
| ProcessMask (data : bytes)
| UpstreamPost (image mask prompt : str)
| MockResponse
| ProcessResponse (data : bytes).

Inductive outcome (A : Type) : Type :=
| Return (a : A)
| Raise (e : exn).
Arguments Return {A} a.
Arguments Raise {A} e.

(** Computations that append to the event trace and either return or
    raise. *)
Definition M (A : Type) : Type := list event * outcome A.

Definition ret {A} (a : A) : M A := ([], Return a).
Definition raise {A} (e : exn) : M A := ([], Raise e).
Definition emit (ev : event) : M unit := ([ev], Return tt).

Definition bind {A B} (m : M A) (k : A -> M B) : M B :=
  match m with
  | (t, Return a) => let '(t', r) := k a in (t ++ t', r)
  | (t, Raise e) => (t, Raise e)
  end.

(** [try: m  except <classes matched by sel> as e: h e]. *)
Definition try_except {A} (m : M A) (sel : exn -> bool) (h : exn -> M A)
  : M A :=
  match m with
  | (t, Raise e) =>
      if sel e then let '(t', r) := h e in (t ++ t', r) else (t, Raise e)
  | _ => m
  end.

Definition trace {A} (m : M A) : list event := fst m.
Definition result {A} (m : M A) : outcome A := snd m.

End Py.

Declare Scope py_scope.
Delimit Scope py_scope with py.
Notation "x <- m ;; k" := (Py.bind m (fun x => k))
  (at level 61, m at next level, right associativity) : py_scope.
Notation "m ;;; k" := (Py.bind m (fun _ => k))
  (at level 61, right associativity) : py_scope.

(* ================================================================== *)
(** * backend/app/security.py                                         *)
(* ================================================================== *)

Module Security.
Import Py.
Local Open Scope py_scope.
Local Open Scope Z_scope.

Definition mem_cp (c : codepoint) (l : list codepoint) : bool :=
  existsb (N.eqb c) l.

(** [os.path.basename] (POSIX): what follows the last [/]. *)
Definition basename (p : str) : str :=
  let i := rfind 47%N p + 1 in
  slice p (Some i) None.

(** The loop of [genericpath._splitext] that skips leading dots: is there
    a character other than [.] at an index in
    [filenameIndex, dotIndex)? *)
Fixpoint splitext_scan (p : str) (steps : nat) (filenameIndex : Z) : bool :=
  match steps with
  | O => false
  | S steps' =>
      if negb (str_eqb (slice p (Some filenameIndex) (Some (filenameIndex + 1)))
                       [46%N])
      then true
      else splitext_scan p steps' (filenameIndex + 1)
  end.

(** [os.path.splitext] (POSIX). *)
Definition splitext (p : str) : str * str :=
  let sepIndex := rfind 47%N p in
  let dotIndex := rfind 46%N p in
  if (sepIndex <? dotIndex)
     && splitext_scan p (Z.to_nat (dotIndex - (sepIndex + 1))) (sepIndex + 1)
  then (slice p None (Some dotIndex), slice p (Some dotIndex) None)
  else (p, []).

(** The first character class of [sanitize_filename]: less-than,
    greater-than, colon, double quote, slash, backslash, bar, question
    mark and star. *)
Definition dangerous_char (c : codepoint) : bool :=
  mem_cp c [60; 62; 58; 34; 47; 92; 124; 63; 42]%N.

(** The class [[\x00-\x1f\x7f-\x9f]]. *)
Definition control_char (c : codepoint) : bool :=
  ((c <=? 31) || (127 <=? c) && (c <=? 159))%N.

Definition unnamed_file : str := lit "unnamed_file".

(** Lines 92-98: the base name, then the two substitutions. *)
Definition cleaned (filename : str) : str :=
  let filename := basename filename in
  let filename :=
    map (fun c => if dangerous_char c then 95%N else c) filename in
  filter (fun c => negb (control_char c)) filename.

(** Lines 101-103: the length limit. *)
Definition truncated (filename : str) : str :=
  if 255 <? len filename
  then let '(name, ext) := splitext filename in
       slice name None (Some (255 - len ext)) ++ ext
  else filename.

(** Line 106: [not filename or filename in ['.', '..', '']]. *)
Definition reserved (filename : str) : bool :=
  match filename with [] => true | _ => false end
  || existsb (str_eqb filename) [lit "."; lit ".."; lit ""].

Definition sanitize_filename (filename : str) : str :=
  match filename with
  | [] => unnamed_file
  | _ =>
      let filename := truncated (cleaned filename) in
      if reserved filename then unnamed_file else filename
  end.

(** The components of a path, for either separator ([/] or backslash);
    used to state what [sanitize_filename] guarantees. *)
Fixpoint path_components (s : str) (current : str) : list str :=
  match s with
  | [] => [rev current]
  | c :: s' =>
      if ((c =? 47) || (c =? 92))%N
      then rev current :: path_components s' []
      else path_components s' (c :: current)
  end.

(** The printable ASCII characters, space to tilde. *)
Definition printable (c : codepoint) : bool :=
  ((32 <=? c) && (c <=? 126))%N.

(** [content_type.split(';')[0]]. *)
Fixpoint before_semicolon (s : str) : str :=
  match s with
  | [] => []
  | c :: s' => if (c =? 59)%N then [] else c :: before_semicolon s'
  end.

Definition validate_content_type (content_type : str)
                                 (allowed_types : list str) : bool :=
  match content_type with
  | [] => false
  | _ =>
      let base_type := lower (strip (before_semicolon content_type)) in
      existsb (str_eqb base_type) (map lower allowed_types)
  end.

(** The dictionary argument is walked in insertion order. *)
Fixpoint first_signature (file_data : bytes)
                         (expected_signatures : list (str * bytes))
  : option str :=
  match expected_signatures with
  | [] => None
  | (file_type, signature) :: rest =>
      if bstartswith file_data signature then Some file_type
      else first_signature file_data rest
  end.

Definition validate_file_signature (file_data : bytes)
                                   (expected_signatures : list (str * bytes))
  : option str :=
  if len file_data <? 16 then None
  else first_signature file_data expected_signatures.

(** [b'\x89PNG\r\n\x1a\n'] and [b'\xff\xd8\xff']. *)
Definition PNG_SIGNATURE : bytes :=
  [x89; x50; x4e; x47; x0d; x0a; x1a; x0a]%byte.
Definition JPEG_SIGNATURE : bytes := [xff; xd8; xff]%byte.

Definition IMAGE_SIGNATURES : list (str * bytes) :=
  [ (lit "png", PNG_SIGNATURE);
    (lit "jpeg", JPEG_SIGNATURE);
    (lit "jpg", JPEG_SIGNATURE) ].

Definition field (name : string) : option str := Some (lit name).

Definition any_suffix (s : str) (suffixes : list str) : bool :=
  existsb (endswith s) suffixes.

(** [', '.join(l)]. *)
Fixpoint join_comma (l : list str) : str :=
  match l with
  | [] => []
  | [x] => x
  | x :: rest => x ++ lit ", " ++ join_comma rest
  end.

Definition validate_image_file (file_data : bytes) (filename : str)
                               (content_type : str) : M unit :=
  let allowed_content_types :=
    [lit "image/png"; lit "image/jpeg"; lit "image/jpg"] in
  if negb (validate_content_type content_type allowed_content_types)
  then raise (InputValidationError
                (lit "Invalid content type '" ++ content_type
                 ++ lit "'. Allowed: " ++ join_comma allowed_content_types)
                (field "image"))
  else
  match validate_file_signature file_data IMAGE_SIGNATURES with
  | None =>
      raise (InputValidationError
               (lit "Invalid image file format. File signature doesn't match expected image types.")
               (field "image"))
  | Some detected_type =>
      let sanitized_filename := sanitize_filename filename in
      (if negb (any_suffix (lower sanitized_filename)
                           [lit ".png"; lit ".jpg"; lit ".jpeg"])
       then emit (Log WARNING "Suspicious filename")
       else ret tt) ;;;
      (if 5 * 1024 * 1024 <? len file_data
       then emit (Log WARNING "Large image file uploaded")
       else ret tt)
  end.

(** The body of the [try] block of [validate_mask_file]. *)
Definition mask_ihdr_block (file_data : bytes) : M unit :=
  (if negb (bytes_eqb (slice file_data (Some 12) (Some 16)) (blit "IHDR"))
   then raise (InputValidationError
                 (lit "Invalid PNG structure - IHDR chunk not found")
                 (field "mask"))
   else ret tt) ;;;
  (if 25 <? len file_data
   then match nth_error file_data 25 with
        | Some color_type =>
            if negb (existsb (N.eqb (Byte.to_N color_type)) [4; 6]%N)
            then emit (Log WARNING "PNG mask without alpha channel detected")
            else ret tt
        | None => raise (OtherError (lit "index out of range"))
        end
   else ret tt).

Definition validate_mask_file (file_data : bytes) (filename : str)
                              (content_type : str) : M unit :=
  if negb (str_eqb content_type (lit "image/png"))
  then raise (InputValidationError
                (lit "Mask file must be PNG format with alpha channel")
                (field "mask"))
  else if negb (bstartswith file_data PNG_SIGNATURE)
  then raise (InputValidationError (lit "Invalid PNG file signature")
                                   (field "mask"))
  else if len file_data <? 33
  then raise (InputValidationError (lit "PNG file too small to be valid")
                                   (field "mask"))
  else
    (* try: ... except Exception as e: logger.warning(...) *)
    try_except (mask_ihdr_block file_data) is_exception
               (fun e => emit (Log WARNING "PNG validation warning")) ;;;
    let sanitized_filename := sanitize_filename filename in
    if negb (endswith (lower sanitized_filename) (lit ".png"))
    then emit (Log WARNING "Mask file with non-PNG extension")
    else ret tt.

(** The class [[\x00-\x08\x0B\x0C\x0E-\x1F\x7F]]. *)
Definition prompt_control_char (c : codepoint) : bool :=
  ((c <=? 8) || (c =? 11) || (c =? 12) || (14 <=? c) && (c <=? 31)
   || (c =? 127))%N.

(** One pattern character against one text character under
    [re.IGNORECASE]: the text character is lower-cased (the code points
    whose simple lower case is an ASCII letter are [A]-[Z], U+0130 and
    U+212A) and compared with the pattern character and with its case
    equivalents (U+0131 for [i], U+017F for [s]).  The patterns of
    [validate_prompt] are lower-case letters and punctuation. *)
Definition ci_char (c p : codepoint) : bool :=
  let lc := if ((65 <=? c) && (c <=? 90))%N then (c + 32)%N
            else if (c =? 304)%N then 105%N
            else if (c =? 8490)%N then 107%N
            else c in
  ((lc =? p) || (p =? 105) && (lc =? 305) || (p =? 115) && (lc =? 383))%N.

(** [re.search(pattern, text, re.IGNORECASE)] for a literal pattern. *)
Fixpoint search_ci (pattern text : str) : bool :=
  starts_with ci_char text pattern
  || match text with
     | [] => false
     | _ :: text' => search_ci pattern text'
     end.

Definition suspicious_patterns : list str :=
  [ lit "<script"; lit "javascript:"; lit "data:text/html";
    lit "vbscript:"; lit "onload="; lit "onerror=" ].

Definition validate_prompt (prompt : str) : M str :=
  if match prompt with [] => true | _ => false end
     || match strip prompt with [] => true | _ => false end
  then raise (InputValidationError (lit "Prompt cannot be empty")
                                   (field "prompt"))
  else
    let prompt := strip prompt in
    if 500 <? len prompt
    then raise (InputValidationError
                  (lit "Prompt too long: " ++ str_of_Z (len prompt)
                   ++ lit " characters (max 500)")
                  (field "prompt"))
    else if existsb prompt_control_char prompt
    then raise (InputValidationError
                  (lit "Prompt contains invalid control characters")
                  (field "prompt"))
    else
      (* the loop logs the first matching pattern, then breaks *)
      (if existsb (fun pattern => search_ci pattern prompt)
                  suspicious_patterns
       then emit (Log WARNING "Suspicious pattern in prompt")
       else ret tt) ;;;
      ret prompt.

(** A Python [float] is an IEEE double: a finite number, carried here
    by its exact value, a NaN or an infinity. *)
Inductive pyfloat : Type :=
| Finite (q : Q)
| NaN
| PosInf
| NegInf.

(** [a < b] on floats: false as soon as one side is a NaN. *)
Definition float_lt (a b : pyfloat) : bool :=
  match a, b with
  | NaN, _ => false
  | _, NaN => false
  | Finite x, Finite y => Middleware.Qltb x y
  | Finite _, PosInf => true
  | Finite _, NegInf => false
  | PosInf, _ => false
  | NegInf, NegInf => false
  | NegInf, _ => true
  end.

(** The double nearest to the integer [n >= 0], ties to even, as
    [PyLong_AsDouble] computes it: an integer of at most 53 bits is
    exact; a longer one keeps its 53 leading bits, rounded; [None]
    when the rounded value reaches [2^1024] ([OverflowError]). *)
Definition nearest_double (n : Z) : option Z :=
  let bits := Z.log2 n + 1 in
  if bits <=? 53 then Some n
  else
    let shift := bits - 53 in
    let kept := Z.shiftr n shift in
    let rest := Z.land n (Z.ones shift) in
    let half := Z.shiftl 1 (shift - 1) in
    let rounded := if rest <? half then kept
                   else if half <? rest then kept + 1
                   else if Z.even kept then kept else kept + 1 in
    let d := Z.shiftl rounded shift in
    if Z.shiftl 1 1024 <=? d then None else Some d.

(** The argument of [validate_numeric_parameter] is typed [Any].  A
    value is a float, an [int], or something [float()] refuses with
    [ValueError] or [TypeError] (with its printed form); a string that
    [float()] parses counts as the float it parses to. *)
Inductive value : Type :=
| VFloat (f : pyfloat)
| VInt (z : Z)
| VOther (printed : str).

(** How [float(value)] ends. *)
Inductive conversion : Type :=
| Converted (f : pyfloat)
| NotANumber
| TooLarge.

(** [float(value)]: a float is itself, an [int] becomes the nearest
    double or raises [OverflowError], anything else raises [ValueError]
    or [TypeError]. *)
Definition float (v : value) : conversion :=
  match v with
  | VFloat f => Converted f
  | VInt z =>
      match nearest_double (Z.abs z) with
      | Some d => Converted (Finite (inject_Z (Z.sgn z * d)))
      | None => TooLarge
      end
  | VOther _ => NotANumber
  end.

Section Numeric.
(** How an f-string prints a float. *)
Variable format_float : pyfloat -> str.

(** How an f-string prints a value. *)
Definition format_value (v : value) : str :=
  match v with
  | VFloat f => format_float f
  | VInt z => str_of_Z z
  | VOther printed => printed
  end.

(** The [except] clause names [ValueError] and [TypeError] only: an
    [OverflowError] of [float()] leaves the function as it is. *)
Definition validate_numeric_parameter (v : value) (param_name : str)
                                      (min_val max_val : pyfloat)
  : M pyfloat :=
  match float v with
  | NotANumber =>
      raise (InputValidationError
               (lit "Invalid numeric value for " ++ param_name ++ lit ": "
                ++ format_value v)
               (Some param_name))
  | TooLarge => raise (OtherError (lit "int too large to convert to float"))
  | Converted num_value =>
      if float_lt num_value min_val || float_lt max_val num_value
      then raise (InputValidationError
                    (param_name ++ lit " must be between "
                     ++ format_float min_val ++ lit " and "
                     ++ format_float max_val ++ lit ", got "
                     ++ format_float num_value)
                    (Some param_name))
      else ret num_value
  end.
End Numeric.

End Security.

(* ================================================================== *)
(** * The collaborators outside the repository                        *)
(* ================================================================== *)

Module World.
Import Py.

(** What [PIL.Image.open] exposes of a decoded file. *)
Record Image : Type := mkImage {
  format : option str;
  mode   : str;
  width  : Z;
  height : Z
}.

(** A decoded JSON document; an object is the key/value list of the
    [dict] that [response.json()] builds. *)
Inductive json : Type :=
| JNull
| JBool (b : bool)
| JNumber (q : Q)
| JString (s : str)
| JArray (items : list json)
| JObject (members : list (str * json)).

(** The parts of an [httpx.Response] the client reads; [body_json] is
    [None] when [response.json()] raises. *)
Record Response : Type := mkResponse {
  status_code  : Z;
  content_type : option str;
  retry_after  : option str;
  content      : bytes;
  body_json    : option json
}.

(** How [client.post] ends. *)
Inductive post_result : Type :=
| Responded (r : Response)
| TimeoutException
| RequestError (message : str)
| PostCrashed (message : str).

Record Payload : Type := mkPayload {
  p_image : str;
  p_mask : str;
  p_prompt : str;
  p_strength : Security.pyfloat;
  p_guidance_scale : Security.pyfloat;
  p_seed : option Z
}.

(** The libraries and services the code calls: the image codec, base64,
    the HTTP client, Python's printing of floats and of decoded JSON
    values, and the settings read at start-up.  The codec functions
    return [inl message] when they raise. *)
Record Env : Type := mkEnv {
  Image_open          : bytes -> str + Image;
  encode_image        : bytes -> str + str;
  encode_mask         : bytes -> str + str;
  encode_response     : bytes -> str + bytes;
  b64decode           : json -> str + bytes;
  post                : Payload -> post_result;
  mock_png            : bytes;
  format_float        : Security.pyfloat -> str;
  format_json         : json -> str;
  str_lower           : str -> str;
  nanobanana_key      : str;
  request_timeout     : Z
}.

End World.

(* ================================================================== *)
(** * backend/app/inbound_validation.py                               *)
(* ================================================================== *)

Module InboundValidation.
Import Py World Security.
Local Open Scope py_scope.
Local Open Scope Z_scope.

(** The attributes [__init__] reads from the process environment. *)
Record InboundValidator : Type := mkValidator {
  max_image_size      : Z;
  max_image_dimension : Z;
  min_image_dimension : Z;
  strict_validation   : bool
}.

(** [MAX_IMAGE_SIZE_MB=10], [MAX_IMAGE_DIMENSION=2048],
    [MIN_IMAGE_DIMENSION=256], [STRICT_VALIDATION=true]. *)
Definition default_validator : InboundValidator :=
  mkValidator (10 * 1024 * 1024) 2048 256 true.

(** A multipart upload as FastAPI hands it over. *)
Record UploadFile : Type := mkUpload {
  filename     : option str;
  size         : option Z;
  content_type : option str;
  content      : bytes
}.

Definition or_empty (s : option str) : str :=
  match s with Some x => x | None => [] end.

Definition dims (w h : Z) : str := str_of_Z w ++ lit "x" ++ str_of_Z h.

Section WithEnv.
Variable env : Env.
Variable self : InboundValidator.

Definition _validate_image_dimensions (image_data : bytes) : M unit :=
  try_except
    (match Image_open env image_data with
     | inl message => raise (OtherError message)
     | inr image =>
         let width := width image in
         let height := height image in
         if (width <? min_image_dimension self)
            || (height <? min_image_dimension self)
         then raise (InputValidationError
                       (lit "Image too small: " ++ dims width height
                        ++ lit " (minimum "
                        ++ dims (min_image_dimension self)
                                (min_image_dimension self) ++ lit ")")
                       (field "image"))
         else if (max_image_dimension self <? width)
                 || (max_image_dimension self <? height)
         then raise (InputValidationError
                       (lit "Image too large: " ++ dims width height
                        ++ lit " (maximum "
                        ++ dims (max_image_dimension self)
                                (max_image_dimension self) ++ lit ")")
                       (field "image"))
         else if height =? 0
         then raise (OtherError (lit "division by zero"))
         else
           let aspect_ratio := (inject_Z width / inject_Z height)%Q in
           if Middleware.Qltb 4 aspect_ratio
              || Middleware.Qltb aspect_ratio (25 # 100)
           then emit (Log WARNING "Unusual image aspect ratio")
           else ret tt
     end)
    (fun e => negb (is_input_validation_error e))
    (fun e => raise (InputValidationError
                       (lit "Failed to validate image dimensions: "
                        ++ str_of_exn e)
                       (field "image"))).

Definition _validate_mask_content (mask_data : bytes) : M unit :=
  try_except
    (match Image_open env mask_data with
     | inl message => raise (OtherError message)
     | inr mask =>
         (if negb (existsb (str_eqb (mode mask))
                     [lit "RGBA"; lit "LA"; lit "L"; lit "P"])
          then if strict_validation self
               then raise (InputValidationError
                             (lit "Mask has invalid color mode: "
                              ++ mode mask
                              ++ lit ". Expected RGBA, LA, L, or P")
                             (field "mask"))
               else emit (Log WARNING "Mask without proper alpha channel")
          else ret tt) ;;;
         let width := width mask in
         let height := height mask in
         if (width <? min_image_dimension self)
            || (height <? min_image_dimension self)
         then raise (InputValidationError
                       (lit "Mask too small: " ++ dims width height
                        ++ lit " (minimum "
                        ++ dims (min_image_dimension self)
                                (min_image_dimension self) ++ lit ")")
                       (field "mask"))
         else if (max_image_dimension self <? width)
                 || (max_image_dimension self <? height)
         then raise (InputValidationError
                       (lit "Mask too large: " ++ dims width height
                        ++ lit " (maximum "
                        ++ dims (max_image_dimension self)
                                (max_image_dimension self) ++ lit ")")
                       (field "mask"))
         else ret tt
     end)
    (fun e => negb (is_input_validation_error e))
    (fun e => raise (InputValidationError
                       (lit "Failed to validate mask content: "
                        ++ str_of_exn e)
                       (field "mask"))).

(** [not f or not f.filename]: an [UploadFile] object is truthy. *)
Definition missing (f : UploadFile) : bool :=
  match filename f with None | Some [] => true | _ => false end.

(** [f.size and f.size > self.max_image_size]. *)
Definition oversized (f : UploadFile) : bool :=
  match size f with
  | Some n => negb (n =? 0) && (max_image_size self <? n)
  | None => false
  end.

Definition size_text (f : UploadFile) : str :=
  match size f with Some n => str_of_Z n | None => lit "None" end.

Definition _validate_uploaded_image (image : UploadFile) : M unit :=
  if missing image
  then raise (InputValidationError (lit "Image file is required")
                                   (field "image"))
  else if oversized image
  then raise (InputValidationError
                (lit "Image file too large: " ++ size_text image
                 ++ lit " bytes (max " ++ str_of_Z (max_image_size self)
                 ++ lit ")")
                (field "image"))
  else
    try_except
      ((if len (content image) =? 0
        then raise (InputValidationError (lit "Image file is empty")
                                         (field "image"))
        else ret tt) ;;;
       validate_image_file (content image) (or_empty (filename image))
                           (or_empty (content_type image)) ;;;
       _validate_image_dimensions (content image))
      (fun e => negb (is_input_validation_error e))
      (fun e =>
         emit (Log ERROR "Error reading image file") ;;;
         raise (InputValidationError
                  (lit "Failed to process image file: " ++ str_of_exn e)
                  (field "image"))).

Definition _validate_uploaded_mask (mask : UploadFile) : M unit :=
  if missing mask
  then raise (InputValidationError (lit "Mask file is required")
                                   (field "mask"))
  else if oversized mask
  then raise (InputValidationError
                (lit "Mask file too large: " ++ size_text mask
                 ++ lit " bytes (max " ++ str_of_Z (max_image_size self)
                 ++ lit ")")
                (field "mask"))
  else
    try_except
      ((if len (content mask) =? 0
        then raise (InputValidationError (lit "Mask file is empty")
                                         (field "mask"))
        else ret tt) ;;;
       validate_mask_file (content mask) (or_empty (filename mask))
                          (or_empty (content_type mask)) ;;;
       _validate_mask_content (content mask))
      (fun e => negb (is_input_validation_error e))
      (fun e =>
         emit (Log ERROR "Error reading mask file") ;;;
         raise (InputValidationError
                  (lit "Failed to process mask file: " ++ str_of_exn e)
                  (field "mask"))).

(** [len(s.split())]: the number of maximal runs of non-space
    characters. *)
Fixpoint word_count (in_word : bool) (s : str) : Z :=
  match s with
  | [] => 0
  | c :: s' =>
      if isspace c then word_count false s'
      else (if in_word then 0 else 1) + word_count true s'
  end.

(** [len(set(s))]. *)
Definition distinct_count (s : str) : Z := len (nodup N.eq_dec s).

Definition _validate_prompt_text (prompt : str) : M str :=
  validated_prompt <- validate_prompt prompt ;;
  (if word_count false validated_prompt <? 2
   then emit (Log WARNING "Very short prompt detected")
   else ret tt) ;;;
  (if Middleware.Qltb
        (inject_Z (distinct_count (str_lower env validated_prompt)))
        (inject_Z (len validated_prompt) * (3 # 10))%Q
   then emit (Log WARNING "Low character diversity in prompt")
   else ret tt) ;;;
  ret validated_prompt.

(** The [params] dictionary. *)
Record Params : Type := mkParams {
  seed : option Z;
  strength : pyfloat;
  guidance_scale : pyfloat
}.

Definition _validate_parameters (seed0 : option Z)
                                (strength0 guidance_scale0 : option value)
  : M Params :=
  seed1 <- match seed0 with
           | Some n =>
               if (n <? 0) || (2147483647 <? n)
               then raise (InputValidationError
                             (lit "Seed must be integer between 0 and 2147483647, got "
                              ++ str_of_Z n)
                             (field "seed"))
               else ret (Some n)
           | None => ret None
           end ;;
  strength1 <- match strength0 with
               | Some v =>
                   validate_numeric_parameter (format_float env)
                     v (lit "strength") (Finite 0) (Finite 1)
               | None => ret (Finite (8 # 10))
               end ;;
  guidance1 <- match guidance_scale0 with
               | Some v =>
                   validate_numeric_parameter (format_float env)
                     v (lit "guidance_scale") (Finite 1) (Finite 20)
               | None => ret (Finite (75 # 10))
               end ;;
  ret (mkParams seed1 strength1 guidance1).

(** The dictionary returned on success. *)
Record Validated : Type := mkValidated {
  v_prompt : str;
  v_params : Params
}.

(** The two [except] clauses belong to one [try]: the first re-raises
    the [InputValidationError] it caught, the second sees only the
    other exceptions of the body. *)
Definition validate_inpaint_request
    (image mask : UploadFile) (prompt : str) (seed0 : option Z)
    (strength0 guidance_scale0 : option value) : M Validated :=
  try_except
    (try_except
       (_validate_uploaded_image image ;;;
        _validate_uploaded_mask mask ;;;
        validated_prompt <- _validate_prompt_text prompt ;;
        validated_params <-
          _validate_parameters seed0 strength0 guidance_scale0 ;;
        emit (Log INFO "Inpaint request validation successful") ;;;
        emit (Metric "mask_operation" "validation" "success") ;;;
        ret (mkValidated validated_prompt validated_params))
       is_input_validation_error
       (fun e =>
          emit (Log WARNING "Input validation failed") ;;;
          emit (Metric "mask_operation" "validation" "error") ;;;
          raise e))
    (fun e => negb (is_input_validation_error e))
    (fun e =>
       emit (Log ERROR "Unexpected validation error") ;;;
       emit (Metric "mask_operation" "validation" "error") ;;;
       raise (HTTPException 500 (lit "Internal validation error"))).

End WithEnv.

End InboundValidation.

(* ================================================================== *)
(** * backend/app/services/image_processor.py                         *)
(* ================================================================== *)

Module ImageProcessor.
Import Py World InboundValidation.
Local Open Scope py_scope.
Local Open Scope Z_scope.

Section WithEnv.
Variable env : Env.

(** [try: body  except HTTPException: raise
     except Exception as e: raise HTTPException(code, prefix + str(e))]. *)
Definition wrap_errors {A} (code : Z) (prefix : string) (body : M A) : M A :=
  try_except body (fun e => negb (is_http_exception e))
    (fun e => raise (HTTPException code (lit prefix ++ str_of_exn e))).

Definition validate_and_process_image (file : UploadFile)
  : M (str * (Z * Z)) :=
  emit (ProcessImage (content file)) ;;;
  wrap_errors 422 "Error processing image: "
    (match Image_open env (content file) with
     | inl message => raise (OtherError message)
     | inr image =>
         if negb (match format image with
                  | Some f => existsb (str_eqb f) [lit "PNG"; lit "JPEG"]
                  | None => false
                  end)
         then raise (HTTPException 422
                       (lit "Image must be PNG or JPEG format"))
         else if (2048 <? width image) || (2048 <? height image)
         then raise (HTTPException 422
                       (lit "Image dimensions must not exceed 2048x2048"))
         else if (width image <? 256) || (height image <? 256)
         then raise (HTTPException 422
                       (lit "Image dimensions must be at least 256x256"))
         else
           (* convert to RGB, save as PNG, base64 *)
           match encode_image env (content file) with
           | inl message => raise (OtherError message)
           | inr base64_image =>
               ret (base64_image, (width image, height image))
           end
     end).

Definition validate_and_process_mask (file : UploadFile)
                                     (image_size : Z * Z) : M str :=
  emit (ProcessMask (content file)) ;;;
  wrap_errors 422 "Error processing mask: "
    (match Image_open env (content file) with
     | inl message => raise (OtherError message)
     | inr mask =>
         if negb (match format mask with
                  | Some f => str_eqb f (lit "PNG")
                  | None => false
                  end)
         then raise (HTTPException 422 (lit "Mask must be PNG format"))
         else if negb (existsb (str_eqb (mode mask))
                         [lit "RGBA"; lit "LA"; lit "L"])
         then raise (HTTPException 422
                       (lit "Mask must have transparency (alpha channel) or be grayscale"))
         else if negb ((width mask =? fst image_size)
                       && (height mask =? snd image_size))
         then raise (HTTPException 422
                       (lit "Mask dimensions "
                        ++ dims (width mask) (height mask)
                        ++ lit " must match image dimensions "
                        ++ dims (fst image_size) (snd image_size)))
         else
           (* alpha extraction, RGBA re-expansion, PNG, base64 *)
           match encode_mask env (content file) with
           | inl message => raise (OtherError message)
           | inr base64_mask => ret base64_mask
           end
     end).

Definition create_response_image (image_data : bytes) : M bytes :=
  emit (ProcessResponse image_data) ;;;
  try_except
    (match encode_response env image_data with
     | inl message => raise (OtherError message)
     | inr png => ret png
     end)
    is_exception
    (fun e => raise (HTTPException 500
                       (lit "Error processing response image: "
                        ++ str_of_exn e))).

End WithEnv.

End ImageProcessor.

(* ================================================================== *)
(** * backend/app/services/nanobobana_client.py                       *)
(* ================================================================== *)

Module NanoBananaClient.
Import Py World.
Local Open Scope py_scope.
Local Open Scope Z_scope.

Fixpoint lookup (key : str) (members : list (str * json)) : option json :=
  match members with
  | [] => None
  | (k, v) :: rest => if str_eqb k key then Some v else lookup key rest
  end.

Section WithEnv.
Variable env : Env.

(** [not self.api_key or self.api_key == "demo_key_placeholder"]. *)
Definition mock_mode : bool :=
  match nanobanana_key env with
  | [] => true
  | k => str_eqb k (lit "demo_key_placeholder")
  end.

(** [__init__]. *)
Definition new_client : M unit :=
  if mock_mode
  then emit (Log WARNING "NanoBanana API key not properly configured")
  else ret tt.

(** A decoded value inside an f-string: a string prints as itself. *)
Definition printed (j : json) : str :=
  match j with JString s => s | _ => format_json env j end.

(** [_extract_error_message]: the bare [except] covers a body that is
    not JSON and a document without a [get] method. *)
Definition _extract_error_message (response : Response) : str :=
  let fallback := lit "HTTP " ++ str_of_Z (status_code response) in
  match body_json response with
  | Some (JObject members) =>
      match lookup (lit "error") members with
      | Some v => printed v
      | None =>
          match lookup (lit "message") members with
          | Some v => printed v
          | None => str_of_Z (status_code response)
          end
      end
  | _ => fallback
  end.

Definition _create_mock_response : M bytes :=
  emit (Log INFO "Using mock NanoBanana response (API key not configured)") ;;;
  emit MockResponse ;;;
  ret (mock_png env).

(** A JSON value equal to the string ["image"], for [in] on a list. *)
Definition is_image_string (j : json) : bool :=
  match j with JString s => str_eqb s (lit "image") | _ => false end.

(** Is ["image"] a substring of [s]?  ([in] on a [str].) *)
Fixpoint contains_image (s : str) : bool :=
  startswith s (lit "image")
  || match s with [] => false | _ :: s' => contains_image s' end.

(** The branch for status 200 whose content type is not an image. *)
Definition decode_json_body (response : Response) : M bytes :=
  match body_json response with
  | None => raise (OtherError (lit "Expecting value"))
  | Some (JObject members) =>
      match lookup (lit "image") members with
      | Some v =>
          match b64decode env v with
          | inl message => raise (OtherError message)
          | inr data => ret data
          end
      | None =>
          raise (HTTPException 502
                   (lit "Invalid response format from NanoBanana API"))
      end
  | Some (JArray items) =>
      if existsb is_image_string items
      then raise (OtherError (lit "list indices must be integers or slices, not str"))
      else raise (HTTPException 502
                    (lit "Invalid response format from NanoBanana API"))
  | Some (JString s) =>
      if contains_image s
      then raise (OtherError (lit "string indices must be integers"))
      else raise (HTTPException 502
                    (lit "Invalid response format from NanoBanana API"))
  | Some _ => raise (OtherError (lit "argument is not iterable"))
  end.

(** Lines 84-133: the dispatch on the status code. *)
Definition handle_response (response : Response) : M bytes :=
  if status_code response =? 200
  then if startswith (match content_type response with
                      | Some c => c
                      | None => []
                      end) (lit "image/")
       then ret (content response)
       else decode_json_body response
  else if status_code response =? 400
  then raise (HTTPException 422
                (lit "Invalid request parameters: "
                 ++ _extract_error_message response))
  else if status_code response =? 401
  then raise (HTTPException 502 (lit "Invalid NanoBanana API key"))
  else if status_code response =? 429
  then let retry := match retry_after response with
                    | Some v => v
                    | None => lit "60"
                    end in
       raise (HTTPException 502
                (lit "NanoBanana API rate limit exceeded. Retry after "
                 ++ retry ++ lit " seconds"))
  else if 500 <=? status_code response
  then raise (HTTPException 502 (lit "NanoBanana API server error"))
  else raise (HTTPException 502
                (lit "Unexpected response from NanoBanana API: "
                 ++ _extract_error_message response)).

Definition inpaint_image (image_base64 mask_base64 prompt : str)
                         (seed : option Z)
                         (strength guidance_scale : Security.pyfloat)
  : M bytes :=
  if mock_mode then _create_mock_response
  else
    let payload := mkPayload image_base64 mask_base64 prompt
                             strength guidance_scale seed in
    emit (Log INFO "Sending inpaint request") ;;;
    emit (UpstreamPost image_base64 mask_base64 prompt) ;;;
    match post env payload with
    | TimeoutException =>
        raise (HTTPException 502
                 (lit "Request to NanoBanana API timed out after "
                  ++ str_of_Z (request_timeout env) ++ lit " seconds"))
    | RequestError message =>
        emit (Log ERROR "Network error calling NanoBanana API") ;;;
        raise (HTTPException 502
                 (lit "Failed to connect to NanoBanana API"))
    | PostCrashed message =>
        emit (Log ERROR "Unexpected error calling NanoBanana API") ;;;
        raise (HTTPException 500
                 (lit "Internal server error during image processing"))
    | Responded response =>
        (* except HTTPException: raise / except Exception: 500 *)
        try_except (handle_response response)
          (fun e => negb (is_http_exception e))
          (fun e =>
             emit (Log ERROR "Unexpected error calling NanoBanana API") ;;;
             raise (HTTPException 500
                      (lit "Internal server error during image processing")))
    end.

End WithEnv.

End NanoBananaClient.

(* ================================================================== *)
(** * backend/app/api/inpaint.py                                      *)
(* ================================================================== *)

Module Api.
Import Py World InboundValidation.
Local Open Scope py_scope.
Local Open Scope Z_scope.

(** The [Response] the handler returns: the PNG body (the headers carry
    timings only). *)
Record PngResponse : Type := mkPng { body : bytes; media_type : str }.

Section WithEnv.
Variable env : Env.
Variable validator : InboundValidator.

(** The body of the handler's [try].  The route declares the strength
    and the guidance scale as [Optional[float]]: the handler is run
    with floats, or [None]. *)
Definition inpaint_steps (image mask : UploadFile) (prompt : str)
                         (seed0 : option Z)
                         (strength0 guidance_scale0 : option Security.pyfloat)
  : M PngResponse :=
  emit (Log INFO "Starting inpaint request") ;;;
  validation_result <-
    validate_inpaint_request env validator image mask prompt seed0
                             (option_map Security.VFloat strength0)
                             (option_map Security.VFloat guidance_scale0) ;;
  emit (Metric "image_processing" "validation" "") ;;;
  let validated_prompt := v_prompt validation_result in
  let validated_strength := strength (v_params validation_result) in
  let validated_guidance_scale :=
    guidance_scale (v_params validation_result) in
  let validated_seed := seed (v_params validation_result) in
  emit (Log INFO "Processing uploaded files") ;;;
  r <- ImageProcessor.validate_and_process_image env image ;;
  let '(image_base64, image_size) := r in
  emit (Metric "image_processing" "image_processing" "") ;;;
  mask_base64 <-
    ImageProcessor.validate_and_process_mask env mask image_size ;;
  emit (Metric "image_processing" "mask_processing" "") ;;;
  emit (Log INFO "Calling NanoBanana API") ;;;
  NanoBananaClient.new_client env ;;;
  result_image_data <-
    NanoBananaClient.inpaint_image env image_base64 mask_base64
      validated_prompt validated_seed validated_strength
      validated_guidance_scale ;;
  emit (Metric "nanobanana" "inpaint" "200") ;;;
  processed_image <-
    ImageProcessor.create_response_image env result_image_data ;;
  emit (Metric "image_processing" "result_processing" "") ;;;
  emit (Log INFO "Inpainting completed successfully") ;;;
  ret (mkPng processed_image (lit "image/png")).

(** The clauses are tried in order: [InputValidationError], then
    [HTTPException] (re-raised as it is), then [Exception]. *)
Definition inpaint_image (image mask : UploadFile) (prompt : str)
                         (seed0 : option Z)
                         (strength0 guidance_scale0 : option Security.pyfloat)
  : M PngResponse :=
  let '(t, r) := inpaint_steps image mask prompt seed0 strength0
                               guidance_scale0 in
  match r with
  | Return a => (t, Return a)
  | Raise (InputValidationError detail fld) =>
      (t ++ [Log WARNING "Input validation failed"],
       Raise (HTTPException 422 detail))
  | Raise (HTTPException c d) => (t, Raise (HTTPException c d))
  | Raise (OtherError m) =>
      (t ++ [Log ERROR "Unexpected error during inpainting";
             Metric "nanobanana" "inpaint" "500"],
       Raise (HTTPException 500
                (lit "Internal server error during image processing")))
  end.

End WithEnv.

End Api.

(* ================================================================== *)
(** * Vocabulary of the statements, and a sample environment          *)
(* ================================================================== *)

Module Observations.
Import Py World Security InboundValidation.
Local Open Scope Z_scope.

(** The three errors of [validate_prompt]. *)
Definition empty_prompt_error : exn :=
  InputValidationError (lit "Prompt cannot be empty") (field "prompt").

Definition long_prompt_error (p : str) : exn :=
  InputValidationError
    (lit "Prompt too long: " ++ str_of_Z (len p)
     ++ lit " characters (max 500)") (field "prompt").

Definition control_prompt_error : exn :=
  InputValidationError (lit "Prompt contains invalid control characters")
                       (field "prompt").

(** Events that are work done for the request beyond validation: the
    image normaliser and the upstream call (or its mock). *)
Definition is_work (ev : event) : bool :=
  match ev with
  | Log _ _ | Metric _ _ _ => false
  | _ => true
  end.

(** The upstream call, live or mocked. *)
Definition is_upstream (ev : event) : bool :=
  match ev with
  | UpstreamPost _ _ _ | MockResponse => true
  | _ => false
  end.

(** A computation that only logs and counts. *)
Definition quiet {A} (m : M A) : Prop :=
  Forall (fun ev => is_work ev = false) (trace m).

(** A computation that raises nothing but [InputValidationError]. *)
Definition only_validation_errors {A} (m : M A) : Prop :=
  forall e, result m = Raise e -> is_input_validation_error e = true.

(** The detail of the error [validate_and_process_mask] raises for a
    mask whose size is not the expected one. *)
Definition mismatch_detail (m : Image) (size : Z * Z) : str :=
  lit "Mask dimensions " ++ dims (width m) (height m)
  ++ lit " must match image dimensions " ++ dims (fst size) (snd size).

(** A stand-in for the image codec that reads the IHDR chunk of a PNG
    file: width and height at offsets 16 and 20, colour type at 25. *)
Definition be32 (b : bytes) : Z :=
  fold_left (fun acc x => acc * 256 + Z.of_N (Byte.to_N x)) b 0.

Definition mode_of_color_type (c : option byte) : str :=
  match option_map Byte.to_N c with
  | Some 0%N => lit "L"
  | Some 3%N => lit "P"
  | Some 4%N => lit "LA"
  | Some 6%N => lit "RGBA"
  | _ => lit "RGB"
  end.

Definition header_decode (data : bytes) : str + Image :=
  if bstartswith data PNG_SIGNATURE && (33 <=? len data)
  then inr (mkImage (Some (lit "PNG"))
                    (mode_of_color_type (nth_error data 25))
                    (be32 (slice data (Some 16) (Some 20)))
                    (be32 (slice data (Some 20) (Some 24))))
  else inl (lit "cannot identify image file").

(** Signature, IHDR chunk (length, tag, width, height, depth 8, colour
    type, three zero fields) and four bytes standing for the CRC. *)
Definition png_header (width height : list byte) (color_type : byte)
  : bytes :=
  PNG_SIGNATURE ++ [x00; x00; x00; x0d]%byte ++ blit "IHDR"
  ++ width ++ height ++ [x08; color_type; x00; x00; x00]%byte
  ++ [x00; x00; x00; x00]%byte.

Definition image_512 : bytes :=
  png_header [x00; x00; x02; x00]%byte [x00; x00; x02; x00]%byte x02.
Definition mask_256 : bytes :=
  png_header [x00; x00; x01; x00]%byte [x00; x00; x01; x00]%byte x06.
Definition mask_100 : bytes :=
  png_header [x00; x00; x00; x64]%byte [x00; x00; x00; x64]%byte x06.

Definition upload (name : string) (data : bytes) : UploadFile :=
  mkUpload (Some (lit name)) (Some (len data)) (Some (lit "image/png")) data.

(** An environment with a configured key whose upstream answers every
    call with [reply]. *)
Definition reply_env (reply : post_result) : Env :=
  mkEnv header_decode
        (fun _ => inr (lit "aW1hZ2U="))
        (fun _ => inr (lit "bWFzaw=="))
        (fun d => inr d)
        (fun _ => inl (lit "Incorrect padding"))
        (fun _ => reply)
        PNG_SIGNATURE
        (fun _ => lit "0.0")
        (fun _ => lit "None")
        lower
        (lit "sk-live")
        120.

Definition demo_env : Env := reply_env TimeoutException.

Definition throttled : Response :=
  mkResponse 429 (Some (lit "application/json")) (Some (lit "30")) [] None.

Definition bad_request : Response :=
  mkResponse 400 (Some (lit "application/json")) None []
             (Some (JObject [(lit "error", JString (lit "mask too dark"))])).

End Observations.

(* ================================================================== *)
(** * backend/app/middleware.py : [RateLimitMiddleware]               *)
(* ================================================================== *)

Module RateLimit.
Import Py Middleware.
Local Open Scope py_scope.

(** A Python [dict] with [str] keys, in insertion order. *)
Definition dict (V : Type) : Type := list (str * V).

Fixpoint dict_get {V} (k : str) (d : dict V) : option V :=
  match d with
  | [] => None
  | (k', v) :: rest => if str_eqb k' k then Some v else dict_get k rest
  end.

(** [d[k] = v]: the value is replaced in place, a new key goes last. *)
Fixpoint dict_set {V} (k : str) (v : V) (d : dict V) : dict V :=
  match d with
  | [] => [(k, v)]
  | (k', v') :: rest =>
      if str_eqb k' k then (k', v) :: rest else (k', v') :: dict_set k v rest
  end.

(** [del d[k]] for a key that is present. *)
Fixpoint dict_del {V} (k : str) (d : dict V) : dict V :=
  match d with
  | [] => []
  | (k', v') :: rest =>
      if str_eqb k' k then rest else (k', v') :: dict_del k rest
  end.

Definition keys {V} (d : dict V) : list str := map fst d.

(** What the middleware reads of a request. *)
Record Request : Type := mkRequest {
  path            : str;
  x_forwarded_for : option str;
  x_real_ip       : option str;
  client_host     : option str
}.

(** A response: status, headers (by the name they are set under) and
    body. *)
Record Response : Type := mkResponse {
  status_code : Z;
  headers     : dict str;
  content     : str
}.

(** The attributes of the middleware object; [limiters] and
    [last_cleanup] are the ones [dispatch] mutates. *)
Record RateLimitMiddleware : Type := mkMiddleware {
  enabled             : bool;
  requests_per_minute : Z;
  burst_capacity      : Z;
  limiters            : dict TokenBucketRateLimit;
  last_cleanup        : Q;
  cleanup_interval    : Z
}.

(** [__init__] with the values of [RATE_LIMIT_ENABLED], [RATE_LIMIT_RPM]
    and [RATE_LIMIT_BURST], at clock reading [now]. *)
Definition new_middleware (on : bool) (rpm burst : Z) (now : Q)
  : RateLimitMiddleware :=
  mkMiddleware on rpm burst [] now 300.

(** [s.split(",")[0]]. *)
Fixpoint before_comma (s : str) : str :=
  match s with
  | [] => []
  | c :: s' => if (c =? 44)%N then [] else c :: before_comma s'
  end.

Definition _get_client_ip (request : Request) : str :=
  match x_forwarded_for request with
  | Some (c :: f) => strip (before_comma (c :: f))
  | _ =>
      match x_real_ip request with
      | Some (c :: ip) => strip (c :: ip)
      | _ =>
          match client_host request with
          | Some host => host
          | None => lit "unknown"
          end
      end
  end.

(** [_cleanup_limiters], with [now] its reading of the clock. *)
Definition _cleanup_limiters (now : Q) (self : RateLimitMiddleware)
  : M RateLimitMiddleware :=
  if Qltb (inject_Z (cleanup_interval self)) (now - last_cleanup self)
  then
    let cutoff_time := (now - inject_Z (cleanup_interval self * 2))%Q in
    let old_ips :=
      keys (filter (fun '(ip, limiter) => Qltb (last_refill limiter) cutoff_time)
                   (limiters self)) in
    let limiters' := fold_left (fun d ip => dict_del ip d) old_ips
                               (limiters self) in
    let self' := mkMiddleware (enabled self) (requests_per_minute self)
                              (burst_capacity self) limiters' now
                              (cleanup_interval self) in
    (match old_ips with
     | [] => ret tt
     | _ => emit (Log DEBUG "Cleaned up rate limiters")
     end) ;;;
    ret self'
  else ret self.

Definition exempt_paths : list str :=
  [ lit "/api/health"; lit "/metrics"; lit "/docs"; lit "/redoc";
    lit "/openapi.json" ].

(** [int(x)] on a float: truncation towards zero. *)
Definition py_int (q : Q) : Z := Z.quot (Qnum q) (Zpos (Qden q)).

(** The readings of [time.time()] one [dispatch] makes, in order: in
    [_cleanup_limiters], in the constructor of a new limiter, in
    [consume], and for the [X-RateLimit-Reset] header. *)
Record Clock : Type := mkClock {
  t_cleanup : Q;
  t_create  : Q;
  t_consume : Q;
  t_reset   : Q
}.

(** A JSON string literal of the source: the text between double
    quotes. *)
Definition quoted (s : string) : str := [34%N] ++ lit s ++ [34%N].

(** The [Response(...)] built when the limiter refuses. *)
Definition rate_limit_response (self : RateLimitMiddleware) (clock : Clock)
  : Response :=
  mkResponse 429
    [ (lit "Content-Type", lit "application/json");
      (lit "Retry-After", lit "60");
      (lit "X-RateLimit-Limit", str_of_Z (requests_per_minute self));
      (lit "X-RateLimit-Remaining", lit "0");
      (lit "X-RateLimit-Reset", str_of_Z (py_int (t_reset clock + 60))) ]
    (lit "{" ++ quoted "error" ++ lit ": " ++ quoted "Rate limit exceeded"
     ++ lit ", " ++ quoted "retry_after" ++ lit ": 60}").

(** The three header assignments on a response that went through. *)
Definition with_rate_headers (self : RateLimitMiddleware) (clock : Clock)
                             (limiter : TokenBucketRateLimit)
                             (response : Response) : Response :=
  let remaining_tokens := py_int (tokens limiter) in
  let h1 := dict_set (lit "X-RateLimit-Limit")
                     (str_of_Z (requests_per_minute self))
                     (headers response) in
  let h2 := dict_set (lit "X-RateLimit-Remaining")
                     (str_of_Z remaining_tokens) h1 in
  let h3 := dict_set (lit "X-RateLimit-Reset")
                     (str_of_Z (py_int (t_reset clock + 60))) h2 in
  mkResponse (status_code response) h3 (content response).

Definition with_limiters (self : RateLimitMiddleware)
                         (d : dict TokenBucketRateLimit)
  : RateLimitMiddleware :=
  mkMiddleware (enabled self) (requests_per_minute self)
               (burst_capacity self) d (last_cleanup self)
               (cleanup_interval self).

(** [dispatch]: [call_next] is the rest of the application, as the
    response it gives; the result is the response together with the
    middleware object after the call. *)
Definition dispatch (self : RateLimitMiddleware) (clock : Clock)
                    (call_next : Request -> Response) (request : Request)
  : M (Response * RateLimitMiddleware) :=
  if negb (enabled self) then ret (call_next request, self)
  else if existsb (str_eqb (path request)) exempt_paths
  then ret (call_next request, self)
  else
    let client_ip := _get_client_ip request in
    self1 <- _cleanup_limiters (t_cleanup clock) self ;;
    let created :=
      match dict_get client_ip (limiters self1) with
      | Some _ => limiters self1
      | None =>
          dict_set client_ip
                   (init (burst_capacity self1)
                         (inject_Z (requests_per_minute self1) / 60)%Q
                         (t_create clock))
                   (limiters self1)
      end in
    match dict_get client_ip created with
    | None => raise (OtherError client_ip)   (* KeyError: not reached *)
    | Some limiter =>
        let '(ok, limiter') := consume (t_consume clock) 1 limiter in
        (* the limiter object in the dictionary is the one mutated *)
        let self2 := with_limiters self1 (dict_set client_ip limiter' created) in
        if negb ok
        then emit (Log WARNING "Rate limit exceeded") ;;;
             ret (rate_limit_response self2 clock, self2)
        else ret (with_rate_headers self2 clock limiter' (call_next request),
                  self2)
    end.


(** Calls made on one limiter at the clock readings [fst] with the
    requested amounts [snd], in order. *)
Fixpoint run (calls : list (Q * Z)) (st : TokenBucketRateLimit)
  : list bool * TokenBucketRateLimit :=
  match calls with
  | [] => ([], st)
  | (now, n) :: rest =>
      let '(b, st1) := consume now n st in
      let '(bs, st2) := run rest st1 in
      (b :: bs, st2)
  end.

(** The amount handed out by the calls that succeeded. *)
Fixpoint granted (calls : list (Q * Z)) (results : list bool) : Z :=
  match calls, results with
  | (_, n) :: calls', true :: results' => (n + granted calls' results')%Z
  | _ :: calls', false :: results' => granted calls' results'
  | _, _ => 0%Z
  end.

(** The clock does not run backwards: each reading is at least the one
    before, the first at least [t]. *)
Fixpoint ascending (t : Q) (calls : list (Q * Z)) : Prop :=
  match calls with
  | [] => True
  | (now, _) :: rest => (t <= now)%Q /\ ascending now rest
  end.

Definition last_time (t : Q) (calls : list (Q * Z)) : Q :=
  fold_left (fun _ c => fst c) calls t.

End RateLimit.

(* ================================================================== *)
(** * Vocabulary of the statements about the middleware               *)
(* ================================================================== *)

Module Expectations.
Import Py Middleware RateLimit.


(** The clock of a request all of whose readings are [now]. *)
Definition instant (now : Q) : Clock := mkClock now now now now.

(** Is the sweep of [_cleanup_limiters] due at [now]? *)
Definition cleanup_due (now : Q) (self : RateLimitMiddleware) : Prop :=
  (inject_Z (cleanup_interval self) < now - last_cleanup self)%Q.

(** Every limiter of the map was made by [dispatch] for this
    configuration, holds between zero and [burst_capacity] tokens and was
    last refilled no later than [t]. *)
Definition well_formed (t : Q) (self : RateLimitMiddleware) : Prop :=
  NoDup (keys (limiters self))
  /\ forall ip l,
       dict_get ip (limiters self) = Some l ->
       capacity l = burst_capacity self
       /\ refill_rate l = (inject_Z (requests_per_minute self) / 60)%Q
       /\ (0 <= tokens l)%Q
       /\ (tokens l <= inject_Z (burst_capacity self))%Q
       /\ (last_refill l <= t)%Q.

End Expectations.

(* ================================================================== *)
(** * backend/app/observability.py                                    *)
(* ================================================================== *)

Module Observability.
Import Py RateLimit.

(** The dictionary of [_normalize_endpoint]. *)
Definition normalizations : dict str :=
  [ (lit "/api/edit", lit "/api/edit");
    (lit "/api/health", lit "/api/health");
    (lit "/metrics", lit "/metrics");
    (lit "/docs", lit "/docs");
    (lit "/redoc", lit "/redoc");
    (lit "/openapi.json", lit "/openapi.json") ].

Definition _normalize_endpoint (path : str) : str :=
  match dict_get path normalizations with
  | Some label => label
  | None =>
      if startswith path (lit "/api/") then lit "/api/*" else lit "/other"
  end.

(** [s.split(sep)] for a one-character separator; [current] is the piece
    being read, last character first. *)
Fixpoint split_on (sep : codepoint) (s : str) (current : str) : list str :=
  match s with
  | [] => [rev current]
  | c :: s' =>
      if (c =? sep)%N then rev current :: split_on sep s' []
      else split_on sep s' (c :: current)
  end.

(** The two parts of [s.split(sep, 1)] when [sep] occurs in [s]. *)
Fixpoint before_first (sep : codepoint) (s : str) : str :=
  match s with
  | [] => []
  | c :: s' => if (c =? sep)%N then [] else c :: before_first sep s'
  end.

Fixpoint after_first (sep : codepoint) (s : str) : str :=
  match s with
  | [] => []
  | c :: s' => if (c =? sep)%N then s' else after_first sep s'
  end.

(** [_parse_otlp_headers], with [headers_env] the value of
    [OTEL_EXPORTER_OTLP_HEADERS] (empty when unset). *)
Definition _parse_otlp_headers (headers_env : str) : dict str :=
  match headers_env with
  | [] => []
  | _ =>
      fold_left
        (fun headers header =>
           if existsb (N.eqb 61) header
           then let stripped := strip header in
                dict_set (before_first 61%N stripped)
                         (after_first 61%N stripped) headers
           else headers)
        (split_on 44%N headers_env []) []
  end.

(** The text of [OTEL_EXPORTER_OTLP_HEADERS] that lists the given
    pairs: [k1=v1,k2=v2,...]. *)
Fixpoint render_headers (pairs : list (str * str)) : str :=
  match pairs with
  | [] => []
  | [(k, v)] => k ++ 61%N :: v
  | (k, v) :: rest => (k ++ 61%N :: v) ++ 44%N :: render_headers rest
  end.

(** One entry of that text. *)
Definition entry (kv : str * str) : str := fst kv ++ 61%N :: snd kv.

(** A pair that survives the round trip: no comma anywhere, no [=] in
    the key, no white space where [strip] would remove it. *)
Definition clean_pair (kv : str * str) : Prop :=
  ~ In 44%N (fst kv) /\ ~ In 61%N (fst kv) /\ ~ In 44%N (snd kv)
  /\ (forall c k', fst kv = c :: k' -> isspace c = false)
  /\ (forall v' c, snd kv = v' ++ [c] -> isspace c = false).

End Observability.

(* ================================================================== *)
(** * backend/app/main.py : the exception handlers                    *)
(* ================================================================== *)

Module Main.
Import Py World.

(** A [JSONResponse]: status and content. *)
Record JSONResponse : Type := mkJSON {
  json_status  : Z;
  json_content : json
}.

Definition request_id_json (request_id : option str) : json :=
  match request_id with Some r => JString r | None => JNull end.

(** [http_exception_handler] on an exception with the given status and
    detail; [request_id] is [request.state.request_id] when set. *)
Definition http_exception_handler (request_id : option str)
                                  (status : Z) (detail : str)
  : M JSONResponse :=
  Py.bind (emit (Log WARNING "HTTP exception")) (fun _ =>
  ret (mkJSON status
         (JObject [ (lit "success", JBool false);
                    (lit "error_message", JString detail);
                    (lit "error_code", JString (lit "HTTP_" ++ str_of_Z status));
                    (lit "request_id", request_id_json request_id) ]))).

(** [general_exception_handler]. *)
Definition general_exception_handler (request_id : option str)
  : M JSONResponse :=
  Py.bind (emit (Log ERROR "Unhandled exception")) (fun _ =>
  ret (mkJSON 500
         (JObject [ (lit "success", JBool false);
                    (lit "error_message", JString (lit "Internal server error"));
                    (lit "error_code", JString (lit "INTERNAL_ERROR"));
                    (lit "request_id", request_id_json request_id) ]))).

(** What the application answers when a handler raises: the handler
    registered for the class of the exception. *)
Definition handle_exception (request_id : option str) (e : exn)
  : M JSONResponse :=
  match e with
  | InputValidationError detail _ =>
      http_exception_handler request_id 422 detail
  | HTTPException status detail =>
      http_exception_handler request_id status detail
  | OtherError _ => general_exception_handler request_id
  end.

End Main.

(* ================================================================== *)
(** * Vocabulary of the statements about the request pipeline         *)
(* ================================================================== *)

Module PipelineVocabulary.
Import Py World InboundValidation.

(** A computation whose validation errors all carry the field [name]. *)
Definition field_or_other {A} (name : string) (m : M A) : Prop :=
  forall e, result m = Raise e -> is_input_validation_error e = true ->
            exists msg, e = InputValidationError msg (Security.field name).

(** A computation that raises nothing but validation errors for the
    field [name]. *)
Definition only_field {A} (name : string) (m : M A) : Prop :=
  forall e, result m = Raise e ->
            exists msg, e = InputValidationError msg (Security.field name).

(** The exception the handler of [/edit] ends with when its body raises
    [e]: the three [except] clauses. *)
Definition handler_exn (e : exn) : exn :=
  match e with
  | InputValidationError detail _ => HTTPException 422 detail
  | HTTPException c d => HTTPException c d
  | OtherError _ =>
      HTTPException 500 (lit "Internal server error during image processing")
  end.

(** A computation that raises nothing but [HTTPException] with a status
    of the list. *)
Definition only_statuses {A} (codes : list Z) (m : M A) : Prop :=
  forall e, result m = Raise e ->
            exists c d, e = HTTPException c d /\ In c codes.

(** What [validate_inpaint_request] ends with when its body raises
    [e]: the two [except] clauses. *)
Definition validation_exn (e : exn) : exn :=
  if is_input_validation_error e then e
  else HTTPException 500 (lit "Internal validation error").

(** The call of the client the handler of [/edit] makes for the
    validated request [vr], once the two uploads are encoded as [i] and
    [m]. *)
Definition upstream_call (env : Env) (vr : Validated) (i m : str)
  : M bytes :=
  NanoBananaClient.inpaint_image env i m (v_prompt vr)
    (seed (v_params vr)) (strength (v_params vr))
    (guidance_scale (v_params vr)).

End PipelineVocabulary.

(* ------------------------------------------------------------------ *)
(** ** What an accepted request looks like                            *)
(* ------------------------------------------------------------------ *)

Module Acceptance.
Import Py World Security InboundValidation.
Local Open Scope Z_scope.

(** An optional number that is absent or within [[lo, hi]]. *)
Definition within (lo hi : Q) (o : option Q) : Prop :=
  match o with
  | None => True
  | Some v => (lo <= v)%Q /\ (v <= hi)%Q
  end.

Definition seed_within (o : option Z) : Prop :=
  match o with
  | None => True
  | Some n => 0 <= n <= 2147483647
  end.

Definition or_default (d : Q) (o : option Q) : Q :=
  match o with Some v => v | None => d end.

(** Optional finite floats, as the values the validator receives. *)
Definition finite (o : option Q) : option value :=
  option_map (fun q => VFloat (Finite q)) o.

(** A float the range test of [validate_numeric_parameter] lets through
    for the bounds [lo] and [hi]: a finite number within them, or a NaN
    (both comparisons are false on a NaN). *)
Definition passes (lo hi : Q) (f : pyfloat) : Prop :=
  f = NaN \/ exists q, f = Finite q /\ (lo <= q)%Q /\ (q <= hi)%Q.

(** The number [_validate_parameters] stores for an optional value. *)
Definition accepted_number (lo hi default : Q) (o : option value)
           (f : pyfloat) : Prop :=
  match o with
  | None => f = Finite default
  | Some v => float v = Converted f /\ passes lo hi f
  end.

(** An [int] too large for a float. *)
Definition overflows (o : option value) : Prop :=
  exists v, o = Some v /\ float v = TooLarge.

(** The [OverflowError] of [float()]. *)
Definition overflow_error : exn :=
  OtherError (lit "int too large to convert to float").

(** The names of the fields of the three optional parameters. *)
Definition parameter_fields : list string :=
  ["seed"; "strength"; "guidance_scale"]%string.

(** An error that names one of the fields of [names]. *)
Definition names_field (names : list string) (e : exn) : Prop :=
  exists msg name, In name names
                   /\ e = InputValidationError msg (Security.field name).

Definition side_within (self : InboundValidator) (n : Z) : Prop :=
  min_image_dimension self <= n <= max_image_dimension self.

(** An upload that has a name and bytes, is not declared larger than
    the limit, and decodes to a picture whose sides are within the
    limits of the validator. *)
Definition sound_upload (env : Env) (self : InboundValidator)
           (f : UploadFile) : Prop :=
  missing f = false
  /\ oversized self f = false
  /\ 0 < len (content f)
  /\ exists picture, Image_open env (content f) = inr picture
                     /\ side_within self (width picture)
                     /\ side_within self (height picture).

(** A decoded image that [validate_and_process_image] takes: PNG or
    JPEG, each side from 256 to 2048. *)
Definition processable_image (picture : Image) : Prop :=
  (format picture = Some (lit "PNG") \/ format picture = Some (lit "JPEG"))
  /\ 256 <= width picture <= 2048
  /\ 256 <= height picture <= 2048.

(** A decoded mask that [validate_and_process_mask] takes for an image
    of the given size. *)
Definition processable_mask (picture : Image) (image_size : Z * Z) : Prop :=
  format picture = Some (lit "PNG")
  /\ In (mode picture) [lit "RGBA"; lit "LA"; lit "L"]
  /\ width picture = fst image_size
  /\ height picture = snd image_size.

End Acceptance.

(* ------------------------------------------------------------------ *)
(** ** Sample uploads and a sample upstream                           *)
(* ------------------------------------------------------------------ *)

Module Samples.
Import Py World Security InboundValidation Observations.

(** An RGBA mask of the size of [image_512]. *)
Definition mask_512 : bytes :=
  png_header [x00; x00; x02; x00]%byte [x00; x00; x02; x00]%byte x06.

(** An upstream that answers every call with a picture. *)
Definition picture_reply : Response :=
  mkResponse 200 (Some (lit "image/png")) None PNG_SIGNATURE None.

Definition picture_env : Env := reply_env (Responded picture_reply).

End Samples.

(* ================================================================== *)
(** * Theorems                                                        *)
(* ================================================================== *)

Module MiddlewareFacts.
Import Middleware.
Local Open Scope Q_scope.

Lemma Qltb_true (a b : Q) : Qltb a b = true <-> a < b.
Proof.
  unfold Qltb. rewrite negb_true_iff.
  split; intro H.
  - apply Qnot_le_lt. intro Hle. apply Qle_bool_iff in Hle. congruence.
  - destruct (Qle_bool b a) eqn:E; [|reflexivity].
    apply Qle_bool_iff in E. exfalso. apply (Qlt_not_le _ _ H E).
Qed.

Lemma Qltb_false (a b : Q) : Qltb a b = false <-> b <= a.
Proof.
  unfold Qltb. rewrite negb_false_iff. apply Qle_bool_iff.
Qed.

Lemma py_min_cases (a b : Q) :
  (b < a /\ py_min a b = b) \/ (a <= b /\ py_min a b = a).
Proof.
  unfold py_min. destruct (Qltb b a) eqn:E.
  - left. split; [now apply Qltb_true|reflexivity].
  - right. split; [now apply Qltb_false|reflexivity].
Qed.

Lemma py_min_le_l (a b : Q) : py_min a b <= a.
Proof.
  destruct (py_min_cases a b) as [[H ->]|[H ->]]; lra.
Qed.

Lemma py_min_le_r (a b : Q) : py_min a b <= b.
Proof.
  destruct (py_min_cases a b) as [[H ->]|[H ->]]; lra.
Qed.

Lemma py_min_glb (a b c : Q) : c <= a -> c <= b -> c <= py_min a b.
Proof.
  intros Ha Hb. destruct (py_min_cases a b) as [[H ->]|[H ->]]; lra.
Qed.

(** With no time elapsed and a count that is already within the
    capacity, the refill leaves the count where it was. *)
Lemma refilled_no_time (st : TokenBucketRateLimit) :
  tokens st <= inject_Z (capacity st) ->
  refilled (last_refill st) st == tokens st.
Proof.
  intro Hle. unfold refilled.
  destruct (py_min_cases (inject_Z (capacity st))
              (tokens st + (last_refill st - last_refill st) * refill_rate st))
    as [[H ->]|[H ->]].
  - ring.
  - assert (E : tokens st + (last_refill st - last_refill st) * refill_rate st
                == tokens st) by ring.
    rewrite E in H. lra.
Qed.

(** A full bucket stays full, whatever time has passed, as long as the
    refill adds a non-negative amount. *)
Lemma refilled_full (now : Q) (st : TokenBucketRateLimit) :
  tokens st == inject_Z (capacity st) ->
  0 <= (now - last_refill st) * refill_rate st ->
  refilled now st == inject_Z (capacity st).
Proof.
  intros Hfull Hadd. unfold refilled.
  destruct (py_min_cases (inject_Z (capacity st))
              (tokens st + (now - last_refill st) * refill_rate st))
    as [[H ->]|[H ->]]; lra.
Qed.

Lemma consume_fields (now : Q) (n : Z) (st : TokenBucketRateLimit) :
  capacity (snd (consume now n st)) = capacity st /\
  refill_rate (snd (consume now n st)) = refill_rate st /\
  last_refill (snd (consume now n st)) = now.
Proof.
  unfold consume. cbn [tokens capacity refill_rate last_refill].
  destruct (Qle_bool _ _); cbn; auto.
Qed.

(** What one call does, in terms of the refilled count. *)
Lemma consume_result (now : Q) (n : Z) (st : TokenBucketRateLimit) :
  (inject_Z n <= refilled now st /\
   fst (consume now n st) = true /\
   tokens (snd (consume now n st)) = refilled now st - inject_Z n)
  \/
  (refilled now st < inject_Z n /\
   fst (consume now n st) = false /\
   tokens (snd (consume now n st)) = refilled now st).
Proof.
  unfold consume. cbn [tokens capacity refill_rate last_refill].
  destruct (Qle_bool (inject_Z n) (refilled now st)) eqn:E.
  - left. apply Qle_bool_iff in E. cbn. auto.
  - right. cbn. split; [|auto].
    apply Qnot_le_lt. intro H. apply Qle_bool_iff in H. congruence.
Qed.

(** The burst lemma behind C1, stated for any object whose count is the
    integer [j]: [j] successes, then only failures. *)
Lemma burst_from (j : nat) :
  forall (m : nat) (st : TokenBucketRateLimit),
    tokens st == inject_Z (Z.of_nat j) ->
    (Z.of_nat j <= capacity st)%Z ->
    fst (burst (j + m) (last_refill st) st) = repeat true j ++ repeat false m.
Proof.
  induction j as [|j IH]; intros m st Htok Hcap.
  - (* no token left: every further call fails and changes nothing *)
    cbn [Nat.add repeat app].
    revert st Htok Hcap. induction m as [|m IHm]; intros st Htok Hcap.
    + reflexivity.
    + cbn [burst repeat].
      assert (Hle : tokens st <= inject_Z (capacity st)).
      { rewrite Htok. rewrite <- Zle_Qle. exact Hcap. }
      pose proof (refilled_no_time st Hle) as Hr.
      destruct (consume_fields (last_refill st) 1 st) as (Hc & _ & Hl).
      destruct (consume_result (last_refill st) 1 st)
        as [(Hge & _ & _)|(_ & Hres & Htk)].
      * exfalso. rewrite Hr, Htok in Hge. cbn in Hge.
        rewrite <- Zle_Qle in Hge. lia.
      * destruct (consume (last_refill st) 1 st) as [b st1] eqn:Ec.
        cbn [fst snd] in *. subst b.
        specialize (IHm st1). rewrite Hl in IHm.
        destruct (burst m (last_refill st) st1) as [bs st2] eqn:Eb.
        cbn [fst] in *. f_equal. apply IHm.
        -- rewrite Htk, Hr. exact Htok.
        -- rewrite Hc. exact Hcap.
  - cbn [Nat.add burst repeat app].
    assert (Hle : tokens st <= inject_Z (capacity st)).
    { rewrite Htok. rewrite <- Zle_Qle. exact Hcap. }
    pose proof (refilled_no_time st Hle) as Hr.
    destruct (consume_fields (last_refill st) 1 st) as (Hc & _ & Hl).
    destruct (consume_result (last_refill st) 1 st)
      as [(_ & Hres & Htk)|(Hlt & _ & _)].
    + destruct (consume (last_refill st) 1 st) as [b st1] eqn:Ec.
      cbn [fst snd] in *. subst b.
      specialize (IH m st1). rewrite Hl in IH.
      destruct (burst (j + m) (last_refill st) st1) as [bs st2] eqn:Eb.
      cbn [fst] in *. f_equal. apply IH.
      * rewrite Htk, Hr, Htok.
        rewrite Nat2Z.inj_succ. unfold Z.succ. rewrite inject_Z_plus. ring.
      * rewrite Hc. lia.
    + exfalso. rewrite Hr, Htok in Hlt.
      rewrite <- Zlt_Qlt in Hlt. lia.
Qed.

End MiddlewareFacts.


Module MiddlewareClaims.
Import Middleware MiddlewareFacts.
Local Open Scope Q_scope.

(** C1.  On a limiter freshly created with capacity [C >= 1], a run of
    [consume()] calls with no time elapsed between them (they all read
    the same clock value, and the refill since the constructor's reading
    adds nothing negative, as when that reading is the same one) returns
    [True] for exactly the first [C] calls and [False] for every later
    one; and for any object, clock reading and request [n], [consume(n)]
    returns [True] iff the refilled count is at least [n], in which case
    the new count is the refilled count minus [n], and otherwise the new
    count is the refilled count. *)
Theorem consume_burst_and_contract
    (C : Z) (rate t0 now : Q) (HC : (1 <= C)%Z)
    (Hfresh : 0 <= (now - t0) * rate) :
  (forall m : nat,
      fst (burst (Z.to_nat C + m) now (init C rate t0))
      = repeat true (Z.to_nat C) ++ repeat false m)
  /\
  (forall (now : Q) (n : Z) (st : TokenBucketRateLimit),
      (fst (consume now n st) = true <-> inject_Z n <= refilled now st)
      /\ (fst (consume now n st) = true ->
          tokens (snd (consume now n st)) = refilled now st - inject_Z n)
      /\ (fst (consume now n st) = false ->
          tokens (snd (consume now n st)) = refilled now st)).
Proof.
  split.
  - intro m.
    (* the first call finds the bucket full; the others follow it with no
       time in between *)
    assert (Hj : Z.to_nat C = S (Z.to_nat (C - 1))) by lia.
    rewrite Hj. cbn [Nat.add burst repeat app].
    set (st0 := init C rate t0).
    assert (Hr : refilled now st0 == inject_Z C).
    { apply (refilled_full now st0); [reflexivity|exact Hfresh]. }
    destruct (consume_fields now 1 st0) as (Hc & _ & Hl).
    destruct (consume_result now 1 st0) as [(_ & Hres & Htk)|(Hlt & _ & _)].
    + destruct (consume now 1 st0) as [b st1] eqn:Ec.
      cbn [fst snd] in *. subst b.
      pose proof (burst_from (Z.to_nat (C - 1)) m st1) as Hb.
      rewrite Hl in Hb.
      destruct (burst (Z.to_nat (C - 1) + m) now st1) as [bs st2].
      cbn [fst] in *. f_equal. apply Hb.
      * rewrite Htk, Hr. rewrite Z2Nat.id by lia.
        unfold Zminus. rewrite inject_Z_plus. reflexivity.
      * rewrite Hc. cbn [st0 init capacity]. lia.
    + exfalso. rewrite Hr in Hlt. rewrite <- Zlt_Qlt in Hlt. lia.
  - intros now' n st.
    destruct (consume_result now' n st) as [(Hge & Hr & Ht)|(Hlt & Hr & Ht)].
    + repeat split; auto. rewrite Hr. discriminate.
    + repeat split.
      * rewrite Hr. discriminate.
      * intro Hle. exfalso. apply (Qlt_not_le _ _ Hlt Hle).
      * rewrite Hr. discriminate.
      * intros _. exact Ht.
Qed.

Lemma consume_burst_and_contract_witness :
  fst (burst 5 0 (init 3 1 0)) = [true; true; true; false; false]
  /\ fst (burst 3 (7 # 2) (init 2 1 0)) = [true; true; false].
Proof.
  split.
  - refine (proj1 (consume_burst_and_contract 3 1 0 0 _ _) 2%nat).
    + lia.
    + unfold Qle. cbn. lia.
  - refine (proj1 (consume_burst_and_contract 2 1 0 (7 # 2) _ _) 1%nat).
    + lia.
    + unfold Qle. cbn. lia.
Defined.

(** C2, as the code has it.  From any state whose count lies in
    [0, capacity], a call [consume(n)] with [n >= 1] leaves the count at
    most the capacity, whatever the clock reads: the refill is capped.
    It leaves the count at least zero exactly when the count plus the
    elapsed time times the refill rate is not negative, as it is
    whenever the elapsed time and the refill rate are not negative: the
    subtraction happens only when enough tokens are there, but nothing
    keeps a negative refill from being stored. *)
Theorem consume_keeps_tokens_in_range
    (st : TokenBucketRateLimit) (now : Q) (n : Z)
    (Hlo : 0 <= tokens st) (Hhi : tokens st <= inject_Z (capacity st))
    (Hn : (1 <= n)%Z) :
  tokens (snd (consume now n st))
  <= inject_Z (capacity (snd (consume now n st)))
  /\ (0 <= tokens (snd (consume now n st))
      <-> 0 <= tokens st + (now - last_refill st) * refill_rate st)
  /\ (0 <= now - last_refill st -> 0 <= refill_rate st ->
      0 <= tokens (snd (consume now n st))).
Proof.
  destruct (consume_fields now n st) as (Hc & _ & _). rewrite Hc.
  assert (Hn' : 1 <= inject_Z n).
  { change 1 with (inject_Z 1). rewrite <- Zle_Qle. exact Hn. }
  assert (Hr1 : refilled now st <= inject_Z (capacity st)).
  { unfold refilled. apply py_min_le_l. }
  assert (Hr2 : refilled now st
                <= tokens st + (now - last_refill st) * refill_rate st).
  { unfold refilled. apply py_min_le_r. }
  assert (Hr0 : 0 <= tokens st + (now - last_refill st) * refill_rate st ->
                0 <= refilled now st).
  { intro H. unfold refilled. apply py_min_glb; lra. }
  assert (Hiff : 0 <= tokens (snd (consume now n st))
                 <-> 0 <= tokens st
                          + (now - last_refill st) * refill_rate st).
  { destruct (consume_result now n st) as [(Hge & _ & ->)|(Hlt & _ & ->)].
    - split; intro H; lra.
    - split; intro H; [lra|now apply Hr0]. }
  split; [|split].
  - destruct (consume_result now n st) as [(Hge & _ & ->)|(_ & _ & ->)]; lra.
  - exact Hiff.
  - intros He Hrate. apply Hiff.
    assert (0 <= (now - last_refill st) * refill_rate st)
      by (apply Qmult_le_0_compat; assumption).
    lra.
Qed.

Lemma consume_keeps_tokens_in_range_witness :
  tokens (snd (consume 10 1 (mkTokenBucket 5 (1 # 2) 2 4)))
  <= inject_Z (capacity (snd (consume 10 1 (mkTokenBucket 5 (1 # 2) 2 4))))
  /\ 0 <= tokens (snd (consume 10 1 (mkTokenBucket 5 (1 # 2) 2 4))).
Proof.
  destruct (consume_keeps_tokens_in_range
              (mkTokenBucket 5 (1 # 2) 2 4) 10 1) as (Hup & _ & Hlow).
  - unfold Qle; cbn; lia.
  - unfold Qle; cbn; lia.
  - lia.
  - split; [exact Hup|]. apply Hlow; unfold Qle; cbn; lia.
Defined.

(** The claim as worded fails on the code: with the clock read six
    seconds before the last refill, a limiter of capacity 5 that holds
    2 tokens refuses a request for one token and is left with -4. *)
Lemma consume_keeps_tokens_in_range_counterexample :
  let st := mkTokenBucket 5 1 2 10 in
  0 <= tokens st /\ tokens st <= inject_Z (capacity st)
  /\ consume 4 1 st = (false, mkTokenBucket 5 1 (-4) 4)
  /\ ~ 0 <= tokens (snd (consume 4 1 st)).
Proof.
  cbv zeta. split; [unfold Qle; cbn; lia|].
  split; [unfold Qle; cbn; lia|].
  split; [vm_compute; reflexivity|].
  vm_compute. intro H. now apply H.
Qed.

End MiddlewareClaims.

(* ------------------------------------------------------------------ *)
(** ** Sequences, slices and stripping                                *)
(* ------------------------------------------------------------------ *)

Module PyFacts.
Import Py.
Local Open Scope Z_scope.

Lemma str_eqb_eq (a b : str) : str_eqb a b = true <-> a = b.
Proof.
  unfold str_eqb. destruct (list_eq_dec N.eq_dec a b); split; congruence.
Qed.

Lemma bytes_eqb_eq (a b : bytes) : bytes_eqb a b = true <-> a = b.
Proof.
  unfold bytes_eqb. destruct (list_eq_dec byte_eq_dec a b);
    split; congruence.
Qed.

Lemma bstartswith_iff (s prefix : bytes) :
  bstartswith s prefix = true <-> exists rest, s = prefix ++ rest.
Proof.
  unfold bstartswith. revert s.
  induction prefix as [|p prefix IH]; intros s; cbn.
  - split; [intros _; now exists s|reflexivity].
  - destruct s as [|c s].
    + split; [discriminate|intros [rest H]; discriminate].
    + rewrite andb_true_iff, IH. split.
      * intros [Hc [rest ->]]. apply byte_dec_bl in Hc. subst.
        now exists rest.
      * intros [rest H]. injection H as -> ->.
        split; [apply byte_dec_lb; reflexivity|now exists rest].
Qed.

Lemma len_nonneg {A} (s : list A) : 0 <= len s.
Proof. unfold len. lia. Qed.

Lemma len_app {A} (s t : list A) : len (s ++ t) = len s + len t.
Proof. unfold len. rewrite length_app. lia. Qed.

Lemma In_firstn {A} (n : nat) (s : list A) (x : A) :
  In x (firstn n s) -> In x s.
Proof.
  intro H. rewrite <- (firstn_skipn n s). apply in_or_app. now left.
Qed.

Lemma In_skipn {A} (n : nat) (s : list A) (x : A) :
  In x (skipn n s) -> In x s.
Proof.
  intro H. rewrite <- (firstn_skipn n s). apply in_or_app. now right.
Qed.

Lemma In_slice {A} (s : list A) (lo hi : option Z) (x : A) :
  In x (slice s lo hi) -> In x s.
Proof.
  unfold slice. intro H. apply In_firstn in H. now apply In_skipn in H.
Qed.

(** A prefix slice with a non-negative bound is no longer than the
    bound. *)
Lemma len_slice_prefix {A} (s : list A) (k : Z) :
  0 <= k -> len (slice s None (Some k)) <= k.
Proof.
  intro Hk. unfold slice, clamp_index, len.
  destruct (k <? 0) eqn:E1; [apply Z.ltb_lt in E1; lia|].
  rewrite E1. cbn [skipn Z.to_nat].
  rewrite length_firstn.
  destruct (Z.of_nat (length s) <? k) eqn:E2.
  - apply Z.ltb_lt in E2. lia.
  - apply Z.ltb_ge in E2. lia.
Qed.

Lemma In_dropwhile {A} (f : A -> bool) (s : list A) (x : A) :
  In x (dropwhile f s) -> In x s.
Proof.
  induction s as [|c s IH]; cbn; [tauto|].
  destruct (f c); cbn; tauto.
Qed.

Lemma dropwhile_keeps {A} (f : A -> bool) (s : list A) (x : A) :
  In x s -> f x = false -> In x (dropwhile f s).
Proof.
  induction s as [|c s IH]; cbn; [tauto|].
  intros [->|H] Hx.
  - rewrite Hx. now left.
  - destruct (f c); [auto|now right].
Qed.

Lemma length_dropwhile {A} (f : A -> bool) (s : list A) :
  (length (dropwhile f s) <= length s)%nat.
Proof.
  induction s as [|c s IH]; cbn; [lia|]. destruct (f c); cbn; lia.
Qed.

Lemma dropwhile_idem {A} (f : A -> bool) (s : list A) :
  dropwhile f (dropwhile f s) = dropwhile f s.
Proof.
  induction s as [|c s IH]; cbn; [reflexivity|].
  destruct (f c) eqn:E; [exact IH|]. cbn. now rewrite E.
Qed.

Lemma dropwhile_snoc {A} (f : A -> bool) (s : list A) (x : A) :
  f x = false -> dropwhile f (s ++ [x]) = dropwhile f s ++ [x].
Proof.
  intro Hx. induction s as [|c s IH]; cbn.
  - now rewrite Hx.
  - destruct (f c); [exact IH|reflexivity].
Qed.

(** What [dropwhile] returns is empty or starts with a kept element. *)
Lemma dropwhile_head {A} (f : A -> bool) (s : list A) :
  dropwhile f s = [] \/
  exists c t, dropwhile f s = c :: t /\ f c = false.
Proof.
  induction s as [|c s IH]; cbn; [now left|].
  destruct (f c) eqn:E; [exact IH|]. right. now exists c, s.
Qed.

Lemma dropwhile_nil_iff {A} (f : A -> bool) (s : list A) :
  dropwhile f s = [] <-> forallb f s = true.
Proof.
  induction s as [|c s IH]; cbn; [tauto|].
  destruct (f c); cbn; [exact IH|]. split; discriminate.
Qed.

Lemma In_strip (s : str) (c : codepoint) : In c (strip s) -> In c s.
Proof.
  unfold strip, rstrip, lstrip. intro H.
  apply in_rev in H. apply In_dropwhile in H. apply in_rev in H.
  now apply In_dropwhile in H.
Qed.

Lemma strip_keeps (s : str) (c : codepoint) :
  In c s -> isspace c = false -> In c (strip s).
Proof.
  unfold strip, rstrip, lstrip. intros H Hc.
  apply -> in_rev. apply dropwhile_keeps; [|exact Hc].
  apply -> in_rev. now apply dropwhile_keeps.
Qed.

Lemma len_strip (s : str) : len (strip s) <= len s.
Proof.
  unfold strip, rstrip, lstrip, len.
  rewrite length_rev.
  pose proof (length_dropwhile isspace (rev (dropwhile isspace s))) as H1.
  rewrite length_rev in H1.
  pose proof (length_dropwhile isspace s). lia.
Qed.

(** Stripping at the right end does not bring white space back to the
    left end. *)
Lemma lstrip_rstrip_lstrip (s : str) :
  lstrip (rstrip (lstrip s)) = rstrip (lstrip s).
Proof.
  unfold lstrip, rstrip.
  destruct (dropwhile_head isspace s) as [->|(c & t & -> & Hc)].
  - reflexivity.
  - cbn [rev]. rewrite (dropwhile_snoc _ _ _ Hc).
    rewrite rev_app_distr. cbn. now rewrite Hc.
Qed.

Lemma strip_idem (s : str) : strip (strip s) = strip s.
Proof.
  unfold strip. rewrite lstrip_rstrip_lstrip.
  unfold rstrip. rewrite rev_involutive, dropwhile_idem. reflexivity.
Qed.

Lemma strip_nil_iff (s : str) : strip s = [] <-> forallb isspace s = true.
Proof.
  unfold strip, rstrip, lstrip. split.
  - intro H. apply (f_equal (@rev _)) in H.
    rewrite rev_involutive in H. cbn in H.
    apply dropwhile_nil_iff in H.
    destruct (dropwhile_head isspace s) as [E|(c & t & E & Hc)].
    + now apply dropwhile_nil_iff.
    + rewrite E in H. rewrite forallb_forall in H.
      specialize (H c). rewrite <- in_rev in H.
      specialize (H (or_introl eq_refl)). congruence.
  - intro H. apply dropwhile_nil_iff in H. now rewrite H.
Qed.

End PyFacts.

(* ------------------------------------------------------------------ *)
(** ** security.py: signatures and the mask file                      *)
(* ------------------------------------------------------------------ *)

Module SignatureClaims.
Import Py Security PyFacts.
Local Open Scope Z_scope.

Lemma first_signature_none (b : bytes) (table : list (str * bytes)) :
  (forall t sig, In (t, sig) table -> bstartswith b sig = false) ->
  first_signature b table = None.
Proof.
  induction table as [|[t sig] table IH]; intro H; cbn; [reflexivity|].
  rewrite (H t sig) by now left.
  apply IH. intros t' sig' Hin. apply (H t' sig'). now right.
Qed.

(** C5.  Against the table of [validate_image_file], a byte string of at
    least 16 bytes that starts with 89 50 4E 47 0D 0A 1A 0A is detected
    as [png] and one that starts with FF D8 FF as [jpeg]; for every
    table, a byte string shorter than 16 bytes, or one that starts with
    none of the table's signatures, yields [None]. *)
Theorem validate_file_signature_detects (b : bytes) :
  (16 <= len b -> (exists rest, b = PNG_SIGNATURE ++ rest) ->
   validate_file_signature b IMAGE_SIGNATURES = Some (lit "png"))
  /\ (16 <= len b -> (exists rest, b = JPEG_SIGNATURE ++ rest) ->
      validate_file_signature b IMAGE_SIGNATURES = Some (lit "jpeg"))
  /\ (forall table, len b < 16 -> validate_file_signature b table = None)
  /\ (forall table,
        (forall t sig, In (t, sig) table ->
                       ~ exists rest, b = sig ++ rest) ->
        validate_file_signature b table = None).
Proof.
  unfold validate_file_signature. repeat split.
  - intros Hlen [rest ->].
    destruct (len (PNG_SIGNATURE ++ rest) <? 16) eqn:E;
      [apply Z.ltb_lt in E; lia|]. reflexivity.
  - intros Hlen [rest ->].
    destruct (len (JPEG_SIGNATURE ++ rest) <? 16) eqn:E;
      [apply Z.ltb_lt in E; lia|]. reflexivity.
  - intros table Hlen.
    destruct (len b <? 16) eqn:E; [reflexivity|].
    apply Z.ltb_ge in E. lia.
  - intros table Hno.
    destruct (len b <? 16); [reflexivity|].
    apply first_signature_none. intros t sig Hin.
    destruct (bstartswith b sig) eqn:E; [|reflexivity].
    apply bstartswith_iff in E. exfalso. exact (Hno t sig Hin E).
Qed.

Lemma validate_file_signature_detects_witness :
  validate_file_signature (PNG_SIGNATURE ++ repeat x00 8) IMAGE_SIGNATURES
  = Some (lit "png")
  /\ validate_file_signature (JPEG_SIGNATURE ++ repeat x00 13)
       IMAGE_SIGNATURES = Some (lit "jpeg")
  /\ validate_file_signature PNG_SIGNATURE IMAGE_SIGNATURES = None
  /\ validate_file_signature (repeat x00 20) IMAGE_SIGNATURES = None.
Proof.
  split; [|split; [|split]].
  - apply (proj1 (validate_file_signature_detects
                    (PNG_SIGNATURE ++ repeat x00 8))).
    + cbn. lia.
    + exists (repeat x00 8). reflexivity.
  - apply (proj1 (proj2 (validate_file_signature_detects
                           (JPEG_SIGNATURE ++ repeat x00 13)))).
    + cbn. lia.
    + exists (repeat x00 13). reflexivity.
  - apply (proj1 (proj2 (proj2 (validate_file_signature_detects
                                  PNG_SIGNATURE)))).
    cbn. lia.
  - apply (proj2 (proj2 (proj2 (validate_file_signature_detects
                                  (repeat x00 20))))).
    intros t sig Hin [rest Hb].
    cbn in Hin.
    destruct Hin as [E|[E|[E|[]]]]; injection E as <- <-; discriminate Hb.
Defined.

(** What [validate_mask_file] decides on: the content type, the
    signature and the length.  Once these three pass it returns,
    whatever bytes 12-16 and byte 25 hold. *)
Lemma validate_mask_file_outcome (d : bytes) (f ct : str) :
  (ct <> lit "image/png" \/ bstartswith d PNG_SIGNATURE = false
   \/ len d < 33 ->
   exists msg, result (validate_mask_file d f ct)
               = Raise (InputValidationError msg (field "mask")))
  /\ (ct = lit "image/png" -> bstartswith d PNG_SIGNATURE = true ->
      33 <= len d ->
      result (validate_mask_file d f ct) = Return tt).
Proof.
  unfold validate_mask_file. split.
  - intros H.
    destruct (str_eqb ct (lit "image/png")) eqn:E1; cbn [negb];
      [|eexists; reflexivity].
    destruct (bstartswith d PNG_SIGNATURE) eqn:E2; cbn [negb];
      [|eexists; reflexivity].
    destruct (len d <? 33) eqn:E3; [eexists; reflexivity|].
    exfalso. apply str_eqb_eq in E1. apply Z.ltb_ge in E3.
    destruct H as [H|[H|H]]; [congruence|discriminate|lia].
  - intros -> -> Hlen.
    replace (str_eqb (lit "image/png") (lit "image/png")) with true
      by (symmetry; now apply str_eqb_eq).
    cbn [negb].
    destruct (len d <? 33) eqn:E3; [apply Z.ltb_lt in E3; lia|].
    unfold mask_ihdr_block.
    destruct (negb (bytes_eqb (slice d (Some 12) (Some 16)) (blit "IHDR")));
      destruct (25 <? len d); destruct (nth_error d 25) as [c|];
      try destruct (negb (existsb (N.eqb (to_N c)) [4%N; 6%N]));
      destruct (negb (endswith (lower (sanitize_filename f)) (lit ".png")));
      reflexivity.
Qed.

(** C3 (the code departs from it).  A 33-byte file with the PNG
    signature whose bytes 12-16 are not [IHDR], sent as [image/png]: the
    [InputValidationError] raised for the missing IHDR chunk is caught
    by the [except Exception] of the same function, logged as
    "PNG validation warning", and the function returns. *)
Theorem validate_mask_file_swallows_ihdr_error :
  let data := PNG_SIGNATURE ++ repeat x00 25 in
  len data = 33
  /\ slice data (Some 12) (Some 16) <> blit "IHDR"
  /\ mask_ihdr_block data
     = ([], Raise (InputValidationError
                     (lit "Invalid PNG structure - IHDR chunk not found")
                     (field "mask")))
  /\ validate_mask_file data (lit "m.png") (lit "image/png")
     = ([Log WARNING "PNG validation warning"], Return tt).
Proof.
  cbv zeta. repeat split.
  - vm_compute. discriminate.
Qed.

End SignatureClaims.

(* ------------------------------------------------------------------ *)
(** ** security.py: the prompt                                        *)
(* ------------------------------------------------------------------ *)

Module PromptClaims.
Import Py Security Observations PyFacts.
Local Open Scope Z_scope.

(** The decision of [validate_prompt], read off the trimmed prompt. *)
Lemma validate_prompt_result (p : str) :
  result (validate_prompt p) =
  match strip p with
  | [] => Raise empty_prompt_error
  | _ =>
      if 500 <? len (strip p) then Raise (long_prompt_error (strip p))
      else if existsb prompt_control_char (strip p)
           then Raise control_prompt_error
           else Return (strip p)
  end.
Proof.
  unfold validate_prompt.
  destruct p as [|c p]; [reflexivity|].
  cbn [orb].
  destruct (strip (c :: p)) as [|c' p'] eqn:E; [reflexivity|].
  destruct (500 <? len (c' :: p')); [reflexivity|].
  destruct (existsb prompt_control_char (c' :: p')); [reflexivity|].
  destruct (existsb _ suspicious_patterns); reflexivity.
Qed.

(** Decide the comparisons of a character-class test one by one,
    dropping at once the cases the known bounds exclude. *)
Ltac class_cases :=
  repeat (match goal with
          | |- context [(?a <=? ?b)%N] => destruct (N.leb_spec a b)
          | |- context [(?a =? ?b)%N] => destruct (N.eqb_spec a b)
          end; try lia);
  cbn; try reflexivity; try discriminate; try lia.

Lemma printable_bounds (c : codepoint) :
  printable c = true -> (32 <= c <= 126)%N.
Proof.
  unfold printable. intro H. apply andb_true_iff in H.
  destruct H as [H1 H2]. apply N.leb_le in H1. apply N.leb_le in H2. lia.
Qed.

Lemma printable_not_control (c : codepoint) :
  printable c = true -> prompt_control_char c = false.
Proof.
  intro H. apply printable_bounds in H.
  unfold prompt_control_char. class_cases.
Qed.

Lemma printable_space_iff (c : codepoint) :
  printable c = true -> (isspace c = true <-> c = 32%N).
Proof.
  intro H. apply printable_bounds in H.
  split; [|intros ->; reflexivity].
  unfold isspace. class_cases.
Qed.

(** C4, as the code has it.  [validate_prompt] raises iff the prompt is
    empty or white space only, or its trimmed form is longer than 500
    characters, or its trimmed form holds a control character of
    00-08, 0B, 0C, 0E-1F, 7F; what it raises is an
    [InputValidationError] for the field [prompt], and what it returns
    is the trimmed prompt.  So it rejects the empty string, every
    501-character string without white space, and every string that
    holds 07; it accepts every 500-character string of printable ASCII
    characters that are not all spaces; and a prompt with [<script] is
    returned with a warning logged. *)
Theorem validate_prompt_decision (p : str) :
  ((exists e, result (validate_prompt p) = Raise e) <->
   (forallb isspace p = true
    \/ 500 < len (strip p)
    \/ existsb prompt_control_char (strip p) = true))
  /\ (forall e, result (validate_prompt p) = Raise e ->
                exists msg, e = InputValidationError msg (field "prompt"))
  /\ (forall r, result (validate_prompt p) = Return r -> r = strip p)
  /\ (exists e, result (validate_prompt []) = Raise e)
  /\ (len p = 501 -> existsb isspace p = false ->
      exists e, result (validate_prompt p) = Raise e)
  /\ (In 7%N p -> exists e, result (validate_prompt p) = Raise e)
  /\ (len p = 500 -> forallb printable p = true ->
      existsb (fun c => negb (c =? 32)%N) p = true ->
      result (validate_prompt p) = Return (strip p))
  /\ validate_prompt (lit "<script>x</script>")
     = ([Log WARNING "Suspicious pattern in prompt"],
        Return (lit "<script>x</script>")).
Proof.
  pose proof (validate_prompt_result p) as R.
  assert (Hiff : (exists e, result (validate_prompt p) = Raise e) <->
                 (forallb isspace p = true \/ 500 < len (strip p)
                  \/ existsb prompt_control_char (strip p) = true)).
  { rewrite R. rewrite <- strip_nil_iff.
    destruct (strip p) as [|c q] eqn:E.
    - split; [intros _; now left|intros _; eexists; reflexivity].
    - destruct (500 <? len (c :: q)) eqn:E1.
      + apply Z.ltb_lt in E1.
        split; [intros _; right; now left|intros _; eexists; reflexivity].
      + apply Z.ltb_ge in E1.
        destruct (existsb prompt_control_char (c :: q)) eqn:E2.
        * split; [intros _; right; now right
                 |intros _; eexists; reflexivity].
        * split; [intros [e He]; discriminate|].
          intros [H|[H|H]]; [discriminate|lia|discriminate]. }
  split; [exact Hiff|].
  split.
  { intros e He. rewrite R in He.
    destruct (strip p) as [|c q].
    - injection He as <-. eexists; reflexivity.
    - destruct (500 <? len (c :: q)).
      + injection He as <-. eexists; reflexivity.
      + destruct (existsb prompt_control_char (c :: q));
          [injection He as <-; eexists; reflexivity|discriminate]. }
  split.
  { intros r Hr. rewrite R in Hr.
    destruct (strip p) as [|c q]; [discriminate|].
    destruct (500 <? len (c :: q)); [discriminate|].
    destruct (existsb prompt_control_char (c :: q)); [discriminate|].
    now injection Hr as <-. }
  split; [eexists; reflexivity|].
  split.
  { intros Hlen Hns. apply Hiff. right; left.
    assert (E : strip p = p).
    { unfold strip, rstrip, lstrip.
      assert (D : forall s, existsb isspace s = false ->
                            dropwhile isspace s = s).
      { intros [|c s]; cbn; [reflexivity|].
        intro H. apply orb_false_iff in H. now rewrite (proj1 H). }
      rewrite (D p Hns). rewrite D; [apply rev_involutive|].
      destruct (existsb isspace (rev p)) eqn:X; [|reflexivity].
      apply existsb_exists in X. destruct X as (c & Hc & Hs).
      apply in_rev in Hc.
      assert (existsb isspace p = true)
        by (apply existsb_exists; now exists c).
      congruence. }
    rewrite E. lia. }
  split.
  { intros H7. apply Hiff.
    pose proof (len_strip p) as Hle.
    destruct (Z_lt_dec 500 (len (strip p))) as [Hl|Hl];
      [right; now left|].
    right; right. apply existsb_exists. exists 7%N.
    split; [|reflexivity]. now apply strip_keeps. }
  split; [|reflexivity].
  intros Hlen Hpr Hns. rewrite R.
  rewrite forallb_forall in Hpr.
  apply existsb_exists in Hns. destruct Hns as (c & Hc & Hne).
  apply negb_true_iff, N.eqb_neq in Hne.
  assert (Hin : In c (strip p)).
  { apply strip_keeps; [exact Hc|].
    destruct (isspace c) eqn:Hs; [|reflexivity].
    apply (printable_space_iff c (Hpr c Hc)) in Hs. contradiction. }
  destruct (strip p) as [|c' q] eqn:E; [destruct Hin|].
  pose proof (len_strip p) as Hle. rewrite E in Hle.
  destruct (500 <? len (c' :: q)) eqn:E1; [apply Z.ltb_lt in E1; lia|].
  destruct (existsb prompt_control_char (c' :: q)) eqn:E2; [|reflexivity].
  apply existsb_exists in E2. destruct E2 as (x & Hx & Hcx).
  rewrite <- E in Hx. apply In_strip in Hx.
  rewrite (printable_not_control x (Hpr x Hx)) in Hcx. discriminate.
Qed.

Lemma validate_prompt_decision_witness :
  (exists e, result (validate_prompt (repeat 97%N 501)) = Raise e)
  /\ (exists e, result (validate_prompt (lit "ding" ++ [7%N])) = Raise e)
  /\ result (validate_prompt (repeat 97%N 500))
     = Return (strip (repeat 97%N 500)).
Proof.
  split; [|split].
  - apply (proj1 (proj2 (proj2 (proj2 (proj2
             (validate_prompt_decision (repeat 97%N 501))))))).
    + reflexivity.
    + vm_compute. reflexivity.
  - apply (proj1 (proj2 (proj2 (proj2 (proj2 (proj2
             (validate_prompt_decision (lit "ding" ++ [7%N])))))))).
    vm_compute. tauto.
  - apply (proj1 (proj2 (proj2 (proj2 (proj2 (proj2 (proj2
             (validate_prompt_decision (repeat 97%N 500))))))))).
    + reflexivity.
    + vm_compute. reflexivity.
    + vm_compute. reflexivity.
Defined.

(** The claim as worded fails on the code: a prompt that holds the
    control character 0B at its end is trimmed first and accepted; a
    501-character prompt that ends in a space is accepted; and the
    500-character prompt of spaces, all printable, is rejected. *)
Lemma validate_prompt_counterexample :
  (existsb prompt_control_char (lit "a" ++ [11%N]) = true
   /\ validate_prompt (lit "a" ++ [11%N]) = ([], Return (lit "a")))
  /\ (len (repeat 97%N 500 ++ [32%N]) = 501
      /\ validate_prompt (repeat 97%N 500 ++ [32%N])
         = ([], Return (repeat 97%N 500)))
  /\ (len (repeat 32%N 500) = 500
      /\ forallb printable (repeat 32%N 500) = true
      /\ result (validate_prompt (repeat 32%N 500))
         = Raise empty_prompt_error).
Proof.
  repeat split; vm_compute; reflexivity.
Qed.

(** C9.  When [validate_prompt] succeeds on [p] with result [r], [r] is
    the trimmed [p], and [validate_prompt] on [r] succeeds and returns
    [r]. *)
Theorem validate_prompt_idempotent (p r : str)
    (H : result (validate_prompt p) = Return r) :
  r = strip p /\ result (validate_prompt r) = Return r.
Proof.
  rewrite validate_prompt_result in H.
  destruct (strip p) as [|c q] eqn:E; [discriminate|].
  destruct (500 <? len (c :: q)) eqn:E1; [discriminate|].
  destruct (existsb prompt_control_char (c :: q)) eqn:E2; [discriminate|].
  injection H as <-. split; [reflexivity|].
  rewrite validate_prompt_result.
  rewrite <- E, strip_idem, E, E1, E2. reflexivity.
Qed.

Lemma validate_prompt_idempotent_witness :
  lit "a cat" = strip (lit "  a cat ")
  /\ result (validate_prompt (lit "a cat")) = Return (lit "a cat").
Proof.
  apply (validate_prompt_idempotent (lit "  a cat ") (lit "a cat")).
  vm_compute. reflexivity.
Defined.

End PromptClaims.

(* ------------------------------------------------------------------ *)
(** ** security.py: file names                                        *)
(* ------------------------------------------------------------------ *)

Module FilenameClaims.
Import Py Security PyFacts.
Local Open Scope Z_scope.

Lemma rfind_from_lower (c : codepoint) (s : str) :
  forall i best, -1 <= best -> 0 <= i -> -1 <= rfind_from c s i best.
Proof.
  induction s as [|x s IH]; intros i best Hb Hi; cbn; [exact Hb|].
  apply IH; [destruct (x =? c)%N; lia|lia].
Qed.

Lemma rfind_lower (c : codepoint) (s : str) : -1 <= rfind c s.
Proof. unfold rfind. apply rfind_from_lower; lia. Qed.

(** Cutting at a non-negative index loses nothing. *)
Lemma slice_cut {A} (s : list A) (d : Z) :
  0 <= d -> slice s None (Some d) ++ slice s (Some d) None = s.
Proof.
  intro Hd. unfold slice, clamp_index.
  destruct (d <? 0) eqn:E; [apply Z.ltb_lt in E; lia|]. rewrite E.
  set (k := if len s <? d then len s else d).
  assert (Hk : 0 <= k <= len s).
  { subst k. unfold len. destruct (Z.of_nat (length s) <? d) eqn:E2;
      [apply Z.ltb_lt in E2|apply Z.ltb_ge in E2]; lia. }
  cbn [skipn Z.to_nat]. rewrite Z.sub_0_r.
  rewrite (firstn_all2 (n := Z.to_nat (len s - k))).
  - apply firstn_skipn.
  - rewrite length_skipn. unfold len in *. lia.
Qed.

Lemma len_slice_prefix_exact {A} (s : list A) (k : Z) :
  0 <= k <= len s -> len (slice s None (Some k)) = k.
Proof.
  intros [Hk Hle]. unfold slice, clamp_index, len in *.
  destruct (k <? 0) eqn:E1; [apply Z.ltb_lt in E1; lia|]. rewrite E1.
  destruct (Z.of_nat (length s) <? k) eqn:E2;
    [apply Z.ltb_lt in E2; lia|].
  cbn [skipn Z.to_nat]. rewrite length_firstn. lia.
Qed.

Lemma splitext_app (p : str) : fst (splitext p) ++ snd (splitext p) = p.
Proof.
  unfold splitext.
  destruct ((rfind 47%N p <? rfind 46%N p) && _) eqn:E; cbn [fst snd].
  - apply andb_true_iff in E. destruct E as [E _]. apply Z.ltb_lt in E.
    pose proof (rfind_lower 47%N p). apply slice_cut. lia.
  - apply app_nil_r.
Qed.

Lemma In_splitext (p : str) (c : codepoint) :
  In c (fst (splitext p)) \/ In c (snd (splitext p)) -> In c p.
Proof.
  intro H. rewrite <- (splitext_app p). now apply in_or_app.
Qed.

Lemma In_truncated (p : str) (c : codepoint) :
  In c (truncated p) -> In c p.
Proof.
  unfold truncated. destruct (255 <? len p); [|auto].
  destruct (splitext p) as [name ext] eqn:E. intro H.
  apply In_splitext. rewrite E. cbn [fst snd].
  apply in_app_or in H. destruct H as [H|H]; [left|now right].
  now apply In_slice in H.
Qed.

Lemma In_cleaned (filename : str) (c : codepoint) :
  In c (cleaned filename) ->
  dangerous_char c = false /\ control_char c = false.
Proof.
  unfold cleaned. intro H. apply filter_In in H. destruct H as [H Hc].
  apply negb_true_iff in Hc. split; [|exact Hc].
  apply in_map_iff in H. destruct H as (c0 & <- & _).
  destruct (dangerous_char c0) eqn:E; [reflexivity|exact E].
Qed.

Lemma reserved_iff (p : str) :
  reserved p = true <-> p = [] \/ p = lit "." \/ p = lit "..".
Proof.
  unfold reserved. cbn [existsb]. split.
  - intro H.
    destruct p as [|c p]; [now left|]. cbn [orb] in H.
    repeat (apply orb_true_iff in H; destruct H as [H|H]);
      try discriminate; apply str_eqb_eq in H; auto; discriminate.
  - intros [-> | [-> | ->]]; reflexivity.
Qed.

Lemma truncated_short (p : str) : len p <= 255 -> truncated p = p.
Proof.
  intro H. unfold truncated.
  destruct (255 <? len p) eqn:E; [apply Z.ltb_lt in E; lia|reflexivity].
Qed.

(** A name longer than 255 characters whose extension has at most 255
    is cut to exactly 255, the extension kept whole. *)
Lemma truncated_long (p : str) :
  255 < len p -> len (snd (splitext p)) <= 255 ->
  len (truncated p) = 255
  /\ exists stem, truncated p = stem ++ snd (splitext p).
Proof.
  intros Hlong Hext. unfold truncated.
  destruct (255 <? len p) eqn:E; [|apply Z.ltb_ge in E; lia].
  pose proof (splitext_app p) as Happ.
  destruct (splitext p) as [name ext]. cbn [fst snd] in *.
  split; [|now eexists].
  rewrite len_app. rewrite len_slice_prefix_exact; [lia|].
  apply (f_equal len) in Happ. rewrite len_app in Happ.
  pose proof (len_nonneg name). lia.
Qed.

Lemma path_components_plain (s : str) :
  forall current, ~ In 47%N s -> ~ In 92%N s ->
                  path_components s current = [rev current ++ s].
Proof.
  induction s as [|c s IH]; intros current H1 H2; cbn.
  - now rewrite app_nil_r.
  - destruct (N.eqb_spec c 47) as [->|N1]; [exfalso; apply H1; now left|].
    destruct (N.eqb_spec c 92) as [->|N2]; [exfalso; apply H2; now left|].
    cbn [orb]. rewrite IH.
    + cbn [rev]. now rewrite <- app_assoc.
    + intro H. apply H1. now right.
    + intro H. apply H2. now right.
Qed.

(** What [sanitize_filename] does keep of C7, with lengths counted in
    characters.  For every input the result holds none of
    the nine characters of the first class (so neither separator) and
    no character of 00-1F or 7F-9F; it is a single path component and is
    never empty, [.] or [..]; it is the placeholder [unnamed_file] when
    the input is empty or the cleaned and cut name is empty, [.] or
    [..], and otherwise it is the cleaned base name (unsafe characters
    replaced by underscore, control characters removed), cut when it is
    longer than 255 characters; when the extension has at most 255
    characters the result has at most 255 characters, and a cut name
    still ends with the extension.  [../../etc/passwd] gives
    [passwd]. *)
Theorem sanitize_filename_safe (filename : str) :
  let r := sanitize_filename filename in
  let name := truncated (cleaned filename) in
  (forall c, In c r -> dangerous_char c = false /\ control_char c = false)
  /\ ~ In 47%N r /\ ~ In 92%N r
  /\ path_components r [] = [r]
  /\ ~ In (lit "..") (path_components r [])
  /\ r <> [] /\ r <> lit "." /\ r <> lit ".."
  /\ (filename = [] \/ name = [] \/ name = lit "." \/ name = lit ".." ->
      r = unnamed_file)
  /\ (filename <> [] -> name <> [] -> name <> lit "." ->
      name <> lit ".." -> r = name)
  /\ (len (cleaned filename) <= 255 -> name = cleaned filename)
  /\ (len (snd (splitext (cleaned filename))) <= 255 -> len r <= 255)
  /\ (255 < len (cleaned filename) ->
      len (snd (splitext (cleaned filename))) <= 255 ->
      exists stem, r = stem ++ snd (splitext (cleaned filename)))
  /\ sanitize_filename (lit "../../etc/passwd") = lit "passwd".
Proof.
  cbv zeta.
  assert (Hcases : (sanitize_filename filename = unnamed_file
                    /\ (filename = []
                        \/ reserved (truncated (cleaned filename)) = true))
                   \/ (sanitize_filename filename
                       = truncated (cleaned filename)
                       /\ filename <> []
                       /\ reserved (truncated (cleaned filename)) = false)).
  { unfold sanitize_filename. destruct filename as [|c f]; [left; auto|].
    destruct (reserved (truncated (cleaned (c :: f)))) eqn:E.
    - left. auto.
    - right. repeat split; [discriminate]. }
  assert (Hchars : forall c, In c (sanitize_filename filename) ->
              dangerous_char c = false /\ control_char c = false).
  { intros c Hc. destruct Hcases as [[E _]|[E _]]; rewrite E in Hc.
    - cbn in Hc.
      repeat (destruct Hc as [<- | Hc]; [split; reflexivity|]).
      destruct Hc.
    - apply In_truncated in Hc. now apply In_cleaned in Hc. }
  assert (H47 : ~ In 47%N (sanitize_filename filename)).
  { intro H. apply Hchars in H. destruct H as [H _]. discriminate. }
  assert (H92 : ~ In 92%N (sanitize_filename filename)).
  { intro H. apply Hchars in H. destruct H as [H _]. discriminate. }
  assert (Hres : forall p, reserved p = false ->
                           p <> [] /\ p <> lit "." /\ p <> lit "..").
  { intros p Hp. repeat split; intro E;
      (assert (X : reserved p = true) by (apply reserved_iff; auto));
      congruence. }
  split; [exact Hchars|].
  split; [exact H47|]. split; [exact H92|].
  split; [now rewrite path_components_plain|].
  assert (Hne : sanitize_filename filename <> []
                /\ sanitize_filename filename <> lit "."
                /\ sanitize_filename filename <> lit "..").
  { destruct Hcases as [[-> _]|[-> (_ & Hr)]];
      [repeat split; discriminate|now apply Hres]. }
  destruct Hne as (Hn1 & Hn2 & Hn3).
  split.
  { rewrite path_components_plain by assumption. cbn.
    intros [E|[]]. now apply Hn3. }
  split; [exact Hn1|]. split; [exact Hn2|]. split; [exact Hn3|].
  split.
  { intros H. destruct Hcases as [[-> _]|[_ (Hf & Hr)]]; [reflexivity|].
    destruct H as [H|H]; [contradiction|].
    apply reserved_iff in H. congruence. }
  split.
  { intros Hf H1 H2 H3. destruct Hcases as [[_ [H|H]]|[-> _]];
      [contradiction| |reflexivity].
    apply reserved_iff in H. destruct H as [H|[H|H]]; contradiction. }
  split; [apply truncated_short|].
  split.
  { intro Hext. destruct Hcases as [[-> _]|[-> _]]; [cbn; lia|].
    destruct (Z_le_dec (len (cleaned filename)) 255) as [Hs|Hl].
    - now rewrite truncated_short.
    - destruct (truncated_long (cleaned filename)) as [-> _]; lia. }
  split; [|reflexivity].
  intros Hlong Hext.
  destruct (truncated_long (cleaned filename) Hlong Hext) as [Hlen Hstem].
  destruct Hcases as [[_ [->|H]]|[-> _]]; [cbn in Hlong; lia| |exact Hstem].
  apply reserved_iff in H.
  destruct H as [H|[H|H]]; rewrite H in Hlen; cbn in Hlen; lia.
Qed.

Lemma sanitize_filename_safe_witness :
  sanitize_filename (repeat 97%N 300 ++ lit ".png")
  = repeat 97%N 251 ++ lit ".png"
  /\ len (sanitize_filename (repeat 97%N 300 ++ lit ".png")) <= 255.
Proof.
  split; [vm_compute; reflexivity|].
  apply (proj1 (proj2 (proj2 (proj2 (proj2 (proj2 (proj2 (proj2 (proj2
           (proj2 (proj2 (proj2 (sanitize_filename_safe
                            (repeat 97%N 300 ++ lit ".png")))))))))))))).
  vm_compute. discriminate.
Defined.

(** Outside the statement above: with an extension longer than 255
    characters the bound [255 - len(ext)] of the slice is negative, and
    the result is longer than 255 characters. *)
Lemma sanitize_filename_long_extension :
  len (sanitize_filename (repeat 97%N 300 ++ [46%N] ++ repeat 98%N 300))
  = 555.
Proof. vm_compute. reflexivity. Qed.

(** C7.  The code does not do what the claim and its own comment
    ([Ensure it's not empty or just dots]) say: the test for the
    placeholder lists [.] and [..] and the empty name, so a name of
    three dots is returned as it is, and a name of 300 dots comes back
    as 255 dots; only the names of one and of two dots are replaced. *)
Theorem sanitize_filename_keeps_dots :
  sanitize_filename (lit "...") = lit "..."
  /\ sanitize_filename (lit "...") <> unnamed_file
  /\ sanitize_filename (repeat 46%N 300) = repeat 46%N 255
  /\ sanitize_filename (lit ".") = unnamed_file
  /\ sanitize_filename (lit "..") = unnamed_file
  /\ sanitize_filename [] = unnamed_file.
Proof.
  split; [reflexivity|].
  split; [vm_compute; discriminate|].
  split; [vm_compute; reflexivity|].
  repeat split.
Qed.

End FilenameClaims.

(* ------------------------------------------------------------------ *)
(** ** Traces and results of composed computations                    *)
(* ------------------------------------------------------------------ *)

Module MonadFacts.
Import Py Observations.
Local Open Scope py_scope.

Lemma result_bind {A B} (m : M A) (k : A -> M B) :
  result (bind m k)
  = match result m with
    | Return a => result (k a)
    | Raise e => Raise e
    end.
Proof.
  destruct m as [t [a|e]]; cbn; [|reflexivity].
  destruct (k a); reflexivity.
Qed.

Lemma trace_bind {A B} (m : M A) (k : A -> M B) :
  trace (bind m k)
  = trace m ++ match result m with
               | Return a => trace (k a)
               | Raise _ => []
               end.
Proof.
  destruct m as [t [a|e]]; cbn; [|now rewrite app_nil_r].
  destruct (k a); reflexivity.
Qed.

Lemma result_try {A} (m : M A) (sel : exn -> bool) (h : exn -> M A) :
  result (try_except m sel h)
  = match result m with
    | Return a => Return a
    | Raise e => if sel e then result (h e) else Raise e
    end.
Proof.
  destruct m as [t [a|e]]; cbn; [reflexivity|].
  destruct (sel e); [|reflexivity]. destruct (h e); reflexivity.
Qed.

Lemma trace_try {A} (m : M A) (sel : exn -> bool) (h : exn -> M A) :
  trace (try_except m sel h)
  = trace m ++ match result m with
               | Return _ => []
               | Raise e => if sel e then trace (h e) else []
               end.
Proof.
  destruct m as [t [a|e]]; cbn; [now rewrite app_nil_r|].
  destruct (sel e); cbn; [|now rewrite app_nil_r].
  destruct (h e); reflexivity.
Qed.

(** *** Computations that only log *)

Lemma quiet_ret {A} (a : A) : quiet (ret a).
Proof. constructor. Qed.

Lemma quiet_raise {A} (e : exn) : quiet (@raise A e).
Proof. constructor. Qed.

Lemma quiet_log (l : level) (msg : string) : quiet (emit (Log l msg)).
Proof. repeat constructor. Qed.

Lemma quiet_metric (a b c : string) : quiet (emit (Metric a b c)).
Proof. repeat constructor. Qed.

Lemma quiet_bind {A B} (m : M A) (k : A -> M B) :
  quiet m -> (forall a, quiet (k a)) -> quiet (bind m k).
Proof.
  unfold quiet. intros Hm Hk. rewrite trace_bind.
  apply Forall_app. split; [exact Hm|].
  destruct (result m); [apply Hk|constructor].
Qed.

Lemma quiet_try {A} (m : M A) (sel : exn -> bool) (h : exn -> M A) :
  quiet m -> (forall e, quiet (h e)) -> quiet (try_except m sel h).
Proof.
  unfold quiet. intros Hm Hh. rewrite trace_try.
  apply Forall_app. split; [exact Hm|].
  destruct (result m) as [a|e]; [constructor|].
  destruct (sel e); [apply Hh|constructor].
Qed.

(** *** Computations that raise only validation errors *)

Lemma ove_ret {A} (a : A) : only_validation_errors (ret a).
Proof. intros e H. discriminate. Qed.

Lemma ove_emit (ev : event) : only_validation_errors (emit ev).
Proof. intros e H. discriminate. Qed.

Lemma ove_raise {A} (d : str) (f : option str) :
  only_validation_errors (@raise A (InputValidationError d f)).
Proof. intros e H. injection H as <-. reflexivity. Qed.

Lemma ove_bind {A B} (m : M A) (k : A -> M B) :
  only_validation_errors m -> (forall a, only_validation_errors (k a)) ->
  only_validation_errors (bind m k).
Proof.
  intros Hm Hk e. rewrite result_bind.
  destruct (result m) as [a|e'] eqn:E; [apply Hk|].
  intro H. injection H as <-. now apply Hm.
Qed.

(** A handler for everything that is not a validation error turns any
    body into a computation that raises validation errors only. *)
Lemma ove_try_other {A} (m : M A) (h : exn -> M A) :
  (forall e, only_validation_errors (h e)) ->
  only_validation_errors
    (try_except m (fun e => negb (is_input_validation_error e)) h).
Proof.
  intros Hh e. rewrite result_try.
  destruct (result m) as [a|e'] eqn:E; [discriminate|].
  destruct (is_input_validation_error e') eqn:Ei; cbn [negb].
  - intro H. now injection H as <-.
  - apply Hh.
Qed.

(** A body that raises validation errors only: the handler matters
    just for the validation errors its clause selects. *)
Lemma ove_try {A} (m : M A) (sel : exn -> bool) (h : exn -> M A) :
  only_validation_errors m ->
  (forall e, is_input_validation_error e = true -> sel e = true ->
             only_validation_errors (h e)) ->
  only_validation_errors (try_except m sel h).
Proof.
  intros Hm Hh e. rewrite result_try.
  destruct (result m) as [a|e'] eqn:E; [discriminate|].
  pose proof (Hm e' E) as Hi.
  destruct (sel e') eqn:Es; [now apply Hh|].
  intro H. now injection H as <-.
Qed.

Lemma ove_reraise {A} (e : exn) :
  is_input_validation_error e = true ->
  only_validation_errors (@raise A e).
Proof. intros H e' H'. now injection H' as <-. Qed.

(** Break a computation down to its leaves. *)
Ltac quiet_steps :=
  repeat first
    [ apply quiet_ret | apply quiet_raise | apply quiet_log
    | apply quiet_metric
    | apply quiet_bind; [|intros ?]
    | apply quiet_try; [|intros ?]
    | match goal with
      | |- quiet (if ?b then _ else _) => destruct b
      | |- quiet (match ?x with _ => _ end) => destruct x
      | |- quiet (let '(_, _) := ?x in _) => destruct x
      end ].

Ltac ove_steps :=
  repeat first
    [ apply ove_ret | apply ove_raise | apply ove_emit
    | apply ove_try_other; intros ?
    | apply ove_bind; [|intros ?]
    | match goal with
      | |- only_validation_errors (if ?b then _ else _) => destruct b
      | |- only_validation_errors (match ?x with _ => _ end) => destruct x
      end ].

End MonadFacts.

(* ------------------------------------------------------------------ *)
(** ** nanobobana_client.py                                           *)
(* ------------------------------------------------------------------ *)

Module ClientClaims.
Import Py World NanoBananaClient Observations MonadFacts.
Local Open Scope Z_scope.

(** A response whose handling raises an [HTTPException] gives that
    exception as the result of the live call. *)
Lemma live_result (env : Env) (image mask prompt : str) (seed : option Z)
      (strength guidance : Security.pyfloat) (r : Response) (c : Z) (d : str) :
  mock_mode env = false ->
  post env (mkPayload image mask prompt strength guidance seed)
  = Responded r ->
  result (handle_response env r) = Raise (HTTPException c d) ->
  result (inpaint_image env image mask prompt seed strength guidance)
  = Raise (HTTPException c d).
Proof.
  intros Hlive Hpost Hh. unfold inpaint_image. rewrite Hlive.
  rewrite !result_bind. cbn [emit result snd]. rewrite Hpost.
  rewrite result_try, Hh. reflexivity.
Qed.

Lemma status_not (r : Response) (a b : Z) :
  status_code r = a -> a <> b -> (status_code r =? b) = false.
Proof. intros -> H. now apply Z.eqb_neq. Qed.

(** C8, as the code has it.  In live mode the client turns the
    upstream reply into one [HTTPException]: status 400 into 422 with
    the upstream message in the detail; 401 into 502; 429 into 502 with
    the upstream [retry-after] value (or 60) in the detail; any status
    from 500 up into 502; any other status except 200 into 502; a
    timeout and a connection failure into 502, each with a message of
    its own.  A 200 reply that is no image is turned into 502 when its
    JSON body is an object without the key [image], an array without
    the item ["image"] or a string without [image] in it; when the body
    is [null], a number or a boolean the test for [image] itself fails
    and the error is a 500. *)
Theorem inpaint_image_error_mapping
    (env : Env) (image mask prompt : str) (seed : option Z)
    (strength guidance : Security.pyfloat) (Hlive : mock_mode env = false) :
  let run :=
    result (inpaint_image env image mask prompt seed strength guidance) in
  let reply :=
    post env (mkPayload image mask prompt strength guidance seed) in
  let timed_out :=
    lit "Request to NanoBanana API timed out after "
    ++ str_of_Z (request_timeout env) ++ lit " seconds" in
  let no_connection := lit "Failed to connect to NanoBanana API" in
  (forall r, reply = Responded r ->
     (status_code r = 400 ->
      run = Raise (HTTPException 422
                     (lit "Invalid request parameters: "
                      ++ _extract_error_message env r))
      /\ forall members msg,
           body_json r = Some (JObject members) ->
           lookup (lit "error") members = Some (JString msg) ->
           _extract_error_message env r = msg)
     /\ (status_code r = 401 ->
         run = Raise (HTTPException 502 (lit "Invalid NanoBanana API key")))
     /\ (status_code r = 429 ->
         run = Raise (HTTPException 502
                        (lit "NanoBanana API rate limit exceeded. Retry after "
                         ++ match retry_after r with
                            | Some v => v
                            | None => lit "60"
                            end ++ lit " seconds")))
     /\ (500 <= status_code r ->
         run = Raise (HTTPException 502 (lit "NanoBanana API server error")))
     /\ (status_code r <> 200 -> status_code r <> 400 ->
         status_code r <> 401 -> status_code r <> 429 ->
         status_code r < 500 ->
         run = Raise (HTTPException 502
                        (lit "Unexpected response from NanoBanana API: "
                         ++ _extract_error_message env r)))
     /\ (status_code r = 200 ->
         startswith (match content_type r with Some c => c | None => [] end)
                    (lit "image/") = false ->
         (forall members,
            body_json r = Some (JObject members) ->
            lookup (lit "image") members = None ->
            run = Raise (HTTPException 502
                           (lit "Invalid response format from NanoBanana API")))
         /\ (forall items,
               body_json r = Some (JArray items) ->
               existsb is_image_string items = false ->
               run = Raise (HTTPException 502
                              (lit "Invalid response format from NanoBanana API")))
         /\ (forall s,
               body_json r = Some (JString s) ->
               contains_image s = false ->
               run = Raise (HTTPException 502
                              (lit "Invalid response format from NanoBanana API")))
         /\ (forall j,
               body_json r = Some j ->
               j = JNull \/ (exists b, j = JBool b)
               \/ (exists q, j = JNumber q) ->
               run = Raise (HTTPException 500
                              (lit "Internal server error during image processing")))))
  /\ (reply = TimeoutException -> run = Raise (HTTPException 502 timed_out))
  /\ (forall m, reply = RequestError m ->
                run = Raise (HTTPException 502 no_connection))
  /\ timed_out <> no_connection
  /\ (forall d, In d [timed_out; no_connection] ->
        d <> lit "Invalid NanoBanana API key"
        /\ d <> lit "NanoBanana API server error"
        /\ d <> lit "Invalid response format from NanoBanana API"
        /\ (forall v, d <> lit "NanoBanana API rate limit exceeded. Retry after "
                           ++ v ++ lit " seconds")
        /\ (forall v, d <> lit "Unexpected response from NanoBanana API: "
                           ++ v)).
Proof.
  cbv zeta. split; [|split; [|split; [|split]]].
  - intros r Hr.
    pose proof (live_result env image mask prompt seed strength guidance r)
      as L.
    split; [|split; [|split; [|split; [|split]]]].
    + intro H. split.
      * apply L; [assumption..|]. unfold handle_response.
        rewrite H. reflexivity.
      * intros members msg Hb Hl. unfold _extract_error_message.
        rewrite Hb, Hl. reflexivity.
    + intro H. apply L; [assumption..|]. unfold handle_response.
      rewrite H. reflexivity.
    + intro H. apply L; [assumption..|]. unfold handle_response.
      rewrite H. reflexivity.
    + intro H. apply L; [assumption..|]. unfold handle_response.
      destruct (Z.eqb_spec (status_code r) 200); [lia|].
      destruct (Z.eqb_spec (status_code r) 400); [lia|].
      destruct (Z.eqb_spec (status_code r) 401); [lia|].
      destruct (Z.eqb_spec (status_code r) 429); [lia|].
      destruct (Z.leb_spec 500 (status_code r)); [reflexivity|lia].
    + intros H1 H2 H3 H4 H5. apply L; [assumption..|].
      unfold handle_response.
      destruct (Z.eqb_spec (status_code r) 200); [lia|].
      destruct (Z.eqb_spec (status_code r) 400); [lia|].
      destruct (Z.eqb_spec (status_code r) 401); [lia|].
      destruct (Z.eqb_spec (status_code r) 429); [lia|].
      destruct (Z.leb_spec 500 (status_code r)); [lia|reflexivity].
    + intros H Hct. split; [|split; [|split]].
      * intros members Hb Hl. apply L; [assumption..|].
        unfold handle_response, decode_json_body.
        rewrite H, Hct, Hb, Hl. reflexivity.
      * intros items Hb Hl. apply L; [assumption..|].
        unfold handle_response, decode_json_body.
        rewrite H, Hct, Hb, Hl. reflexivity.
      * intros s Hb Hl. apply L; [assumption..|].
        unfold handle_response, decode_json_body.
        rewrite H, Hct, Hb, Hl. reflexivity.
      * intros j Hb Hj. unfold inpaint_image. rewrite Hlive.
        rewrite !result_bind. cbn [emit result snd]. rewrite Hr.
        rewrite result_try. unfold handle_response, decode_json_body.
        rewrite H, Hct, Hb. cbn [Z.eqb Pos.eqb].
        destruct Hj as [-> | [[b ->] | [q ->]]]; reflexivity.
  - intro Hr. unfold inpaint_image. rewrite Hlive.
    rewrite !result_bind. cbn [emit result snd]. rewrite Hr. reflexivity.
  - intros m Hr. unfold inpaint_image. rewrite Hlive.
    rewrite !result_bind. cbn [emit result snd]. rewrite Hr. reflexivity.
  - discriminate.
  - intros d [<-|[<-|[]]]; repeat split; try discriminate;
      intros v; discriminate.
Qed.

Lemma inpaint_image_error_mapping_witness :
  result (inpaint_image demo_env (lit "i") (lit "m") (lit "p") None
                        (Security.Finite (8 # 10)) (Security.Finite (75 # 10)))
  = Raise (HTTPException 502
             (lit "Request to NanoBanana API timed out after 120 seconds"))
  /\ result (inpaint_image (reply_env
                              (Responded throttled))
                           (lit "i") (lit "m") (lit "p") None
                           (Security.Finite (8 # 10)) (Security.Finite (75 # 10)))
     = Raise (HTTPException 502
                (lit "NanoBanana API rate limit exceeded. Retry after 30 seconds"))
  /\ result (inpaint_image (reply_env
                              (Responded bad_request))
                           (lit "i") (lit "m") (lit "p") None
                           (Security.Finite (8 # 10)) (Security.Finite (75 # 10)))
     = Raise (HTTPException 422
                (lit "Invalid request parameters: mask too dark")).
Proof.
  split; [|split].
  - apply (proj1 (proj2 (inpaint_image_error_mapping
             demo_env (lit "i") (lit "m") (lit "p") None
             (Security.Finite (8 # 10)) (Security.Finite (75 # 10)) eq_refl))).
    reflexivity.
  - apply (proj1 (proj2 (proj2 (proj1 (inpaint_image_error_mapping
             (reply_env (Responded throttled))
             (lit "i") (lit "m") (lit "p") None
             (Security.Finite (8 # 10)) (Security.Finite (75 # 10)) eq_refl) throttled eq_refl)))).
    reflexivity.
  - apply (proj1 (proj1 (proj1 (inpaint_image_error_mapping
             (reply_env (Responded bad_request))
             (lit "i") (lit "m") (lit "p") None
             (Security.Finite (8 # 10)) (Security.Finite (75 # 10)) eq_refl) bad_request eq_refl)
             eq_refl)).
Defined.

(** The claim as worded fails on the code: a 200 reply whose JSON body
    is [null] has no [image] field, and the client answers it with
    status 500, not 502. *)
Lemma inpaint_image_error_mapping_counterexample :
  let reply :=
    mkResponse 200 (Some (lit "application/json")) None [] (Some JNull) in
  let run :=
    result (inpaint_image (reply_env (Responded reply))
              (lit "i") (lit "m") (lit "p") None
              (Security.Finite (8 # 10)) (Security.Finite (75 # 10))) in
  mock_mode (reply_env (Responded reply)) = false
  /\ run = Raise (HTTPException 500
                    (lit "Internal server error during image processing"))
  /\ forall d, run <> Raise (HTTPException 502 d).
Proof.
  cbv zeta. split; [reflexivity|]. split; [reflexivity|].
  intros d H. vm_compute in H. discriminate.
Qed.

End ClientClaims.

(* ------------------------------------------------------------------ *)
(** ** inbound_validation.py, image_processor.py and api/inpaint.py   *)
(* ------------------------------------------------------------------ *)

Module PipelineFacts.
Import Py World Security InboundValidation Observations MonadFacts.
Local Open Scope Z_scope.

Create HintDb quiet.
Create HintDb ove.

Section WithEnv.
Variable env : Env.
Variable self : InboundValidator.

Lemma quiet_validate_image_file (d : bytes) (f ct : str) :
  quiet (validate_image_file d f ct).
Proof. unfold validate_image_file. quiet_steps. Qed.

Lemma quiet_validate_mask_file (d : bytes) (f ct : str) :
  quiet (validate_mask_file d f ct).
Proof. unfold validate_mask_file, mask_ihdr_block. quiet_steps. Qed.

Lemma quiet_validate_prompt (p : str) : quiet (validate_prompt p).
Proof. unfold validate_prompt. quiet_steps. Qed.

Lemma quiet_validate_numeric (ff : pyfloat -> str)
      (v : value) (name : str) (lo hi : pyfloat) :
  quiet (validate_numeric_parameter ff v name lo hi).
Proof. unfold validate_numeric_parameter. quiet_steps. Qed.

#[local] Hint Resolve quiet_validate_image_file quiet_validate_mask_file
  quiet_validate_prompt quiet_validate_numeric : quiet.

Lemma quiet_uploaded_image (f : UploadFile) :
  quiet (_validate_uploaded_image env self f).
Proof.
  unfold _validate_uploaded_image, _validate_image_dimensions.
  quiet_steps; auto with quiet.
Qed.

Lemma quiet_uploaded_mask (f : UploadFile) :
  quiet (_validate_uploaded_mask env self f).
Proof.
  unfold _validate_uploaded_mask, _validate_mask_content.
  quiet_steps; auto with quiet.
Qed.

#[local] Hint Resolve quiet_uploaded_image quiet_uploaded_mask : quiet.

(** The validation pipeline only logs and counts. *)
Lemma quiet_validate_inpaint_request
      (image mask : UploadFile) (prompt : str) (sd : option Z)
      (st gs : option value) :
  quiet (validate_inpaint_request env self image mask prompt sd st gs).
Proof.
  unfold validate_inpaint_request. quiet_steps; auto with quiet.
Qed.

Lemma ove_validate_prompt (p : str) :
  only_validation_errors (validate_prompt p).
Proof. unfold validate_prompt. ove_steps. Qed.

(** On a float, [float()] raises nothing. *)
Lemma ove_validate_numeric (ff : pyfloat -> str)
      (f : pyfloat) (name : str) (lo hi : pyfloat) :
  only_validation_errors (validate_numeric_parameter ff (VFloat f) name lo hi).
Proof. unfold validate_numeric_parameter. cbn [float]. ove_steps. Qed.

Lemma ove_uploaded_image (f : UploadFile) :
  only_validation_errors (_validate_uploaded_image env self f).
Proof. unfold _validate_uploaded_image. ove_steps. Qed.

Lemma ove_uploaded_mask (f : UploadFile) :
  only_validation_errors (_validate_uploaded_mask env self f).
Proof. unfold _validate_uploaded_mask. ove_steps. Qed.

#[local] Hint Resolve ove_validate_prompt ove_validate_numeric
  ove_uploaded_image ove_uploaded_mask : ove.

(** With floats for the two numbers, as the route hands them over, the
    validation pipeline raises nothing but [InputValidationError]: its
    handler for other exceptions has nothing to catch. *)
Lemma ove_validate_inpaint_request
      (image mask : UploadFile) (prompt : str) (sd : option Z)
      (st gs : option pyfloat) :
  only_validation_errors
    (validate_inpaint_request env self image mask prompt sd
       (option_map VFloat st) (option_map VFloat gs)).
Proof.
  unfold validate_inpaint_request.
  apply ove_try.
  - apply ove_try.
    + unfold _validate_parameters.
      destruct st, gs; cbn [option_map]; ove_steps; auto with ove.
    + intros e He _. ove_steps. now apply ove_reraise.
  - intros e He Hsel. rewrite He in Hsel. discriminate.
Qed.

End WithEnv.

End PipelineFacts.

Module PipelineClaims.
Import Py World Security InboundValidation Observations MonadFacts.
Import PipelineFacts.
Local Open Scope Z_scope.

Lemma work_covers_upstream (ev : event) :
  is_work ev = false -> is_upstream ev = false.
Proof. destruct ev; cbn; congruence. Qed.

Lemma quiet_no_upstream (t : list event) :
  Forall (fun ev => is_work ev = false) t ->
  Forall (fun ev => is_upstream ev = false) t.
Proof.
  intro H. eapply Forall_impl; [|exact H]. apply work_covers_upstream.
Qed.

(** The image stage, once the file decodes: a 422 error, or the base64
    text together with the decoded size. *)
Lemma process_image_cases (env : Env) (f : UploadFile) (img : Image) :
  Image_open env (content f) = inr img ->
  (exists d, ImageProcessor.validate_and_process_image env f
             = ([ProcessImage (content f)], Raise (HTTPException 422 d)))
  \/ (exists b, ImageProcessor.validate_and_process_image env f
                = ([ProcessImage (content f)],
                   Return (b, (width img, height img)))).
Proof.
  intro H. unfold ImageProcessor.validate_and_process_image,
             ImageProcessor.wrap_errors.
  rewrite H.
  destruct (negb _); [left; eexists; reflexivity|].
  destruct (_ || _); [left; eexists; reflexivity|].
  destruct (_ || _); [left; eexists; reflexivity|].
  destruct (encode_image env (content f));
    [left; eexists; reflexivity|right; eexists; reflexivity].
Qed.

(** The mask stage on a mask whose decoded size is not the expected
    one: always a 422 error, and the dimension message once format and
    mode are accepted. *)
Lemma process_mask_mismatch (env : Env) (f : UploadFile) (m : Image)
      (size : Z * Z) :
  Image_open env (content f) = inr m ->
  width m <> fst size \/ height m <> snd size ->
  exists d,
    ImageProcessor.validate_and_process_mask env f size
    = ([ProcessMask (content f)], Raise (HTTPException 422 d))
    /\ (format m = Some (lit "PNG") ->
        existsb (str_eqb (mode m)) [lit "RGBA"; lit "LA"; lit "L"] = true ->
        d = mismatch_detail m size).
Proof.
  intros H Hd. unfold ImageProcessor.validate_and_process_mask,
                 ImageProcessor.wrap_errors.
  rewrite H.
  assert (Hne : (width m =? fst size) && (height m =? snd size) = false).
  { apply andb_false_iff.
    destruct Hd as [Hd|Hd]; [left|right]; now apply Z.eqb_neq. }
  rewrite Hne. cbn [negb].
  destruct (format m) as [fm|] eqn:Ef.
  - destruct (str_eqb fm (lit "PNG")) eqn:E1; cbn [negb].
    + destruct (existsb (str_eqb (mode m)) [lit "RGBA"; lit "LA"; lit "L"])
        eqn:E2; cbn [negb].
      * eexists; split; [reflexivity|]. intros _ _. reflexivity.
      * eexists; split; [reflexivity|]. intros _ X. discriminate.
    + eexists; split; [reflexivity|]. intros X _.
      injection X as ->. discriminate.
  - eexists; split; [reflexivity|]. intros X. discriminate.
Qed.

(** C10.  When the validation pipeline raises, what it raises is an
    [InputValidationError]; the handler then ends with
    [HTTPException(422)] carrying the same detail, and all it has done is
    the opening log record, the pipeline's own records and the warning
    of the [except] clause: no image or mask processing and no call to
    the upstream API (or its mock). *)
Theorem inpaint_atomic_on_validation_failure
    (env : Env) (v : InboundValidator) (image mask : UploadFile)
    (prompt : str) (sd : option Z) (st gs : option pyfloat) (e : exn)
    (H : result (validate_inpaint_request env v image mask prompt sd (option_map VFloat st) (option_map VFloat gs))
         = Raise e) :
  let run := Api.inpaint_image env v image mask prompt sd st gs in
  is_input_validation_error e = true
  /\ result run = Raise (HTTPException 422 (detail_of e))
  /\ trace run
     = Log INFO "Starting inpaint request"
       :: trace (validate_inpaint_request env v image mask prompt sd (option_map VFloat st) (option_map VFloat gs))
       ++ [Log WARNING "Input validation failed"]
  /\ Forall (fun ev => is_work ev = false) (trace run).
Proof.
  cbv zeta.
  pose proof (ove_validate_inpaint_request env v image mask prompt sd st gs
                e H) as He.
  pose proof (quiet_validate_inpaint_request env v image mask prompt
                sd (option_map VFloat st) (option_map VFloat gs)) as Hq.
  unfold quiet in Hq.
  unfold Api.inpaint_image, Api.inpaint_steps.
  destruct (validate_inpaint_request env v image mask prompt sd (option_map VFloat st) (option_map VFloat gs))
    as [tv rv]. cbn [result trace fst snd] in *. subst rv.
  destruct e as [d f|c d|m]; try discriminate.
  cbn. repeat split.
  constructor; [reflexivity|].
  apply Forall_app. split; [exact Hq|]. repeat constructor.
Qed.

Lemma inpaint_atomic_on_validation_failure_witness :
  let run := Api.inpaint_image demo_env default_validator
               (upload "image.png" image_512) (upload "mask.png" mask_100)
               (lit "a beautiful landscape") None None None in
  result run
  = Raise (HTTPException 422
             (lit "Mask too small: 100x100 (minimum 256x256)"))
  /\ trace run
     = [Log INFO "Starting inpaint request";
        Log WARNING "Input validation failed";
        Metric "mask_operation" "validation" "error";
        Log WARNING "Input validation failed"].
Proof.
  cbv zeta.
  pose proof (inpaint_atomic_on_validation_failure
                demo_env default_validator
                (upload "image.png" image_512) (upload "mask.png" mask_100)
                (lit "a beautiful landscape") None None None
                (InputValidationError
                   (lit "Mask too small: 100x100 (minimum 256x256)")
                   (field "mask"))
                eq_refl) as (_ & Hr & Ht & _).
  split; [exact Hr|exact Ht].
Defined.

(** C6, as the code has it.  When image and mask decode to different
    pixel sizes the request ends in a 422 error and the upstream API is
    never called.  The validation pipeline does not compare the two
    sizes: if it accepts the request and the image stage returns, the
    error is the one [validate_and_process_mask] raises, a plain
    [HTTPException(422)] without a field, whose detail names both sizes
    once the mask is a PNG in mode RGBA, LA or L. *)
Theorem mask_dimension_mismatch_rejected
    (env : Env) (v : InboundValidator) (image mask : UploadFile)
    (prompt : str) (sd : option Z) (st gs : option pyfloat) (img m : Image)
    (Hi : Image_open env (content image) = inr img)
    (Hm : Image_open env (content mask) = inr m)
    (Hd : width m <> width img \/ height m <> height img) :
  let run := Api.inpaint_image env v image mask prompt sd st gs in
  (exists d, result run = Raise (HTTPException 422 d))
  /\ Forall (fun ev => is_upstream ev = false) (trace run)
  /\ (exists d,
        ImageProcessor.validate_and_process_mask
          env mask (width img, height img)
        = ([ProcessMask (content mask)], Raise (HTTPException 422 d))
        /\ (format m = Some (lit "PNG") ->
            existsb (str_eqb (mode m)) [lit "RGBA"; lit "LA"; lit "L"]
            = true ->
            d = mismatch_detail m (width img, height img))
        /\ (forall vr b,
              result (validate_inpaint_request
                        env v image mask prompt sd (option_map VFloat st) (option_map VFloat gs)) = Return vr ->
              result (ImageProcessor.validate_and_process_image env image)
              = Return b ->
              result run = Raise (HTTPException 422 d))).
Proof.
  cbv zeta.
  pose proof (ove_validate_inpaint_request env v image mask prompt sd st gs)
    as Hove.
  pose proof (quiet_validate_inpaint_request env v image mask prompt
                sd (option_map VFloat st) (option_map VFloat gs)) as Hq.
  unfold quiet, only_validation_errors in *.
  destruct (process_mask_mismatch env mask m (width img, height img) Hm Hd)
    as (dm & Hmask & Hdetail).
  unfold Api.inpaint_image, Api.inpaint_steps.
  destruct (validate_inpaint_request env v image mask prompt sd (option_map VFloat st) (option_map VFloat gs))
    as [tv rv]. cbn [result trace fst snd] in *.
  assert (Hstart : forall t,
             Forall (fun ev => is_upstream ev = false) t ->
             Forall (fun ev => is_upstream ev = false)
                    (Log INFO "Starting inpaint request" :: tv ++ t)).
  { intros t Ht. constructor; [reflexivity|].
    apply Forall_app. split; [now apply quiet_no_upstream|exact Ht]. }
  destruct rv as [vr|e].
  - destruct (process_image_cases env image img Hi) as [[d Hp]|[b Hp]];
      rewrite Hp.
    + cbn. split; [now eexists|]. split; [apply Hstart; repeat constructor|].
      exists dm. split; [exact Hmask|]. split; [exact Hdetail|].
      intros vr' b' _ X. discriminate.
    + cbn [bind emit app]. rewrite Hmask. cbn.
      split; [now eexists|]. split; [apply Hstart; repeat constructor|].
      exists dm. split; [reflexivity|]. split; [exact Hdetail|].
      reflexivity.
  - specialize (Hove e eq_refl).
    destruct e as [d f|c d|msg]; try discriminate.
    cbn. split; [now eexists|]. split; [apply Hstart; repeat constructor|].
    exists dm. split; [exact Hmask|]. split; [exact Hdetail|].
    intros vr b X. discriminate.
Qed.

Lemma mask_dimension_mismatch_rejected_witness :
  exists d,
    result (Api.inpaint_image demo_env default_validator
              (upload "image.png" image_512) (upload "mask.png" mask_256)
              (lit "a beautiful landscape") None None None)
    = Raise (HTTPException 422 d).
Proof.
  refine (proj1 (mask_dimension_mismatch_rejected
                   demo_env default_validator
                   (upload "image.png" image_512)
                   (upload "mask.png" mask_256)
                   (lit "a beautiful landscape") None None None
                   (mkImage (Some (lit "PNG")) (lit "RGB") 512 512)
                   (mkImage (Some (lit "PNG")) (lit "RGBA") 256 256)
                   eq_refl eq_refl _)).
  left. cbn. lia.
Defined.

(** The claim as worded fails on the code: a 512x512 image with a
    256x256 mask passes the validation pipeline, which raises no error
    for the field [mask]; the request is rejected afterwards by the mask
    stage of the image normaliser with an [HTTPException] that has no
    field. *)
Lemma mask_dimension_counterexample :
  let image := upload "image.png" image_512 in
  let mask := upload "mask.png" mask_256 in
  let prompt := lit "a beautiful landscape" in
  Image_open demo_env (content image)
  = inr (mkImage (Some (lit "PNG")) (lit "RGB") 512 512)
  /\ Image_open demo_env (content mask)
     = inr (mkImage (Some (lit "PNG")) (lit "RGBA") 256 256)
  /\ result (validate_inpaint_request demo_env default_validator
               image mask prompt None None None)
     = Return (mkValidated prompt (mkParams None (Finite (8 # 10)) (Finite (75 # 10))))
  /\ result (_validate_uploaded_mask demo_env default_validator mask)
     = Return tt
  /\ result (Api.inpaint_image demo_env default_validator
               image mask prompt None None None)
     = Raise (HTTPException 422
                (lit "Mask dimensions 256x256 must match image dimensions 512x512"))
  /\ ImageProcessor.validate_and_process_mask demo_env mask (512, 512)
     = ([ProcessMask (content mask)],
        Raise (HTTPException 422
                 (lit "Mask dimensions 256x256 must match image dimensions 512x512"))).
Proof.
  cbv zeta. repeat split.
Qed.

End PipelineClaims.

(* ------------------------------------------------------------------ *)
(** ** middleware.py: what the token bucket grants over time          *)
(* ------------------------------------------------------------------ *)

Module LimiterBudget.
Import Py Middleware RateLimit MiddlewareFacts.
Local Open Scope Q_scope.

(** The refill never adds more than rate times elapsed time. *)
Lemma refilled_le_linear (now : Q) (st : TokenBucketRateLimit) :
  refilled now st <= tokens st + (now - last_refill st) * refill_rate st.
Proof. unfold refilled. apply py_min_le_r. Qed.

Lemma consume_tokens_range (now : Q) (n : Z) (st : TokenBucketRateLimit) :
  0 <= tokens st -> 0 <= inject_Z (capacity st) -> (0 <= n)%Z ->
  0 <= (now - last_refill st) * refill_rate st ->
  0 <= tokens (snd (consume now n st))
  /\ tokens (snd (consume now n st)) <= inject_Z (capacity st).
Proof.
  intros Ht Hc Hn Hadd.
  assert (Hn' : 0 <= inject_Z n).
  { change 0 with (inject_Z 0). rewrite <- Zle_Qle. exact Hn. }
  assert (Hr0 : 0 <= refilled now st).
  { unfold refilled. apply py_min_glb; lra. }
  assert (Hr1 : refilled now st <= inject_Z (capacity st)).
  { unfold refilled. apply py_min_le_l. }
  destruct (consume_result now n st) as [(Hge & _ & ->)|(_ & _ & ->)];
    split; lra.
Qed.

(** The budget behind the rate bound: what was granted plus what is left
    never exceeds what was there plus what the elapsed time refilled. *)
Lemma run_budget (calls : list (Q * Z)) :
  forall st : TokenBucketRateLimit,
    0 <= refill_rate st -> 0 <= tokens st ->
    0 <= inject_Z (capacity st) ->
    ascending (last_refill st) calls ->
    Forall (fun c => (0 <= snd c)%Z) calls ->
    0 <= tokens (snd (run calls st))
    /\ inject_Z (granted calls (fst (run calls st)))
       + tokens (snd (run calls st))
       <= tokens st
          + refill_rate st * (last_time (last_refill st) calls - last_refill st).
Proof.
  induction calls as [|[now n] rest IH]; intros st Hrate Htok Hcap Hasc Hpos.
  - cbn [run granted fst snd]. unfold last_time. cbn [fold_left].
    change (inject_Z 0) with 0. split; [exact Htok|]. lra.
  - cbn [run ascending] in *. destruct Hasc as [Hnow Hasc].
    inversion Hpos as [|c l Hn Hrest]; subst. cbn [snd] in Hn.
    assert (Hadd : 0 <= (now - last_refill st) * refill_rate st)
      by (apply Qmult_le_0_compat; lra).
    destruct (consume_fields now n st) as (Hc & Hr & Hl).
    destruct (consume_tokens_range now n st Htok Hcap Hn Hadd) as [Ht0 _].
    pose proof (refilled_le_linear now st) as Hlin.
    pose proof (consume_result now n st) as Hres.
    destruct (consume now n st) as [b st1]. cbn [fst snd] in *.
    specialize (IH st1). rewrite Hl, Hr, Hc in IH.
    specialize (IH Hrate Ht0 Hcap Hasc Hrest).
    destruct (run rest st1) as [bs st2]. cbn [fst snd] in *.
    destruct IH as [IH0 IH1]. split; [exact IH0|].
    change (last_time (last_refill st) ((now, n) :: rest))
      with (last_time now rest).
    destruct Hres as [(_ & -> & Ht)|(_ & -> & Ht)]; cbn [granted].
    + rewrite inject_Z_plus. rewrite Ht in IH1. lra.
    + rewrite Ht in IH1. lra.
Qed.

(** X1.  Over any series of [consume] calls with a clock that does not
    run backwards and non-negative requests, the total amount granted is
    at most the tokens present at the start plus the refill rate times
    the time elapsed up to the last call. *)
Theorem token_bucket_rate_bound
    (calls : list (Q * Z)) (st : TokenBucketRateLimit)
    (Hrate : 0 <= refill_rate st) (Htok : 0 <= tokens st)
    (Hcap : 0 <= inject_Z (capacity st))
    (Hclock : ascending (last_refill st) calls)
    (Hreq : Forall (fun c => (0 <= snd c)%Z) calls) :
  inject_Z (granted calls (fst (run calls st)))
  <= tokens st
     + refill_rate st * (last_time (last_refill st) calls - last_refill st).
Proof.
  destruct (run_budget calls st Hrate Htok Hcap Hclock Hreq) as [H0 H1].
  lra.
Qed.

Lemma token_bucket_rate_bound_witness :
  inject_Z (granted [(0, 1%Z); (0, 1%Z); (0, 1%Z); (1, 1%Z)]
              (fst (run [(0, 1%Z); (0, 1%Z); (0, 1%Z); (1, 1%Z)]
                        (init 2 1 0))))
  <= 2 + 1 * (1 - 0).
Proof.
  refine (token_bucket_rate_bound
            [(0, 1%Z); (0, 1%Z); (0, 1%Z); (1, 1%Z)] (init 2 1 0) _ _ _ _ _).
  - unfold Qle; cbn; lia.
  - unfold Qle; cbn; lia.
  - unfold Qle; cbn; lia.
  - cbn. repeat split; unfold Qle; cbn; lia.
  - repeat constructor; cbn; lia.
Defined.

(** X2.  A request for [n] tokens is granted as soon as the tokens
    present plus rate times elapsed time reach [n], provided [n] is within
    the capacity; a request for more than the capacity is never granted,
    however long the wait. *)
Theorem consume_grants_when_refilled
    (now : Q) (n : Z) (st : TokenBucketRateLimit) :
  ((n <= capacity st)%Z ->
   inject_Z n <= tokens st + (now - last_refill st) * refill_rate st ->
   fst (consume now n st) = true)
  /\ ((capacity st < n)%Z -> fst (consume now n st) = false).
Proof.
  split.
  - intros Hcap Hen.
    destruct (consume_result now n st) as [(_ & H & _)|(Hlt & _ & _)];
      [exact H|exfalso].
    assert (inject_Z n <= refilled now st).
    { unfold refilled. apply py_min_glb; [|exact Hen].
      rewrite <- Zle_Qle. exact Hcap. }
    lra.
  - intro Hbig.
    destruct (consume_result now n st) as [(Hge & _ & _)|(_ & H & _)];
      [exfalso|exact H].
    pose proof (py_min_le_l (inject_Z (capacity st))
                  (tokens st + (now - last_refill st) * refill_rate st)) as Hm.
    fold (refilled now st) in Hm.
    assert (inject_Z n <= inject_Z (capacity st)) by lra.
    rewrite <- Zle_Qle in H. lia.
Qed.

Lemma consume_grants_when_refilled_witness :
  fst (consume 10 3 (mkTokenBucket 5 (1 # 2) 0 4)) = true
  /\ fst (consume 1000 6 (mkTokenBucket 5 (1 # 2) 5 4)) = false.
Proof.
  split.
  - apply (proj1 (consume_grants_when_refilled
                    10 3 (mkTokenBucket 5 (1 # 2) 0 4))).
    + cbn. lia.
    + unfold Qle. cbn. lia.
  - apply (proj2 (consume_grants_when_refilled
                    1000 6 (mkTokenBucket 5 (1 # 2) 5 4))).
    cbn. lia.
Defined.

End LimiterBudget.

(* ------------------------------------------------------------------ *)
(** ** middleware.py: the client key and the limiter map              *)
(* ------------------------------------------------------------------ *)

Module DictFacts.
Import Py RateLimit PyFacts.

Lemma str_eqb_refl (k : str) : str_eqb k k = true.
Proof. now apply str_eqb_eq. Qed.

Lemma str_eqb_neq (a b : str) : a <> b -> str_eqb a b = false.
Proof.
  intro H. destruct (str_eqb a b) eqn:E; [|reflexivity].
  apply str_eqb_eq in E. contradiction.
Qed.

Lemma dict_get_None {V} (k : str) (d : dict V) :
  dict_get k d = None <-> ~ In k (keys d).
Proof.
  unfold keys. induction d as [|[k' v] d IH]; cbn; [tauto|].
  destruct (str_eqb k' k) eqn:E.
  - apply str_eqb_eq in E. subst. split; [discriminate|tauto].
  - rewrite IH. split.
    + intros H [H'|H']; [subst; now rewrite str_eqb_refl in E|tauto].
    + tauto.
Qed.

Lemma dict_get_In {V} (k : str) (v : V) (d : dict V) :
  dict_get k d = Some v -> In (k, v) d.
Proof.
  induction d as [|[k' v'] d IH]; cbn; [discriminate|].
  destruct (str_eqb k' k) eqn:E.
  - apply str_eqb_eq in E. intro H. injection H as <-. subst. now left.
  - auto.
Qed.

Lemma dict_get_set_same {V} (k : str) (v : V) (d : dict V) :
  dict_get k (dict_set k v d) = Some v.
Proof.
  induction d as [|[k' v'] d IH]; cbn.
  - now rewrite str_eqb_refl.
  - destruct (str_eqb k' k) eqn:E; cbn; now rewrite E.
Qed.

Lemma dict_get_set_other {V} (k k' : str) (v : V) (d : dict V) :
  k <> k' -> dict_get k' (dict_set k v d) = dict_get k' d.
Proof.
  intro Hne. induction d as [|[k0 v0] d IH]; cbn.
  - now rewrite str_eqb_neq.
  - destruct (str_eqb k0 k) eqn:E; cbn.
    + apply str_eqb_eq in E. subst.
      now rewrite !str_eqb_neq by assumption.
    + now rewrite IH.
Qed.

Lemma keys_dict_set_present {V} (k : str) (v : V) (d : dict V) :
  In k (keys d) -> keys (dict_set k v d) = keys d.
Proof.
  unfold keys. induction d as [|[k' v'] d IH]; cbn; [tauto|].
  destruct (str_eqb k' k) eqn:E; cbn; [reflexivity|].
  intros [H|H]; [subst; now rewrite str_eqb_refl in E|].
  now rewrite IH.
Qed.

Lemma keys_dict_set_absent {V} (k : str) (v : V) (d : dict V) :
  ~ In k (keys d) -> keys (dict_set k v d) = keys d ++ [k].
Proof.
  unfold keys. induction d as [|[k' v'] d IH]; cbn; [reflexivity|].
  intro H. destruct (str_eqb k' k) eqn:E.
  - apply str_eqb_eq in E. tauto.
  - cbn. rewrite IH; tauto.
Qed.

Lemma NoDup_dict_set {V} (k : str) (v : V) (d : dict V) :
  NoDup (keys d) -> NoDup (keys (dict_set k v d)).
Proof.
  intro H. destruct (in_dec (list_eq_dec N.eq_dec) k (keys d)) as [Hin|Hout].
  - now rewrite keys_dict_set_present.
  - rewrite keys_dict_set_absent by assumption.
    apply NoDup_app; [exact H|repeat constructor; intros []|].
    intros x Hx [<-|[]]. contradiction.
Qed.

(** Deleting the keys of the entries that satisfy [old], one by one, is
    keeping the entries that do not. *)
Lemma delete_selected {V} (old : str * V -> bool) (d : dict V) :
  NoDup (keys d) ->
  fold_left (fun acc ip => dict_del ip acc) (keys (filter old d)) d
  = filter (fun e => negb (old e)) d.
Proof.
  assert (Hskip : forall (ks : list str) (k : str) (v : V) (rest : dict V),
             ~ In k ks ->
             fold_left (fun acc ip => dict_del ip acc) ks ((k, v) :: rest)
             = (k, v) :: fold_left (fun acc ip => dict_del ip acc) ks rest).
  { induction ks as [|k0 ks IHks]; intros k v rest Hk; cbn; [reflexivity|].
    rewrite str_eqb_neq by (intro E; apply Hk; now left).
    apply IHks. intro H. apply Hk. now right. }
  unfold keys.
  induction d as [|[k v] d IH]; intro Hnd; cbn; [reflexivity|].
  inversion Hnd as [|x l Hk Hd]; subst.
  destruct (old (k, v)) eqn:E; cbn.
  - rewrite str_eqb_refl. now apply IH.
  - rewrite Hskip; [now rewrite IH|].
    intro H. apply Hk.
    apply in_map_iff in H. destruct H as ([k' v'] & <- & Hin).
    apply filter_In in Hin. apply in_map_iff. exists (k', v'). tauto.
Qed.

Lemma dict_get_filter {V} (keep : V -> bool) (k : str) (d : dict V) :
  NoDup (keys d) ->
  dict_get k (filter (fun e => keep (snd e)) d)
  = match dict_get k d with
    | Some v => if keep v then Some v else None
    | None => None
    end.
Proof.
  induction d as [|[k' v'] d IH]; intro Hnd; cbn; [reflexivity|].
  inversion Hnd as [|x l Hk Hd]; subst.
  destruct (str_eqb k' k) eqn:E.
  - apply str_eqb_eq in E. subst.
    destruct (keep v') eqn:Ek; cbn.
    + now rewrite str_eqb_refl.
    + rewrite IH by assumption.
      apply dict_get_None in Hk. now rewrite Hk.
  - destruct (keep v'); cbn; [rewrite E|]; now apply IH.
Qed.

Lemma keys_filter_NoDup {V} (f : str * V -> bool) (d : dict V) :
  NoDup (keys d) -> NoDup (keys (filter f d)).
Proof.
  unfold keys.
  induction d as [|[k v] d IH]; intro Hnd; cbn; [constructor|].
  inversion Hnd as [|x l Hk Hd]; subst.
  destruct (f (k, v)); cbn; [|auto].
  constructor; [|auto].
  intro H. apply Hk.
  apply in_map_iff in H. destruct H as ([k' v'] & <- & Hin).
  apply filter_In in Hin. apply in_map_iff. exists (k', v'). tauto.
Qed.

End DictFacts.

Module ClientKeyClaims.
Import Py RateLimit PyFacts.

Lemma before_comma_no_comma (s : str) : ~ In 44%N (before_comma s).
Proof.
  induction s as [|c s IH]; cbn; [tauto|].
  destruct (N.eqb_spec c 44); cbn; [tauto|].
  intros [H|H]; [congruence|tauto].
Qed.

(** X3.  When the request carries a non-empty [X-Forwarded-For] header
    the client key is the first comma-separated item of that header with
    the white space around it removed: it has no comma and no white space
    at its ends, and it is the same for every request with that header,
    whatever the [X-Real-IP] header and the peer address are. *)
Theorem client_key_from_forwarded_header
    (request : Request) (c : codepoint) (f : str)
    (H : x_forwarded_for request = Some (c :: f)) :
  _get_client_ip request = strip (before_comma (c :: f))
  /\ ~ In 44%N (_get_client_ip request)
  /\ strip (_get_client_ip request) = _get_client_ip request
  /\ (forall p real_ip host,
        _get_client_ip (mkRequest p (Some (c :: f)) real_ip host)
        = _get_client_ip request).
Proof.
  unfold _get_client_ip. rewrite H. cbn [x_forwarded_for].
  split; [reflexivity|]. split.
  - intro Hin. apply In_strip in Hin.
    exact (before_comma_no_comma (c :: f) Hin).
  - split; [apply strip_idem|reflexivity].
Qed.

Lemma client_key_from_forwarded_header_witness :
  _get_client_ip (mkRequest (lit "/api/edit")
                            (Some (lit " 10.0.0.7 , 192.168.1.1"))
                            (Some (lit "172.16.0.1")) (Some (lit "127.0.0.1")))
  = lit "10.0.0.7".
Proof.
  exact (proj1 (client_key_from_forwarded_header
                  (mkRequest (lit "/api/edit")
                             (Some (lit " 10.0.0.7 , 192.168.1.1"))
                             (Some (lit "172.16.0.1"))
                             (Some (lit "127.0.0.1")))
                  32%N (lit "10.0.0.7 , 192.168.1.1") eq_refl)).
Defined.

End ClientKeyClaims.

(* ------------------------------------------------------------------ *)
(** ** middleware.py: [_cleanup_limiters] and [dispatch]              *)
(* ------------------------------------------------------------------ *)

Module RateLimitFacts.
Import Py Middleware RateLimit Expectations.
Import MiddlewareFacts PyFacts DictFacts MonadFacts.
Local Open Scope Q_scope.

(** The limiters whose last refill is not before [cutoff]. *)
Lemma cleanup_result (now : Q) (self : RateLimitMiddleware) :
  (~ cleanup_due now self ->
   _cleanup_limiters now self = ([], Return self))
  /\ (cleanup_due now self ->
      NoDup (keys (limiters self)) ->
      result (_cleanup_limiters now self)
      = Return (mkMiddleware (enabled self) (requests_per_minute self)
                  (burst_capacity self)
                  (filter (fun e =>
                             negb (Qltb (last_refill (snd e))
                                        (now - inject_Z (cleanup_interval self * 2))))
                          (limiters self))
                  now (cleanup_interval self))).
Proof.
  unfold _cleanup_limiters, cleanup_due. split.
  - intro H.
    destruct (Qltb _ _) eqn:E; [|reflexivity].
    apply Qltb_true in E. contradiction.
  - intros H Hnd. apply Qltb_true in H. rewrite H.
    rewrite result_bind.
    assert (Hlog : forall ks : list str,
               result (match ks with
                       | [] => ret tt
                       | _ :: _ => emit (Log DEBUG "Cleaned up rate limiters")
                       end) = Return tt)
      by (intros []; reflexivity).
    rewrite Hlog. cbn [result ret snd].
    rewrite delete_selected by assumption.
    f_equal. f_equal. apply filter_ext. intros [ip lim]. reflexivity.
Qed.

Lemma dict_get_del_absent {V} (k k' : str) (d : dict V) :
  dict_get k d = None -> dict_get k (dict_del k' d) = None.
Proof.
  induction d as [|[k0 v0] d IH]; cbn; [reflexivity|].
  destruct (str_eqb k0 k) eqn:E; [discriminate|]. intro H.
  destruct (str_eqb k0 k'); [exact H|]. cbn. rewrite E. now apply IH.
Qed.

(** The sweep always returns, keeps the configuration, and never brings
    in a key that was not there. *)
Lemma cleanup_total (now : Q) (self : RateLimitMiddleware) :
  exists self1,
    result (_cleanup_limiters now self) = Return self1
    /\ enabled self1 = enabled self
    /\ requests_per_minute self1 = requests_per_minute self
    /\ burst_capacity self1 = burst_capacity self
    /\ cleanup_interval self1 = cleanup_interval self
    /\ (forall ip, dict_get ip (limiters self) = None ->
                   dict_get ip (limiters self1) = None)
    /\ ((~ cleanup_due now self /\ self1 = self)
        \/ (cleanup_due now self /\ last_cleanup self1 = now)).
Proof.
  unfold _cleanup_limiters, cleanup_due.
  destruct (Qltb _ _) eqn:E.
  - apply Qltb_true in E. eexists. rewrite result_bind.
    assert (Hlog : forall ks : list str,
               result (match ks with
                       | [] => ret tt
                       | _ :: _ => emit (Log DEBUG "Cleaned up rate limiters")
                       end) = Return tt)
      by (intros []; reflexivity).
    rewrite Hlog. cbn [result ret snd].
    split; [reflexivity|]. cbn.
    repeat (split; [reflexivity|]).
    split; [|right; split; [exact E|reflexivity]].
    intros ip.
    generalize (keys (filter
                  (fun '(_, limiter) =>
                     Qltb (last_refill limiter)
                          (now - inject_Z (cleanup_interval self * 2)))
                  (limiters self))).
    intro ks. generalize (limiters self).
    induction ks as [|k ks IH]; intros d Hd; cbn; [exact Hd|].
    apply IH. now apply dict_get_del_absent.
  - apply Qltb_false in E. exists self.
    repeat (split; [reflexivity|]).
    split; [auto|]. left. split; [|reflexivity].
    intro H. apply (Qlt_not_le _ _ H E).
Qed.

(** One request on a path that is rate limited: the limiter of the key
    (the stored one, or a new full one) is charged one token, stored back
    under the key, and decides the response. *)
Lemma dispatch_active (self self1 : RateLimitMiddleware) (clock : Clock)
      (call_next : Request -> Response) (request : Request) :
  enabled self = true ->
  existsb (str_eqb (path request)) exempt_paths = false ->
  result (_cleanup_limiters (t_cleanup clock) self) = Return self1 ->
  let ip := _get_client_ip request in
  let fresh := init (burst_capacity self1)
                    (inject_Z (requests_per_minute self1) / 60)
                    (t_create clock) in
  let l := match dict_get ip (limiters self1) with
           | Some l => l
           | None => fresh
           end in
  let created := match dict_get ip (limiters self1) with
                 | Some _ => limiters self1
                 | None => dict_set ip fresh (limiters self1)
                 end in
  let l' := snd (consume (t_consume clock) 1 l) in
  let self2 := with_limiters self1 (dict_set ip l' created) in
  result (dispatch self clock call_next request)
  = Return (if fst (consume (t_consume clock) 1 l)
            then with_rate_headers self2 clock l' (call_next request)
            else rate_limit_response self2 clock,
            self2).
Proof.
  intros Hen Hex Hclean. cbv zeta. unfold dispatch.
  rewrite Hen, Hex. cbn [negb]. rewrite result_bind, Hclean.
  destruct (dict_get (_get_client_ip request) (limiters self1)) as [l|] eqn:El.
  - rewrite El.
    destruct (consume (t_consume clock) 1 l) as [ok l']. cbn [fst snd].
    destruct ok; reflexivity.
  - rewrite dict_get_set_same.
    destruct (consume (t_consume clock) 1 _) as [ok l']. cbn [fst snd].
    destruct ok; reflexivity.
Qed.



End RateLimitFacts.

Module RateLimitClaims.
Import Py Middleware RateLimit Expectations.
Import MiddlewareFacts PyFacts DictFacts MonadFacts RateLimitFacts.
Local Open Scope Q_scope.

(** The sweep, entry by entry. *)
Lemma cleanup_evicts_only_idle_aux
    (now : Q) (self : RateLimitMiddleware)
    (Hnd : NoDup (keys (limiters self))) :
  exists self1,
    result (_cleanup_limiters now self) = Return self1
    /\ (~ cleanup_due now self -> self1 = self)
    /\ (cleanup_due now self ->
        last_cleanup self1 = now
        /\ forall ip,
             dict_get ip (limiters self1)
             = match dict_get ip (limiters self) with
               | Some l =>
                   if Qltb (last_refill l)
                           (now - inject_Z (cleanup_interval self * 2))
                   then None else Some l
               | None => None
               end).
Proof.
  destruct (cleanup_result now self) as [Hidle Hdue].
  destruct (Qlt_le_dec (inject_Z (cleanup_interval self))
                       (now - last_cleanup self)) as [D|D].
  - eexists. split; [apply Hdue; assumption|].
    split; [intro H; contradiction|]. intros _.
    split; [reflexivity|]. intro ip. cbn [limiters].
    rewrite (dict_get_filter
               (fun l => negb (Qltb (last_refill l)
                                    (now - inject_Z (cleanup_interval self * 2))))
               ip (limiters self) Hnd).
    destruct (dict_get ip (limiters self)) as [l|]; [|reflexivity].
    destruct (Qltb _ _); reflexivity.
  - assert (N : ~ cleanup_due now self)
      by (intro H; apply (Qlt_not_le _ _ H D)).
    exists self. split; [now rewrite (Hidle N)|].
    split; [reflexivity|]. intro H. contradiction.
Qed.

(** X4.  The sweep of the limiter map changes nothing while it is not
    due; when it is due it records the time and removes exactly the
    limiters whose last refill is before [now] minus twice the interval:
    every other limiter stays in the map as it was. *)
Theorem cleanup_evicts_only_idle
    (now : Q) (self : RateLimitMiddleware)
    (Hnd : NoDup (keys (limiters self))) :
  exists self1,
    result (_cleanup_limiters now self) = Return self1
    /\ (~ cleanup_due now self -> self1 = self)
    /\ (cleanup_due now self ->
        last_cleanup self1 = now
        /\ forall ip,
             dict_get ip (limiters self1)
             = match dict_get ip (limiters self) with
               | Some l =>
                   if Qltb (last_refill l)
                           (now - inject_Z (cleanup_interval self * 2))
                   then None else Some l
               | None => None
               end).
Proof. exact (cleanup_evicts_only_idle_aux now self Hnd). Qed.

Lemma cleanup_evicts_only_idle_witness :
  exists self1,
    result (_cleanup_limiters 1000
              (mkMiddleware true 60 20
                 [(lit "a", mkTokenBucket 20 1 5 100);
                  (lit "b", mkTokenBucket 20 1 7 900)] 0 300))
    = Return self1
    /\ dict_get (lit "a") (limiters self1) = None
    /\ dict_get (lit "b") (limiters self1) = Some (mkTokenBucket 20 1 7 900).
Proof.
  destruct (cleanup_evicts_only_idle 1000
              (mkMiddleware true 60 20
                 [(lit "a", mkTokenBucket 20 1 5 100);
                  (lit "b", mkTokenBucket 20 1 7 900)] 0 300))
    as (self1 & Hr & _ & Hdue).
  - repeat constructor; cbn; intuition discriminate.
  - exists self1. split; [exact Hr|].
    assert (D : cleanup_due 1000
                  (mkMiddleware true 60 20
                     [(lit "a", mkTokenBucket 20 1 5 100);
                      (lit "b", mkTokenBucket 20 1 7 900)] 0 300))
      by (unfold cleanup_due, Qlt; cbn; lia).
    destruct (Hdue D) as [_ Hget].
    split; [exact (Hget (lit "a"))|exact (Hget (lit "b"))].
Defined.




Lemma dispatch_passes_exempt
    (self : RateLimitMiddleware) (clock : Clock)
    (call_next : Request -> Response) (request : Request) :
  enabled self = false \/ In (path request) exempt_paths ->
  dispatch self clock call_next request
  = ([], Return (call_next request, self)).
Proof.
  intro H.
  unfold dispatch. destruct (enabled self); [|reflexivity]. cbn [negb].
  destruct H as [H|H]; [discriminate|].
  replace (existsb (str_eqb (path request)) exempt_paths) with true;
    [reflexivity|].
  symmetry. apply existsb_exists. exists (path request).
  split; [exact H|apply str_eqb_refl].
Qed.

(** X6.  A request on one of the paths the middleware exempts, or any
    request while rate limiting is switched off, is handed to the
    application as it is and leaves the middleware object untouched: it
    costs no token, however few the client has left. *)
Theorem dispatch_exempt_untouched
    (self : RateLimitMiddleware) (clock : Clock)
    (call_next : Request -> Response) (request : Request)
    (H : enabled self = false \/ In (path request) exempt_paths) :
  dispatch self clock call_next request
  = ([], Return (call_next request, self)).
Proof. exact (dispatch_passes_exempt self clock call_next request H). Qed.

Lemma dispatch_exempt_untouched_witness :
  dispatch (mkMiddleware true 60 20
              [(lit "10.0.0.7", mkTokenBucket 20 1 0 0)] 0 300)
           (instant 0) (fun _ => mkResponse 200 [] (lit "ok"))
           (mkRequest (lit "/api/health") None None (Some (lit "10.0.0.7")))
  = ([], Return (mkResponse 200 [] (lit "ok"),
                 mkMiddleware true 60 20
                   [(lit "10.0.0.7", mkTokenBucket 20 1 0 0)] 0 300)).
Proof.
  apply dispatch_exempt_untouched. right. cbn. tauto.
Defined.

(** X7.  A request of one identity leaves the limiter of every other
    identity as it was, or, when the sweep is due at that request and the
    other limiter was last refilled before the cut-off (twice the interval
    ago), removes it; it never charges it. *)
Theorem dispatch_isolates_clients
    (self self' : RateLimitMiddleware) (clock : Clock)
    (call_next : Request -> Response) (request : Request)
    (response : Response) (other : str)
    (Hnd : NoDup (keys (limiters self)))
    (Hother : other <> _get_client_ip request)
    (Hrun : result (dispatch self clock call_next request)
            = Return (response, self')) :
  dict_get other (limiters self') = dict_get other (limiters self)
  \/ (dict_get other (limiters self') = None
      /\ cleanup_due (t_cleanup clock) self
      /\ exists l, dict_get other (limiters self) = Some l
                   /\ last_refill l
                      < t_cleanup clock
                        - inject_Z (cleanup_interval self * 2)).
Proof.
  destruct (enabled self) eqn:Hen.
  2:{ rewrite dispatch_passes_exempt in Hrun by (now left).
      injection Hrun as _ <-. now left. }
  destruct (existsb (str_eqb (path request)) exempt_paths) eqn:Hex.
  { rewrite dispatch_passes_exempt in Hrun.
    - injection Hrun as _ <-. now left.
    - right. apply existsb_exists in Hex. destruct Hex as (x & Hin & E).
      apply str_eqb_eq in E. now subst. }
  destruct (cleanup_evicts_only_idle_aux (t_cleanup clock) self Hnd)
    as (self1 & Hclean & Hidle & Hdue).
  pose proof (dispatch_active self self1 clock call_next request
                Hen Hex Hclean) as D.
  cbv zeta in D. rewrite D in Hrun. injection Hrun as _ <-.
  cbn [with_limiters limiters].
  rewrite dict_get_set_other by (intro E; apply Hother; now symmetry).
  assert (Hcreated :
            dict_get other
              (match dict_get (_get_client_ip request) (limiters self1) with
               | Some _ => limiters self1
               | None =>
                   dict_set (_get_client_ip request)
                     (init (burst_capacity self1)
                           (inject_Z (requests_per_minute self1) / 60)
                           (t_create clock)) (limiters self1)
               end) = dict_get other (limiters self1)).
  { destruct (dict_get (_get_client_ip request) (limiters self1));
      [reflexivity|].
    apply dict_get_set_other. intro E. apply Hother. now symmetry. }
  rewrite Hcreated.
  destruct (Qlt_le_dec (inject_Z (cleanup_interval self))
                       (t_cleanup clock - last_cleanup self)) as [Due|Idle].
  - destruct (Hdue Due) as [_ Hget]. rewrite Hget.
    destruct (dict_get other (limiters self)) as [l|] eqn:El; [|now left].
    destruct (Qltb _ _) eqn:Eq; [|now left].
    right. split; [reflexivity|]. split; [exact Due|].
    exists l. split; [reflexivity|]. now apply Qltb_true.
  - left. rewrite Hidle; [reflexivity|].
    intro H. apply (Qlt_not_le _ _ H Idle).
Qed.

Lemma dispatch_isolates_clients_witness :
  let self := mkMiddleware true 60 20
                [(lit "a", mkTokenBucket 20 1 5 0);
                 (lit "b", mkTokenBucket 20 1 7 0)] 0 300 in
  let request := mkRequest (lit "/api/edit") None None (Some (lit "a")) in
  let out := match result (dispatch self (instant 10)
                             (fun _ => mkResponse 200 [] (lit "ok")) request)
             with
             | Return p => p
             | Raise _ => (mkResponse 0 [] [], self)
             end in
  dict_get (lit "b") (limiters (snd out)) = dict_get (lit "b") (limiters self)
  \/ (dict_get (lit "b") (limiters (snd out)) = None
      /\ cleanup_due (t_cleanup (instant 10)) self
      /\ exists l, dict_get (lit "b") (limiters self) = Some l
                   /\ last_refill l
                      < t_cleanup (instant 10)
                        - inject_Z (cleanup_interval self * 2)).
Proof.
  intros self request out.
  apply (dispatch_isolates_clients self (snd out) (instant 10)
           (fun _ => mkResponse 200 [] (lit "ok")) request (fst out)
           (lit "b")).
  - repeat constructor; cbn; intuition discriminate.
  - discriminate.
  - reflexivity.
Defined.

(** The sweep keeps the map well formed. *)
Lemma cleanup_well_formed (t now : Q) (self self1 : RateLimitMiddleware) :
  well_formed t self ->
  result (_cleanup_limiters now self) = Return self1 ->
  well_formed t self1
  /\ burst_capacity self1 = burst_capacity self
  /\ requests_per_minute self1 = requests_per_minute self.
Proof.
  intros [Hnd Hent] Hrun.
  destruct (cleanup_result now self) as [Hidle Hdue].
  destruct (Qlt_le_dec (inject_Z (cleanup_interval self))
                       (now - last_cleanup self)) as [D|D].
  - rewrite (Hdue D Hnd) in Hrun. injection Hrun as <-.
    split; [|split; reflexivity]. split.
    + cbn [limiters]. now apply keys_filter_NoDup.
    + cbn [limiters burst_capacity requests_per_minute]. intros ip l Hget.
      rewrite (dict_get_filter
                 (fun l => negb (Qltb (last_refill l)
                                      (now - inject_Z (cleanup_interval self * 2))))
                 ip (limiters self) Hnd) in Hget.
      destruct (dict_get ip (limiters self)) as [l0|] eqn:E; [|discriminate].
      destruct (negb _); [|discriminate]. injection Hget as <-.
      now apply Hent with ip.
  - assert (N : ~ cleanup_due now self)
      by (intro H; apply (Qlt_not_le _ _ H D)).
    rewrite (Hidle N) in Hrun. injection Hrun as <-.
    split; [split; assumption|split; reflexivity].
Qed.

(** X8.  [dispatch] keeps the limiter map well formed when the clock
    does not run backwards and the configured rate and burst are not
    negative: keys stay distinct, and every limiter has the configured
    capacity and rate and a token count between zero and the burst
    capacity. *)
Theorem dispatch_keeps_limiters_well_formed
    (self self' : RateLimitMiddleware) (clock : Clock)
    (call_next : Request -> Response) (request : Request)
    (response : Response) (t : Q)
    (Hwf : well_formed t self)
    (Hrpm : (0 <= requests_per_minute self)%Z)
    (Hburst : (0 <= burst_capacity self)%Z)
    (Ht1 : t <= t_create clock)
    (Ht2 : t_create clock <= t_consume clock)
    (Hrun : result (dispatch self clock call_next request)
            = Return (response, self')) :
  well_formed (t_consume clock) self'
  /\ burst_capacity self' = burst_capacity self
  /\ requests_per_minute self' = requests_per_minute self.
Proof.
  assert (Hmono : forall s, well_formed t s -> well_formed (t_consume clock) s).
  { intros s [Hnd Hent]. split; [exact Hnd|].
    intros ip l Hget. destruct (Hent ip l Hget) as (A & B & C & D & E).
    repeat split; try assumption. lra. }
  destruct (enabled self) eqn:Hen.
  2:{ rewrite dispatch_passes_exempt in Hrun by (now left).
      injection Hrun as _ <-. auto. }
  destruct (existsb (str_eqb (path request)) exempt_paths) eqn:Hex.
  { rewrite dispatch_passes_exempt in Hrun.
    - injection Hrun as _ <-. auto.
    - right. apply existsb_exists in Hex. destruct Hex as (x & Hin & E).
      apply str_eqb_eq in E. now subst. }
  destruct (cleanup_total (t_cleanup clock) self) as (self1 & Hclean & _).
  destruct (cleanup_well_formed t _ self self1 Hwf Hclean)
    as ([Hnd1 Hent1] & Hb1 & Hr1).
  pose proof (dispatch_active self self1 clock call_next request
                Hen Hex Hclean) as D.
  cbv zeta in D. rewrite D in Hrun. injection Hrun as _ <-.
  clear D.
  cbn [with_limiters limiters burst_capacity requests_per_minute].
  split; [|split; assumption].
  unfold well_formed.
  cbn [with_limiters limiters burst_capacity requests_per_minute].
  set (ip := _get_client_ip request) in *.
  set (fresh := init (burst_capacity self1)
                     (inject_Z (requests_per_minute self1) / 60)
                     (t_create clock)) in *.
  set (l := match dict_get ip (limiters self1) with
            | Some l => l
            | None => fresh
            end).
  set (created := match dict_get ip (limiters self1) with
                  | Some _ => limiters self1
                  | None => dict_set ip fresh (limiters self1)
                  end).
  assert (Hrate : 0 <= inject_Z (requests_per_minute self1) / 60).
  { rewrite Hr1. apply Qle_shift_div_l; [reflexivity|].
    change (0 * 60) with (inject_Z 0). rewrite <- Zle_Qle. exact Hrpm. }
  assert (Hcap : 0 <= inject_Z (burst_capacity self1)).
  { rewrite Hb1. change 0 with (inject_Z 0).
    rewrite <- Zle_Qle. exact Hburst. }
  assert (Hl : capacity l = burst_capacity self1
               /\ refill_rate l = inject_Z (requests_per_minute self1) / 60
               /\ 0 <= tokens l
               /\ tokens l <= inject_Z (burst_capacity self1)
               /\ last_refill l <= t_create clock).
  { subst l. destruct (dict_get ip (limiters self1)) as [l0|] eqn:E.
    - destruct (Hent1 ip l0 E) as (A & B & C & D & F).
      repeat split; try assumption. lra.
    - cbn. repeat split; try reflexivity; try assumption; apply Qle_refl. }
  destruct Hl as (Lc & Lr & L0 & L1 & Lt).
  assert (Hadd : 0 <= (t_consume clock - last_refill l) * refill_rate l).
  { rewrite Lr. apply Qmult_le_0_compat; [lra|exact Hrate]. }
  destruct (consume_fields (t_consume clock) 1 l) as (Cc & Cr & Cl).
  assert (Hc' : 0 <= inject_Z (capacity l)) by (now rewrite Lc).
  destruct (LimiterBudget.consume_tokens_range (t_consume clock) 1 l
              L0 Hc' ltac:(lia) Hadd) as [T0 T1].
  split.
  - apply NoDup_dict_set. subst created.
    destruct (dict_get ip (limiters self1));
      [exact Hnd1|now apply NoDup_dict_set].
  - intros ip0 l0 Hget.
    destruct (list_eq_dec N.eq_dec ip ip0) as [<-|Hne].
    + rewrite dict_get_set_same in Hget. injection Hget as <-.
      rewrite Cc, Cr, Cl, Lc, Lr. rewrite Lc in T1.
      repeat split; try assumption; try reflexivity. apply Qle_refl.
    + rewrite dict_get_set_other in Hget by assumption.
      assert (Hc : dict_get ip0 created = dict_get ip0 (limiters self1)).
      { subst created. destruct (dict_get ip (limiters self1));
          [reflexivity|now apply dict_get_set_other]. }
      rewrite Hc in Hget.
      destruct (Hent1 ip0 l0 Hget) as (A & B & C & D & F).
      repeat split; try assumption. lra.
Qed.

Lemma dispatch_keeps_limiters_well_formed_witness :
  let self := new_middleware true 60 3 0 in
  let request := mkRequest (lit "/api/edit") None None (Some (lit "a")) in
  let out := match result (dispatch self (instant 10)
                             (fun _ => mkResponse 200 [] (lit "ok")) request)
             with
             | Return p => p
             | Raise _ => (mkResponse 0 [] [], self)
             end in
  well_formed (t_consume (instant 10)) (snd out)
  /\ burst_capacity (snd out) = burst_capacity self
  /\ requests_per_minute (snd out) = requests_per_minute self.
Proof.
  intros self request out.
  apply (dispatch_keeps_limiters_well_formed self (snd out) (instant 10)
           (fun _ => mkResponse 200 [] (lit "ok")) request (fst out) 0).
  - split; [constructor|]. intros ip l H. discriminate H.
  - cbn. lia.
  - cbn. lia.
  - unfold Qle. cbn. lia.
  - apply Qle_refl.
  - reflexivity.
Defined.

End RateLimitClaims.

(* ------------------------------------------------------------------ *)
(** ** security.py: content types, image files, safe names            *)
(* ------------------------------------------------------------------ *)

Module SecurityMore.
Import Py Security PyFacts.
Local Open Scope Z_scope.

Lemma before_semicolon_plain (s : str) :
  ~ In 59%N s -> before_semicolon s = s.
Proof.
  induction s as [|c s IH]; cbn; [reflexivity|]. intro H.
  destruct (N.eqb_spec c 59) as [->|_]; [exfalso; apply H; now left|].
  rewrite IH; [reflexivity|]. intro H'. apply H. now right.
Qed.

Lemma before_semicolon_cut (s params : str) :
  ~ In 59%N s -> before_semicolon (s ++ 59%N :: params) = s.
Proof.
  induction s as [|c s IH]; cbn; [reflexivity|]. intro H.
  destruct (N.eqb_spec c 59) as [->|_]; [exfalso; apply H; now left|].
  rewrite IH; [reflexivity|]. intro H'. apply H. now right.
Qed.

(** X9.  [validate_content_type] ignores the parameters of a content
    type: whatever follows the first semicolon (a charset, a boundary)
    does not change the answer; and an empty content type is refused
    whatever the allowed list holds. *)
Theorem validate_content_type_ignores_parameters
    (base params : str) (allowed : list str)
    (Hbase : base <> []) (Hplain : ~ In 59%N base) :
  validate_content_type (base ++ 59%N :: params) allowed
  = validate_content_type base allowed
  /\ validate_content_type [] allowed = false.
Proof.
  split; [|reflexivity]. unfold validate_content_type.
  rewrite before_semicolon_cut, before_semicolon_plain by assumption.
  destruct base as [|c base]; [contradiction|]. reflexivity.
Qed.

Lemma validate_content_type_ignores_parameters_witness :
  validate_content_type (lit "image/png; charset=utf-8")
                        [lit "image/png"; lit "image/jpeg"]
  = validate_content_type (lit "image/png") [lit "image/png"; lit "image/jpeg"].
Proof.
  apply (proj1 (validate_content_type_ignores_parameters
                  (lit "image/png") (lit " charset=utf-8")
                  [lit "image/png"; lit "image/jpeg"]
                  ltac:(discriminate)
                  ltac:(cbn; intuition discriminate))).
Defined.

Lemma image_signature_detected (d : bytes) :
  validate_file_signature d IMAGE_SIGNATURES <> None
  <-> 16 <= len d
      /\ ((exists rest, d = PNG_SIGNATURE ++ rest)
          \/ (exists rest, d = JPEG_SIGNATURE ++ rest)).
Proof.
  unfold validate_file_signature, IMAGE_SIGNATURES. cbn [first_signature].
  rewrite <- !bstartswith_iff.
  destruct (len d <? 16) eqn:E.
  - apply Z.ltb_lt in E. split; [congruence|]. intros [H _]. lia.
  - apply Z.ltb_ge in E.
    destruct (bstartswith d PNG_SIGNATURE);
      [split; [auto|discriminate]|].
    destruct (bstartswith d JPEG_SIGNATURE);
      [split; [auto|discriminate]|].
    split; [congruence|]. intros [_ [H|H]]; discriminate.
Qed.

(** X10.  [validate_image_file] accepts a file iff its content type is
    one of image/png, image/jpeg, image/jpg (parameters aside) and its
    bytes, at least 16 of them, start with the PNG or the JPEG signature;
    whatever it raises is an [InputValidationError] for the field
    [image]; and the file name never changes the outcome (an odd
    extension is only logged). *)
Theorem validate_image_file_decision (d : bytes) (f ct : str) :
  (result (validate_image_file d f ct) = Return tt
   <-> validate_content_type
         ct [lit "image/png"; lit "image/jpeg"; lit "image/jpg"] = true
       /\ 16 <= len d
       /\ ((exists rest, d = PNG_SIGNATURE ++ rest)
           \/ (exists rest, d = JPEG_SIGNATURE ++ rest)))
  /\ (forall e, result (validate_image_file d f ct) = Raise e ->
                exists msg, e = InputValidationError msg (field "image"))
  /\ (forall f', result (validate_image_file d f' ct)
                 = result (validate_image_file d f ct)).
Proof.
  assert (R : forall name,
             result (validate_image_file d name ct)
             = if negb (validate_content_type ct
                          [lit "image/png"; lit "image/jpeg"; lit "image/jpg"])
               then Raise (InputValidationError
                             (lit "Invalid content type '" ++ ct
                              ++ lit "'. Allowed: "
                              ++ join_comma [lit "image/png"; lit "image/jpeg";
                                             lit "image/jpg"])
                             (field "image"))
               else match validate_file_signature d IMAGE_SIGNATURES with
                    | None =>
                        Raise (InputValidationError
                                 (lit "Invalid image file format. File signature doesn't match expected image types.")
                                 (field "image"))
                    | Some _ => Return tt
                    end).
  { intro name. unfold validate_image_file.
    destruct (negb _); [reflexivity|].
    destruct (validate_file_signature d IMAGE_SIGNATURES); [|reflexivity].
    destruct (negb (any_suffix _ _)); destruct (_ <? len d); reflexivity. }
  split; [|split].
  - rewrite R. rewrite <- image_signature_detected.
    destruct (validate_content_type ct _); cbn [negb].
    + destruct (validate_file_signature d IMAGE_SIGNATURES).
      * split; [intros _; split; [reflexivity|discriminate]|reflexivity].
      * split; [discriminate|intros [_ H]; now contradiction H].
    + split; [discriminate|intros [H _]; discriminate].
  - intros e. rewrite R.
    destruct (negb _); [intro H; injection H as <-; eexists; reflexivity|].
    destruct (validate_file_signature d IMAGE_SIGNATURES); [discriminate|].
    intro H. injection H as <-. eexists; reflexivity.
  - intro f'. now rewrite !R.
Qed.

Lemma rfind_from_absent (c : codepoint) (s : str) :
  forall i best, ~ In c s -> rfind_from c s i best = best.
Proof.
  induction s as [|x s IH]; intros i best H; cbn; [reflexivity|].
  destruct (N.eqb_spec x c) as [->|_]; [exfalso; apply H; now left|].
  apply IH. intro H'. apply H. now right.
Qed.

Lemma slice_all {A} (s : list A) : slice s (Some 0) None = s.
Proof.
  unfold slice, clamp_index. cbn [Z.ltb Z.compare].
  destruct (len s <? 0) eqn:E.
  - pose proof (len_nonneg s). apply Z.ltb_lt in E. lia.
  - cbn [Z.to_nat skipn]. rewrite Z.sub_0_r. unfold len.
    rewrite Nat2Z.id. apply firstn_all.
Qed.

(** A name made of safe characters is its own cleaned form. *)
Lemma cleaned_safe (name : str) :
  (forall c, In c name -> dangerous_char c = false /\ control_char c = false) ->
  cleaned name = name.
Proof.
  intro Hsafe. unfold cleaned, basename.
  assert (H47 : ~ In 47%N name).
  { intro H. apply Hsafe in H. destruct H as [H _]. discriminate. }
  unfold rfind. rewrite rfind_from_absent by assumption.
  change (-1 + 1) with 0. rewrite slice_all.
  induction name as [|c name IH]; [reflexivity|].
  cbn [map filter].
  destruct (Hsafe c (or_introl eq_refl)) as [Hd Hc]. rewrite Hd, Hc.
  cbn [negb]. f_equal. apply IH.
  - intros x Hx. apply Hsafe. now right.
  - intro H. apply H47. now right.
Qed.

Lemma sanitize_safe_fixed (name : str) :
  name <> [] -> len name <= 255 ->
  (forall c, In c name -> dangerous_char c = false /\ control_char c = false) ->
  name <> lit "." -> name <> lit ".." ->
  sanitize_filename name = name.
Proof.
  intros Hne Hlen Hsafe H1 H2.
  assert (S : sanitize_filename name
              = if reserved (truncated (cleaned name)) then unnamed_file
                else truncated (cleaned name))
    by (destruct name; [contradiction|reflexivity]).
  rewrite S. rewrite cleaned_safe by assumption.
  rewrite FilenameClaims.truncated_short by assumption.
  destruct (reserved name) eqn:R; [|reflexivity].
  apply FilenameClaims.reserved_iff in R.
  destruct R as [R|[R|R]]; contradiction.
Qed.

(** X11.  A name that is already safe (not empty, at most 255
    characters, none of the replaced or removed characters, not [.] or
    [..]) is returned unchanged; so sanitising twice gives what
    sanitising once gives, as long as the extension of the cleaned name
    has at most 255 characters. *)
Theorem sanitize_filename_idempotent (filename : str) :
  (filename <> [] -> len filename <= 255 ->
   (forall c, In c filename ->
              dangerous_char c = false /\ control_char c = false) ->
   filename <> lit "." -> filename <> lit ".." ->
   sanitize_filename filename = filename)
  /\ (len (snd (splitext (cleaned filename))) <= 255 ->
      sanitize_filename (sanitize_filename filename)
      = sanitize_filename filename).
Proof.
  split; [apply sanitize_safe_fixed|].
  intro Hext.
  assert (Hcases : sanitize_filename filename = unnamed_file
                   \/ (sanitize_filename filename
                       = truncated (cleaned filename)
                       /\ reserved (truncated (cleaned filename)) = false)).
  { unfold sanitize_filename. destruct filename as [|c f]; [now left|].
    destruct (reserved (truncated (cleaned (c :: f)))); [now left|].
    right. now split. }
  destruct Hcases as [->|[-> Hres]]; [reflexivity|].
  assert (Hnot : forall p, reserved p = false ->
                           p <> [] /\ p <> lit "." /\ p <> lit "..").
  { intros p Hp. repeat split; intro E;
      (assert (X : reserved p = true)
         by (apply FilenameClaims.reserved_iff; auto)); congruence. }
  destruct (Hnot _ Hres) as (N0 & N1 & N2).
  apply sanitize_safe_fixed; try assumption.
  - destruct (Z_le_dec (len (cleaned filename)) 255) as [Hs|Hl].
    + now rewrite FilenameClaims.truncated_short.
    + destruct (FilenameClaims.truncated_long (cleaned filename)) as [-> _];
        lia.
  - intros c Hc. apply FilenameClaims.In_truncated in Hc.
    now apply FilenameClaims.In_cleaned in Hc.
Qed.

Lemma sanitize_filename_idempotent_witness :
  sanitize_filename (lit "holiday photo.png") = lit "holiday photo.png"
  /\ sanitize_filename (sanitize_filename (lit "../a<b>.png"))
     = sanitize_filename (lit "../a<b>.png").
Proof.
  split.
  - apply (proj1 (sanitize_filename_idempotent (lit "holiday photo.png")));
      try discriminate.
    intros c Hc. cbn in Hc.
    repeat (destruct Hc as [<- | Hc]; [split; reflexivity|]).
    destruct Hc.
  - apply (proj2 (sanitize_filename_idempotent (lit "../a<b>.png"))).
    vm_compute. discriminate.
Defined.

End SecurityMore.

(* ------------------------------------------------------------------ *)
(** ** observability.py: endpoint labels and OTLP headers             *)
(* ------------------------------------------------------------------ *)

Module ObservabilityClaims.
Import Py RateLimit Observability PyFacts DictFacts.

(** X12.  Whatever the path, the metrics label [_normalize_endpoint]
    gives is one of eight fixed strings, and a label is its own label:
    the function is idempotent. *)
Theorem normalize_endpoint_bounded (path : str) :
  In (_normalize_endpoint path)
     [ lit "/api/edit"; lit "/api/health"; lit "/metrics"; lit "/docs";
       lit "/redoc"; lit "/openapi.json"; lit "/api/*"; lit "/other" ]
  /\ _normalize_endpoint (_normalize_endpoint path) = _normalize_endpoint path.
Proof.
  unfold _normalize_endpoint at 1 3 4. unfold normalizations.
  cbn [dict_get].
  repeat match goal with
         | |- context [str_eqb ?a path] => destruct (str_eqb a path)
         end;
    try (split; [cbn; tauto|reflexivity]).
  destruct (startswith path (lit "/api/"));
    (split; [cbn; tauto|reflexivity]).
Qed.

Lemma split_on_plain (sep : codepoint) (p : str) :
  forall current, ~ In sep p -> split_on sep p current = [rev current ++ p].
Proof.
  induction p as [|c p IH]; intros current H; cbn.
  - now rewrite app_nil_r.
  - destruct (N.eqb_spec c sep) as [->|_]; [exfalso; apply H; now left|].
    rewrite IH by (intro H'; apply H; now right).
    cbn [rev]. now rewrite <- app_assoc.
Qed.

Lemma split_on_piece (sep : codepoint) (p rest : str) :
  forall current,
    ~ In sep p ->
    split_on sep (p ++ sep :: rest) current
    = (rev current ++ p) :: split_on sep rest [].
Proof.
  induction p as [|c p IH]; intros current H; cbn.
  - rewrite N.eqb_refl. now rewrite app_nil_r.
  - destruct (N.eqb_spec c sep) as [->|_]; [exfalso; apply H; now left|].
    rewrite IH by (intro H'; apply H; now right).
    cbn [rev]. now rewrite <- app_assoc.
Qed.

Lemma entry_no_comma (kv : str * str) : clean_pair kv -> ~ In 44%N (entry kv).
Proof.
  intros (Hk & _ & Hv & _) H. unfold entry in H.
  apply in_app_or in H. destruct H as [H|[H|H]];
    [tauto|discriminate|tauto].
Qed.

Lemma split_rendered (pairs : list (str * str)) :
  pairs <> [] -> Forall clean_pair pairs ->
  split_on 44%N (render_headers pairs) [] = map entry pairs.
Proof.
  induction pairs as [|[k v] rest IH]; intros Hne Hclean; [contradiction|].
  inversion Hclean as [|x l Hkv Hrest]; subst.
  pose proof (entry_no_comma (k, v) Hkv) as Hno. unfold entry in Hno.
  cbn [fst snd] in Hno.
  destruct rest as [|kv' rest'].
  - cbn [render_headers map]. now rewrite split_on_plain.
  - change (render_headers ((k, v) :: kv' :: rest'))
      with ((k ++ 61%N :: v) ++ 44%N :: render_headers (kv' :: rest')).
    rewrite split_on_piece by assumption.
    cbn [map rev app]. f_equal. apply IH; [discriminate|assumption].
Qed.

Lemma strip_fixed (s : str) :
  (forall c t, s = c :: t -> isspace c = false) ->
  (forall t c, s = t ++ [c] -> isspace c = false) ->
  strip s = s.
Proof.
  intros H1 H2. unfold strip, lstrip, rstrip.
  destruct s as [|c t]; [reflexivity|].
  cbn [dropwhile]. rewrite (H1 c t eq_refl).
  destruct (rev (c :: t)) as [|x r] eqn:E.
  - apply (f_equal (@rev _)) in E. rewrite rev_involutive in E. discriminate.
  - assert (Hs : c :: t = rev r ++ [x]).
    { apply (f_equal (@rev _)) in E. now rewrite rev_involutive in E. }
    cbn [dropwhile]. rewrite (H2 _ _ Hs). cbn [rev]. now symmetry.
Qed.

Lemma strip_entry (kv : str * str) : clean_pair kv -> strip (entry kv) = entry kv.
Proof.
  destruct kv as [k v]. intros (_ & _ & _ & Hhead & Hlast).
  cbn [fst snd] in *. unfold entry. cbn [fst snd].
  apply strip_fixed.
  - intros c t E. destruct k as [|c0 k'].
    + cbn in E. injection E as <- _. reflexivity.
    + cbn in E. injection E as <- _. now apply (Hhead c0 k').
  - intros t c E.
    destruct (exists_last (l := 61%N :: v) ltac:(discriminate))
      as (body & z & Ez).
    rewrite Ez, app_assoc in E. apply app_inj_tail in E. destruct E as [_ <-].
    destruct v as [|c0 v'] using rev_ind.
    + destruct body; [injection Ez as <-; reflexivity|].
      injection Ez as _ Ez. destruct body; discriminate.
    + rewrite app_comm_cons in Ez. apply app_inj_tail in Ez.
      destruct Ez as [_ <-]. now apply (Hlast v' c0).
Qed.

Lemma before_first_entry (k v : str) :
  ~ In 61%N k -> before_first 61%N (k ++ 61%N :: v) = k.
Proof.
  induction k as [|c k IH]; cbn; [reflexivity|]. intro H.
  destruct (N.eqb_spec c 61) as [->|_]; [exfalso; apply H; now left|].
  rewrite IH; [reflexivity|]. intro H'. apply H. now right.
Qed.

Lemma after_first_entry (k v : str) :
  ~ In 61%N k -> after_first 61%N (k ++ 61%N :: v) = v.
Proof.
  induction k as [|c k IH]; cbn; [reflexivity|]. intro H.
  destruct (N.eqb_spec c 61) as [->|_]; [exfalso; apply H; now left|].
  apply IH. intro H'. apply H. now right.
Qed.

Lemma dict_set_absent {V} (k : str) (v : V) (d : dict V) :
  ~ In k (keys d) -> dict_set k v d = d ++ [(k, v)].
Proof.
  unfold keys. induction d as [|[k' v'] d IH]; cbn; [reflexivity|].
  intro H. rewrite str_eqb_neq by (intro E; apply H; now left).
  rewrite IH; [reflexivity|]. intro H'. apply H. now right.
Qed.

(** X13.  [_parse_otlp_headers] reads back what was written: for pairs
    with distinct keys, without commas, without [=] in a key and without
    white space at the start of a key or the end of a value, parsing the
    text [k1=v1,k2=v2,...] gives the pairs, in order. *)
Theorem parse_otlp_headers_round_trip
    (pairs : list (str * str))
    (Hkeys : NoDup (map fst pairs))
    (Hclean : Forall clean_pair pairs) :
  _parse_otlp_headers (render_headers pairs) = pairs.
Proof.
  destruct pairs as [|kv0 rest0] eqn:Ep; [reflexivity|]. rewrite <- Ep in *.
  assert (Hne : pairs <> []) by (rewrite Ep; discriminate).
  assert (Hr : render_headers pairs <> []).
  { rewrite Ep. destruct kv0 as [k v].
    destruct rest0; cbn; destruct k; discriminate. }
  unfold _parse_otlp_headers.
  destruct (render_headers pairs) as [|c0 r0] eqn:Er; [contradiction|].
  rewrite <- Er. rewrite (split_rendered pairs Hne Hclean).
  clear Ep Er Hne Hr c0 r0 kv0 rest0.
  assert (G : forall acc : dict str,
             (forall k, In k (map fst pairs) -> ~ In k (keys acc)) ->
             fold_left
               (fun headers header =>
                  if existsb (N.eqb 61) header
                  then dict_set (before_first 61%N (strip header))
                                (after_first 61%N (strip header)) headers
                  else headers)
               (map entry pairs) acc = acc ++ pairs).
  { induction pairs as [|[k v] rest IH]; intros acc Hacc; cbn [map fold_left].
    - now rewrite app_nil_r.
    - inversion Hkeys as [|x l Hk Hrest]; subst.
      inversion Hclean as [|x l Hkv Hcl]; subst.
      rewrite (strip_entry (k, v) Hkv).
      assert (He : existsb (N.eqb 61) (entry (k, v)) = true).
      { apply existsb_exists. exists 61%N. split; [|reflexivity].
        unfold entry. apply in_or_app. right. now left. }
      rewrite He.
      destruct Hkv as (_ & Hk61 & _). cbn [fst] in Hk61.
      change (entry (k, v)) with (k ++ 61%N :: v).
      rewrite before_first_entry, after_first_entry by assumption.
      rewrite dict_set_absent by (apply Hacc; now left).
      rewrite IH; [now rewrite <- app_assoc|assumption|assumption|].
      intros k' Hk' Hin. unfold keys in Hin. rewrite map_app in Hin.
      apply in_app_or in Hin. destruct Hin as [Hin|[<-|[]]].
      + apply (Hacc k'); [now right|exact Hin].
      + contradiction. }
  rewrite G; [reflexivity|]. intros k _ [].
Qed.

Lemma parse_otlp_headers_round_trip_witness :
  _parse_otlp_headers (lit "api-key=abc=,x-team=ml ops")
  = [(lit "api-key", lit "abc="); (lit "x-team", lit "ml ops")].
Proof.
  apply (parse_otlp_headers_round_trip
           [(lit "api-key", lit "abc="); (lit "x-team", lit "ml ops")]).
  - repeat constructor; cbn; intuition discriminate.
  - repeat constructor; cbn; try (intuition discriminate).
    + intros c k' E. injection E as <- _. reflexivity.
    + intros v' c E.
      apply (app_inj_tail [97; 98; 99]%N v' 61%N c) in E.
      destruct E as [_ <-]. reflexivity.
    + intros c k' E. injection E as <- _. reflexivity.
    + intros v' c E.
      apply (app_inj_tail [109; 108; 32; 111; 112]%N v' 115%N c) in E.
      destruct E as [_ <-]. reflexivity.
Defined.

End ObservabilityClaims.

(* ------------------------------------------------------------------ *)
(** ** inbound_validation.py: what the pipeline reports and promises  *)
(* ------------------------------------------------------------------ *)

Module ValidationFacts.
Import Py World Security InboundValidation Observations PipelineVocabulary.
Import MiddlewareFacts PyFacts MonadFacts PipelineFacts.
Local Open Scope Z_scope.

Lemma bind_Return_inv {A B} (m : M A) (k : A -> M B) (b : B) :
  result (bind m k) = Return b ->
  exists a, result m = Return a /\ result (k a) = Return b.
Proof.
  rewrite result_bind. destruct (result m) as [a|e]; [|discriminate].
  intro H. now exists a.
Qed.

(** A [try] whose handlers only raise returns what its body returns. *)
Lemma try_Return_inv {A} (m : M A) (sel : exn -> bool) (h : exn -> M A)
      (a : A) :
  (forall e a', result (h e) <> Return a') ->
  result (try_except m sel h) = Return a -> result m = Return a.
Proof.
  intro Hh. rewrite result_try.
  destruct (result m) as [a0|e]; [auto|].
  destruct (sel e); [|discriminate]. intro H. now apply Hh in H.
Qed.

Lemma fo_ret {A} (name : string) (a : A) : field_or_other name (ret a).
Proof. intros e H. discriminate. Qed.

Lemma fo_emit (name : string) (ev : event) : field_or_other name (emit ev).
Proof. intros e H. discriminate. Qed.

Lemma fo_raise_field {A} (name : string) (msg : str) :
  field_or_other name (@raise A (InputValidationError msg (field name))).
Proof. intros e H _. injection H as <-. now exists msg. Qed.

Lemma fo_raise_other {A} (name : string) (msg : str) :
  field_or_other name (@raise A (OtherError msg)).
Proof. intros e H Hi. injection H as <-. discriminate. Qed.

Lemma fo_bind {A B} (name : string) (m : M A) (k : A -> M B) :
  field_or_other name m -> (forall a, field_or_other name (k a)) ->
  field_or_other name (bind m k).
Proof.
  intros Hm Hk e. rewrite result_bind.
  destruct (result m) as [a|e'] eqn:E; [apply Hk|].
  intros H Hi. injection H as <-. now apply Hm.
Qed.

Lemma fo_of_only {A} (name : string) (m : M A) :
  only_field name m -> field_or_other name m.
Proof. intros H e He _. now apply H. Qed.

(** The shape of the stage handlers: validation errors of the body pass,
    everything else is turned into a validation error by the handler. *)
Lemma of_try_other {A} (name : string) (m : M A) (h : exn -> M A) :
  field_or_other name m -> (forall e, only_field name (h e)) ->
  only_field name
    (try_except m (fun e => negb (is_input_validation_error e)) h).
Proof.
  intros Hm Hh e. rewrite result_try.
  destruct (result m) as [a|e'] eqn:E; [discriminate|].
  destruct (is_input_validation_error e') eqn:Ei; cbn [negb].
  - intro H. injection H as <-. now apply Hm.
  - apply Hh.
Qed.

Lemma of_raise {A} (name : string) (msg : str) :
  only_field name (@raise A (InputValidationError msg (field name))).
Proof. intros e H. injection H as <-. now exists msg. Qed.

Lemma of_ret {A} (name : string) (a : A) : only_field name (ret a).
Proof. intros e H. discriminate. Qed.

Lemma of_emit (name : string) (ev : event) : only_field name (emit ev).
Proof. intros e H. discriminate. Qed.

Lemma of_bind {A B} (name : string) (m : M A) (k : A -> M B) :
  only_field name m -> (forall a, only_field name (k a)) ->
  only_field name (bind m k).
Proof.
  intros Hm Hk e. rewrite result_bind.
  destruct (result m) as [a|e'] eqn:E; [apply Hk|].
  intro H. injection H as <-. now apply Hm.
Qed.

Create HintDb fields.

Ltac field_steps :=
  repeat first
    [ solve [auto with fields]
    | solve [apply fo_of_only; auto with fields]
    | apply of_ret | apply of_raise | apply of_emit
    | apply fo_ret | apply fo_emit | apply fo_raise_field
    | apply fo_raise_other
    | apply of_try_other; [|intros ?]
    | match goal with
      | |- only_field _ (bind _ _) => apply of_bind; [|intros ?]
      | |- field_or_other _ (bind _ _) => apply fo_bind; [|intros ?]
      | |- only_field _ (if ?b then _ else _) => destruct b
      | |- only_field _ (match ?x with _ => _ end) => destruct x
      | |- field_or_other _ (if ?b then _ else _) => destruct b
      | |- field_or_other _ (match ?x with _ => _ end) => destruct x
      end ].

Section WithEnv.
Variable env : Env.
Variable self : InboundValidator.

Lemma of_validate_image_file (d : bytes) (f ct : str) :
  only_field "image" (validate_image_file d f ct).
Proof. unfold validate_image_file. field_steps. Qed.

Lemma of_validate_mask_file (d : bytes) (f ct : str) :
  only_field "mask" (validate_mask_file d f ct).
Proof.
  intros e H.
  destruct (SignatureClaims.validate_mask_file_outcome d f ct) as [Hbad Hok].
  destruct (list_eq_dec N.eq_dec ct (lit "image/png")) as [Ect|Ect];
    [|destruct (Hbad (or_introl Ect)) as [msg Hm]; rewrite Hm in H;
      injection H as <-; now exists msg].
  destruct (bstartswith d PNG_SIGNATURE) eqn:Es;
    [|destruct (Hbad (or_intror (or_introl eq_refl))) as [msg Hm];
      rewrite Hm in H; injection H as <-; now exists msg].
  destruct (Z_lt_dec (len d) 33) as [Hl|Hl];
    [destruct (Hbad (or_intror (or_intror Hl))) as [msg Hm];
     rewrite Hm in H; injection H as <-; now exists msg|].
  rewrite (Hok Ect eq_refl ltac:(lia)) in H. discriminate.
Qed.

Lemma of_image_dimensions (d : bytes) :
  only_field "image" (_validate_image_dimensions env self d).
Proof. unfold _validate_image_dimensions. field_steps. Qed.

Lemma of_mask_content (d : bytes) :
  only_field "mask" (_validate_mask_content env self d).
Proof. unfold _validate_mask_content. field_steps. Qed.

#[local] Hint Resolve of_validate_image_file of_validate_mask_file
  of_image_dimensions of_mask_content : fields.

Lemma of_uploaded_image (f : UploadFile) :
  only_field "image" (_validate_uploaded_image env self f).
Proof. unfold _validate_uploaded_image. field_steps. Qed.

Lemma of_uploaded_mask (f : UploadFile) :
  only_field "mask" (_validate_uploaded_mask env self f).
Proof. unfold _validate_uploaded_mask. field_steps. Qed.

Lemma of_prompt_text (p : str) :
  only_field "prompt" (_validate_prompt_text env p).
Proof.
  unfold _validate_prompt_text. field_steps.
  unfold validate_prompt. field_steps.
Qed.

Lemma ove_prompt_stage (p : str) :
  only_validation_errors (_validate_prompt_text env p).
Proof.
  unfold _validate_prompt_text. ove_steps; try apply ove_validate_prompt.
Qed.

Lemma ove_parameter_stage (sd : option Z) (st gs : option pyfloat) :
  only_validation_errors
    (_validate_parameters env sd (option_map VFloat st)
                          (option_map VFloat gs)).
Proof.
  unfold _validate_parameters.
  destruct st, gs; cbn [option_map]; ove_steps;
    try apply ove_validate_numeric.
Qed.

(** The two handlers around the body of the pipeline. *)
Lemma pipeline_handlers_result {A} (body : M A) :
  result
    (try_except
       (try_except body is_input_validation_error
          (fun e =>
             bind (emit (Log WARNING "Input validation failed")) (fun _ =>
             bind (emit (Metric "mask_operation" "validation" "error"))
                  (fun _ => raise e))))
       (fun e => negb (is_input_validation_error e))
       (fun e =>
          bind (emit (Log ERROR "Unexpected validation error")) (fun _ =>
          bind (emit (Metric "mask_operation" "validation" "error"))
               (fun _ => raise (HTTPException 500
                                  (lit "Internal validation error"))))))
  = match result body with
    | Return a => Return a
    | Raise e => Raise (validation_exn e)
    end.
Proof.
  rewrite !result_try.
  destruct (result body) as [a|e]; [reflexivity|].
  unfold validation_exn.
  destruct (is_input_validation_error e) eqn:E.
  - rewrite !result_bind. cbn [result emit snd raise]. now rewrite E.
  - rewrite E. cbn [negb]. rewrite !result_bind. reflexivity.
Qed.

(** The pipeline, stage by stage: the first stage that raises decides.
    The errors of the first three stages come out unchanged; the
    parameter stage can also raise the [OverflowError] of [float()],
    which comes out as the 500 of the second handler. *)
Lemma validate_inpaint_request_stages
      (image mask : UploadFile) (prompt : str) (sd : option Z)
      (st gs : option value) :
  result (validate_inpaint_request env self image mask prompt sd st gs)
  = match result (_validate_uploaded_image env self image) with
    | Raise e => Raise e
    | Return _ =>
        match result (_validate_uploaded_mask env self mask) with
        | Raise e => Raise e
        | Return _ =>
            match result (_validate_prompt_text env prompt) with
            | Raise e => Raise e
            | Return p =>
                match result (_validate_parameters env sd st gs) with
                | Raise e => Raise (validation_exn e)
                | Return q => Return (mkValidated p q)
                end
            end
        end
    end.
Proof.
  pose proof (ove_uploaded_image env self image) as H1.
  pose proof (ove_uploaded_mask env self mask) as H2.
  pose proof (ove_prompt_stage prompt) as H3.
  unfold only_validation_errors in *.
  unfold validate_inpaint_request.
  rewrite pipeline_handlers_result.
  rewrite result_bind.
  destruct (result (_validate_uploaded_image env self image)) as [[]|e1].
  2:{ unfold validation_exn. now rewrite (H1 e1 eq_refl). }
  rewrite result_bind.
  destruct (result (_validate_uploaded_mask env self mask)) as [[]|e2].
  2:{ unfold validation_exn. now rewrite (H2 e2 eq_refl). }
  rewrite result_bind.
  destruct (result (_validate_prompt_text env prompt)) as [p|e3].
  2:{ unfold validation_exn. now rewrite (H3 e3 eq_refl). }
  rewrite result_bind.
  destruct (result (_validate_parameters env sd st gs)) as [q|e4];
    [|reflexivity].
  rewrite !result_bind. reflexivity.
Qed.

End WithEnv.

End ValidationFacts.

Module NumberFacts.
Import Py Security Acceptance MiddlewareFacts.
Local Open Scope Z_scope.

(** The range test on a finite number and finite bounds. *)
Lemma range_test_finite (v lo hi : Q) :
  float_lt (Finite v) (Finite lo) || float_lt (Finite hi) (Finite v) = false
  <-> (lo <= v)%Q /\ (v <= hi)%Q.
Proof.
  cbn [float_lt]. rewrite orb_false_iff, !Qltb_false. tauto.
Qed.

(** The range test on any float and finite bounds. *)
Lemma range_test_passes (f : pyfloat) (lo hi : Q) :
  float_lt f (Finite lo) || float_lt (Finite hi) f = false
  <-> passes lo hi f.
Proof.
  unfold passes. destruct f as [q| | |].
  - rewrite range_test_finite. split.
    + intro H. right. now exists q.
    + intros [H|(q' & H & Hq)]; [discriminate|]. now injection H as ->.
  - split; [now left|reflexivity].
  - split; [discriminate|]. intros [H|(q & H & _)]; discriminate.
  - split; [discriminate|]. intros [H|(q & H & _)]; discriminate.
Qed.

End NumberFacts.

Module ValidationClaims.
Import Py World Security InboundValidation Observations PipelineVocabulary.
Import Acceptance MiddlewareFacts PyFacts MonadFacts PipelineFacts.
Import ValidationFacts NumberFacts.
Local Open Scope Z_scope.

Lemma numeric_decision (ff : pyfloat -> str) (v : Q)
      (name : string) (lo hi : Q) :
  ((lo <= v)%Q /\ (v <= hi)%Q ->
   result (validate_numeric_parameter ff (VFloat (Finite v)) (lit name)
             (Finite lo) (Finite hi))
   = Return (Finite v))
  /\ (~ ((lo <= v)%Q /\ (v <= hi)%Q) ->
      exists msg,
        result (validate_numeric_parameter ff (VFloat (Finite v)) (lit name)
                  (Finite lo) (Finite hi))
        = Raise (InputValidationError msg (field name))).
Proof.
  unfold validate_numeric_parameter. cbn [float].
  pose proof (range_test_finite v lo hi) as R.
  destruct (float_lt (Finite v) (Finite lo)
            || float_lt (Finite hi) (Finite v)).
  - split; intro H.
    + apply R in H. discriminate.
    + eexists; reflexivity.
  - split; intro H; [reflexivity|]. exfalso. apply H. now apply R.
Qed.

(** What the check of one optional number ends with. *)
Lemma number_check_cases (ff : pyfloat -> str) (name : string)
      (lo hi default : Q) (o : option value) :
  let check :=
    match o with
    | Some v => validate_numeric_parameter ff v (lit name)
                  (Finite lo) (Finite hi)
    | None => ret (Finite default)
    end in
  (exists f, result check = Return f /\ accepted_number lo hi default o f)
  \/ (exists msg,
        result check = Raise (InputValidationError msg (field name))
        /\ ~ overflows o)
  \/ (result check = Raise overflow_error /\ overflows o).
Proof.
  cbv zeta. destruct o as [v|].
  2:{ left. exists (Finite default). split; reflexivity. }
  unfold validate_numeric_parameter, accepted_number, overflows.
  destruct (float v) as [f| |] eqn:E.
  - pose proof (range_test_passes f lo hi) as R.
    destruct (float_lt f (Finite lo) || float_lt (Finite hi) f).
    + right; left. eexists. split; [reflexivity|].
      intros (v' & Hv & Hf). injection Hv as <-. congruence.
    + left. exists f. split; [reflexivity|]. split; [reflexivity|].
      now apply R.
  - right; left. eexists. split; [reflexivity|].
    intros (v' & Hv & Hf). injection Hv as <-. congruence.
  - right; right. split; [reflexivity|]. now exists v.
Qed.

Lemma seed_check_cases (sd : option Z) :
  let check :=
    match sd with
    | Some n =>
        if (n <? 0) || (2147483647 <? n)
        then raise (InputValidationError
                      (lit "Seed must be integer between 0 and 2147483647, got "
                       ++ str_of_Z n) (field "seed"))
        else ret (Some n)
    | None => ret None
    end in
  (seed_within sd /\ result check = Return sd)
  \/ (~ seed_within sd
      /\ exists msg,
           result check = Raise (InputValidationError msg (field "seed"))).
Proof.
  cbv zeta. destruct sd as [n|]; cbn [seed_within].
  - destruct (n <? 0) eqn:E1; [apply Z.ltb_lt in E1|apply Z.ltb_ge in E1];
      (destruct (2147483647 <? n) eqn:E2;
       [apply Z.ltb_lt in E2|apply Z.ltb_ge in E2]);
      cbn [orb];
      try (right; split; [lia|eexists; reflexivity]).
    left. split; [lia|reflexivity].
  - left. split; [exact I|reflexivity].
Qed.

(** What [_validate_parameters] ends with, for any values. *)
Lemma parameters_cases (env : Env) (sd : option Z) (st gs : option value) :
  let run := result (_validate_parameters env sd st gs) in
  (exists s g,
     run = Return (mkParams sd s g)
     /\ seed_within sd
     /\ accepted_number 0 1 (8 # 10) st s
     /\ accepted_number 1 20 (75 # 10) gs g)
  \/ (exists e, run = Raise e /\ names_field parameter_fields e)
  \/ (run = Raise overflow_error
      /\ seed_within sd /\ (overflows st \/ overflows gs)).
Proof.
  cbv zeta. unfold _validate_parameters. rewrite result_bind.
  destruct (seed_check_cases sd) as [[Hs ->]|(Hs & msg & ->)].
  2:{ right; left. eexists. split; [reflexivity|].
      exists msg, "seed"%string. split; [cbn; tauto|reflexivity]. }
  rewrite result_bind.
  destruct (number_check_cases (format_float env) "strength" 0 1 (8 # 10) st)
    as [(s & -> & Hst)|[(msg & -> & _)|[-> Hst]]].
  2:{ right; left. eexists. split; [reflexivity|].
      exists msg, "strength"%string. split; [cbn; tauto|reflexivity]. }
  2:{ right; right. split; [reflexivity|]. split; [exact Hs|now left]. }
  rewrite result_bind.
  destruct (number_check_cases (format_float env) "guidance_scale" 1 20
              (75 # 10) gs)
    as [(g & -> & Hgs)|[(msg & -> & _)|[-> Hgs]]].
  - left. exists s, g. repeat split; assumption.
  - right; left. eexists. split; [reflexivity|].
    exists msg, "guidance_scale"%string. split; [cbn; tauto|reflexivity].
  - right; right. split; [reflexivity|]. split; [exact Hs|now right].
Qed.

Lemma parameters_decision (env : Env) (sd : option Z) (st gs : option Q) :
  (seed_within sd -> within 0 1 st -> within 1 20 gs ->
   result (_validate_parameters env sd (finite st) (finite gs))
   = Return (mkParams sd (Finite (or_default (8 # 10) st))
                         (Finite (or_default (75 # 10) gs))))
  /\ (~ seed_within sd ->
      exists msg, result (_validate_parameters env sd (finite st) (finite gs))
                  = Raise (InputValidationError msg (field "seed")))
  /\ (seed_within sd -> ~ within 0 1 st ->
      exists msg, result (_validate_parameters env sd (finite st) (finite gs))
                  = Raise (InputValidationError msg (field "strength")))
  /\ (seed_within sd -> within 0 1 st -> ~ within 1 20 gs ->
      exists msg, result (_validate_parameters env sd (finite st) (finite gs))
                  = Raise (InputValidationError msg
                             (field "guidance_scale"))).
Proof.
  assert (Hst :
    (within 0 1 st ->
     result (match finite st with
             | Some v => validate_numeric_parameter (format_float env)
                           v (lit "strength") (Finite 0) (Finite 1)
             | None => ret (Finite (8 # 10))
             end) = Return (Finite (or_default (8 # 10) st)))
    /\ (~ within 0 1 st ->
        exists msg,
          result (match finite st with
             | Some v => validate_numeric_parameter (format_float env)
                           v (lit "strength") (Finite 0) (Finite 1)
             | None => ret (Finite (8 # 10))
             end) = Raise (InputValidationError msg (field "strength")))).
  { destruct st as [v|]; cbn [within or_default finite option_map].
    - apply numeric_decision.
    - split; [reflexivity|]. intro H. now destruct H. }
  destruct Hst as [Ht1 Ht0].
  assert (Hgs :
    (within 1 20 gs ->
     result (match finite gs with
             | Some v => validate_numeric_parameter (format_float env)
                           v (lit "guidance_scale") (Finite 1) (Finite 20)
             | None => ret (Finite (75 # 10))
             end) = Return (Finite (or_default (75 # 10) gs)))
    /\ (~ within 1 20 gs ->
        exists msg,
          result (match finite gs with
             | Some v => validate_numeric_parameter (format_float env)
                           v (lit "guidance_scale") (Finite 1) (Finite 20)
             | None => ret (Finite (75 # 10))
             end) = Raise (InputValidationError msg
                             (field "guidance_scale")))).
  { destruct gs as [v|]; cbn [within or_default finite option_map].
    - apply numeric_decision.
    - split; [reflexivity|]. intro H. now destruct H. }
  destruct Hgs as [Hg1 Hg0].
  unfold _validate_parameters. rewrite !result_bind.
  destruct (seed_check_cases sd) as [[Hs ->]|(Hs & msg & ->)].
  2:{ repeat split; try (intros; contradiction).
      intros _. now exists msg. }
  repeat split.
  - intros _ H2 H3. rewrite result_bind, (Ht1 H2).
    rewrite result_bind, (Hg1 H3). reflexivity.
  - intro H. contradiction.
  - intros _ H2. rewrite result_bind.
    destruct (Ht0 H2) as [m ->]. now exists m.
  - intros _ H2 H3. rewrite result_bind, (Ht1 H2).
    rewrite result_bind. destruct (Hg0 H3) as [m ->]. now exists m.
Qed.

(** X14.  [_validate_parameters] decides by the bounds alone: with the
    seed absent or in [[0, 2147483647]], the strength absent or in
    [[0, 1]] and the guidance scale absent or in [[1, 20]] it returns
    the values given, with 0.8 and 7.5 for the absent ones; otherwise
    it raises a validation error for the first parameter out of range,
    in the order seed, strength, guidance scale.  (Stated for finite
    floats; what a NaN, an infinity or an [int] gives is the matter of
    the theorems on [validate_numeric_parameter] and on the accepted
    request.) *)
Theorem validate_parameters_decision
        (env : Env) (sd : option Z) (st gs : option Q) :
  (seed_within sd /\ within 0 1 st /\ within 1 20 gs ->
   result (_validate_parameters env sd (finite st) (finite gs))
   = Return (mkParams sd (Finite (or_default (8 # 10) st))
                         (Finite (or_default (75 # 10) gs))))
  /\ (~ seed_within sd ->
      exists msg, result (_validate_parameters env sd (finite st) (finite gs))
                  = Raise (InputValidationError msg (field "seed")))
  /\ (seed_within sd /\ ~ within 0 1 st ->
      exists msg, result (_validate_parameters env sd (finite st) (finite gs))
                  = Raise (InputValidationError msg (field "strength")))
  /\ (seed_within sd /\ within 0 1 st /\ ~ within 1 20 gs ->
      exists msg, result (_validate_parameters env sd (finite st) (finite gs))
                  = Raise (InputValidationError msg
                             (field "guidance_scale"))).
Proof.
  destruct (parameters_decision env sd st gs) as (H1 & H2 & H3 & H4).
  repeat split.
  - intros (A & B & C). now apply H1.
  - exact H2.
  - intros (A & B). now apply H3.
  - intros (A & B & C). now apply H4.
Qed.

Lemma validate_parameters_decision_witness :
  result (_validate_parameters demo_env (Some 7) (finite None)
            (finite (Some (5 # 1))))
  = Return (mkParams (Some 7) (Finite (8 # 10)) (Finite (5 # 1))).
Proof.
  apply (proj1 (validate_parameters_decision demo_env (Some 7) None
                  (Some (5 # 1)))).
  cbn [seed_within within]. repeat split; try lia; try discriminate.
Defined.

(** A float never overflows in [float()]. *)
Lemma float_never_overflows (o : option pyfloat) :
  ~ overflows (option_map VFloat o).
Proof.
  intros (v & Hv & Hf). destruct o as [f|]; [|discriminate].
  injection Hv as <-. discriminate.
Qed.

Lemma parameters_error_field (env : Env) (sd : option Z)
      (st gs : option pyfloat) (e : exn) :
  result (_validate_parameters env sd (option_map VFloat st)
            (option_map VFloat gs)) = Raise e ->
  names_field parameter_fields e.
Proof.
  intro He.
  destruct (parameters_cases env sd (option_map VFloat st)
              (option_map VFloat gs))
    as [(s & g & H & _)|[(e' & H & Hn)|(_ & _ & [H|H])]].
  - rewrite H in He. discriminate.
  - rewrite H in He. now injection He as <-.
  - now apply float_never_overflows in H.
  - now apply float_never_overflows in H.
Qed.

Lemma only_field_names {A} (name : string) (m : M A) (e : exn) :
  only_field name m -> result m = Raise e -> names_field [name] e.
Proof.
  intros H He. destruct (H e He) as [msg ->].
  exists msg, name. split; [now left|reflexivity].
Qed.


Lemma names_field_validation (l : list string) (e : exn) :
  names_field l e -> validation_exn e = e.
Proof. intros (msg & name & _ & ->). reflexivity. Qed.

(** X15.  [validate_inpaint_request] checks the image, the mask, the
    prompt and the parameters in this order and stops at the first
    failure: the error of the first failing check is the error of the
    request, whatever the later inputs are, and it names the field of
    that check.  (The two numbers are floats, as the route hands them
    over.) *)
Theorem validate_inpaint_request_first_failure
        (env : Env) (self : InboundValidator) (image mask : UploadFile)
        (prompt : str) (sd : option Z) (st gs : option pyfloat) :
  let request :=
    result (validate_inpaint_request env self image mask prompt sd
              (option_map VFloat st) (option_map VFloat gs)) in
  let image_check := result (_validate_uploaded_image env self image) in
  let mask_check := result (_validate_uploaded_mask env self mask) in
  let prompt_check := result (_validate_prompt_text env prompt) in
  let parameter_check :=
    result (_validate_parameters env sd (option_map VFloat st)
              (option_map VFloat gs)) in
  (forall e, image_check = Raise e ->
             request = Raise e /\ names_field ["image"%string] e)
  /\ (forall e, image_check = Return tt -> mask_check = Raise e ->
                request = Raise e /\ names_field ["mask"%string] e)
  /\ (forall e, image_check = Return tt -> mask_check = Return tt ->
                prompt_check = Raise e ->
                request = Raise e /\ names_field ["prompt"%string] e)
  /\ (forall e p, image_check = Return tt -> mask_check = Return tt ->
                  prompt_check = Return p -> parameter_check = Raise e ->
                  request = Raise e /\ names_field parameter_fields e).
Proof.
  cbv zeta.
  pose proof (validate_inpaint_request_stages env self image mask prompt
                sd (option_map VFloat st) (option_map VFloat gs)) as S.
  split; [|split; [|split]].
  - intros e H1. split; [rewrite S, H1; reflexivity|].
    now apply (only_field_names "image" _ e (of_uploaded_image env self image)).
  - intros e H1 H2. split; [rewrite S, H1, H2; reflexivity|].
    now apply (only_field_names "mask" _ e (of_uploaded_mask env self mask)).
  - intros e H1 H2 H3. split; [rewrite S, H1, H2, H3; reflexivity|].
    now apply (only_field_names "prompt" _ e (of_prompt_text env prompt)).
  - intros e p H1 H2 H3 H4.
    pose proof (parameters_error_field env sd st gs e H4) as Hn.
    split; [|exact Hn].
    rewrite S, H1, H2, H3, H4.
    now rewrite (names_field_validation _ e Hn).
Qed.

Lemma validate_inpaint_request_first_failure_witness :
  exists e,
    result (validate_inpaint_request demo_env default_validator
              (upload "a.png" []) (upload "" []) [] (Some (-1))
              (option_map VFloat None) (option_map VFloat None)) = Raise e
    /\ names_field ["image"%string] e.
Proof.
  eexists.
  apply (proj1 (validate_inpaint_request_first_failure
                  demo_env default_validator
                  (upload "a.png" []) (upload "" []) [] (Some (-1))
                  None None)).
  vm_compute. reflexivity.
Defined.



Lemma raise_never_returns {A} (e : exn) (a : A) :
  result (@raise A e) <> Return a.
Proof. discriminate. Qed.

Lemma log_raise_never_returns {A} (ev : event) (e : exn) (a : A) :
  result (bind (emit ev) (fun _ => @raise A e)) <> Return a.
Proof. discriminate. Qed.

Lemma sides_within (self : InboundValidator) (w h : Z) :
  (w <? min_image_dimension self) || (h <? min_image_dimension self) = false ->
  (max_image_dimension self <? w) || (max_image_dimension self <? h) = false ->
  side_within self w /\ side_within self h.
Proof.
  intros H1 H2. apply orb_false_iff in H1, H2.
  destruct H1 as [A B], H2 as [C D].
  apply Z.ltb_ge in A, B, C, D. unfold side_within. lia.
Qed.

Lemma image_dimensions_accepts (env : Env) (self : InboundValidator)
      (d : bytes) :
  result (_validate_image_dimensions env self d) = Return tt ->
  exists picture, Image_open env d = inr picture
                  /\ side_within self (width picture)
                  /\ side_within self (height picture).
Proof.
  unfold _validate_image_dimensions. intro H.
  apply try_Return_inv in H; [|intros; apply raise_never_returns].
  destruct (Image_open env d) as [msg|picture]; [discriminate|].
  exists picture. split; [reflexivity|].
  cbv zeta in H.
  destruct ((width picture <? min_image_dimension self)
            || (height picture <? min_image_dimension self)) eqn:E1;
    [discriminate|].
  destruct ((max_image_dimension self <? width picture)
            || (max_image_dimension self <? height picture)) eqn:E2;
    [discriminate|].
  now apply sides_within.
Qed.

Lemma mask_content_accepts (env : Env) (self : InboundValidator)
      (d : bytes) :
  result (_validate_mask_content env self d) = Return tt ->
  exists picture, Image_open env d = inr picture
                  /\ side_within self (width picture)
                  /\ side_within self (height picture).
Proof.
  unfold _validate_mask_content. intro H.
  apply try_Return_inv in H; [|intros; apply raise_never_returns].
  destruct (Image_open env d) as [msg|picture]; [discriminate|].
  exists picture. split; [reflexivity|].
  apply bind_Return_inv in H. destruct H as (? & _ & H).
  cbv zeta in H.
  destruct ((width picture <? min_image_dimension self)
            || (height picture <? min_image_dimension self)) eqn:E1;
    [discriminate|].
  destruct ((max_image_dimension self <? width picture)
            || (max_image_dimension self <? height picture)) eqn:E2;
    [discriminate|].
  now apply sides_within.
Qed.

Lemma len_pos_of_nonzero {A} (l : list A) : (len l =? 0) = false -> 0 < len l.
Proof.
  intro H. apply Z.eqb_neq in H. unfold len in *. lia.
Qed.

Lemma uploaded_image_accepts (env : Env) (self : InboundValidator)
      (f : UploadFile) :
  result (_validate_uploaded_image env self f) = Return tt ->
  sound_upload env self f
  /\ validate_content_type (or_empty (content_type f))
       [lit "image/png"; lit "image/jpeg"; lit "image/jpg"] = true
  /\ validate_file_signature (content f) IMAGE_SIGNATURES <> None.
Proof.
  unfold _validate_uploaded_image, sound_upload. intro H.
  destruct (missing f); [discriminate|].
  destruct (oversized self f); [discriminate|].
  apply try_Return_inv in H; [|intros; apply log_raise_never_returns].
  apply bind_Return_inv in H. destruct H as (? & H0 & H).
  apply bind_Return_inv in H. destruct H as (? & H1 & H).
  apply image_dimensions_accepts in H.
  destruct (len (content f) =? 0) eqn:E; [discriminate|].
  apply len_pos_of_nonzero in E.
  unfold validate_image_file in H1. cbv zeta in H1.
  destruct (validate_content_type (or_empty (content_type f))
              [lit "image/png"; lit "image/jpeg"; lit "image/jpg"]);
    [|discriminate].
  cbn [negb] in H1.
  destruct (validate_file_signature (content f) IMAGE_SIGNATURES);
    [|discriminate].
  repeat split; try assumption. discriminate.
Qed.

Lemma uploaded_mask_accepts (env : Env) (self : InboundValidator)
      (f : UploadFile) :
  result (_validate_uploaded_mask env self f) = Return tt ->
  sound_upload env self f
  /\ or_empty (content_type f) = lit "image/png"
  /\ bstartswith (content f) PNG_SIGNATURE = true
  /\ 33 <= len (content f).
Proof.
  unfold _validate_uploaded_mask, sound_upload. intro H.
  destruct (missing f); [discriminate|].
  destruct (oversized self f); [discriminate|].
  apply try_Return_inv in H; [|intros; apply log_raise_never_returns].
  apply bind_Return_inv in H. destruct H as (? & H0 & H).
  apply bind_Return_inv in H. destruct H as (? & H1 & H).
  apply mask_content_accepts in H.
  destruct (len (content f) =? 0) eqn:E; [discriminate|].
  apply len_pos_of_nonzero in E.
  unfold validate_mask_file in H1.
  destruct (str_eqb (or_empty (content_type f)) (lit "image/png")) eqn:Ec;
    [|discriminate].
  cbn [negb] in H1.
  destruct (bstartswith (content f) PNG_SIGNATURE); [|discriminate].
  cbn [negb] in H1.
  destruct (len (content f) <? 33) eqn:El; [discriminate|].
  apply Z.ltb_ge in El.
  repeat split; try assumption.
  now apply str_eqb_eq.
Qed.

Lemma prompt_text_accepts (env : Env) (p q : str) :
  result (_validate_prompt_text env p) = Return q ->
  q = strip p /\ 0 < len q <= 500
  /\ existsb prompt_control_char q = false.
Proof.
  unfold _validate_prompt_text. intro H.
  apply bind_Return_inv in H. destruct H as (q0 & H0 & H).
  apply bind_Return_inv in H. destruct H as (? & _ & H).
  apply bind_Return_inv in H. destruct H as (? & _ & H).
  injection H as <-.
  unfold validate_prompt in H0.
  destruct p as [|c p]; [discriminate|]. cbn [orb] in H0.
  destruct (strip (c :: p)) as [|c' q'] eqn:E; [discriminate|].
  destruct (500 <? len (c' :: q')) eqn:E1; [discriminate|].
  destruct (existsb prompt_control_char (c' :: q')) eqn:E2; [discriminate|].
  apply bind_Return_inv in H0. destruct H0 as (? & _ & H0).
  injection H0 as <-.
  apply Z.ltb_ge in E1.
  split; [reflexivity|]. split; [|assumption].
  split; [|assumption]. unfold len. cbn [length]. lia.
Qed.

(** X17.  What validation lets through.  When
    [validate_inpaint_request] returns, both uploads have a file name
    and at least one byte, are not declared larger than the size limit,
    and decode to pictures whose sides are within the limits of the
    validator; the image has an allowed content type and a PNG or JPEG
    signature, the mask is declared [image/png], starts with the PNG
    signature and has at least 33 bytes; the prompt returned is the
    trimmed prompt, has 1 to 500 characters and no control character;
    the seed is the one given and absent or in range; the strength and
    the guidance scale returned are 0.8 and 7.5 when absent, and
    otherwise what [float()] makes of the value given, which is a
    finite number within [[0, 1]] and [[1, 20]] or a NaN: both
    comparisons of the range test are false on a NaN, so a NaN is
    returned as it is. *)
Theorem validate_inpaint_request_accepts_only_sound
        (env : Env) (self : InboundValidator) (image mask : UploadFile)
        (prompt : str) (sd : option Z) (st gs : option value)
        (v : Validated) :
  result (validate_inpaint_request env self image mask prompt sd st gs)
  = Return v ->
  (sound_upload env self image
   /\ validate_content_type (or_empty (content_type image))
        [lit "image/png"; lit "image/jpeg"; lit "image/jpg"] = true
   /\ validate_file_signature (content image) IMAGE_SIGNATURES <> None)
  /\ (sound_upload env self mask
      /\ or_empty (content_type mask) = lit "image/png"
      /\ bstartswith (content mask) PNG_SIGNATURE = true
      /\ 33 <= len (content mask))
  /\ (v_prompt v = strip prompt /\ 0 < len (v_prompt v) <= 500
      /\ existsb prompt_control_char (v_prompt v) = false)
  /\ (seed (v_params v) = sd /\ seed_within sd
      /\ accepted_number 0 1 (8 # 10) st (strength (v_params v))
      /\ accepted_number 1 20 (75 # 10) gs (guidance_scale (v_params v))).
Proof.
  rewrite validate_inpaint_request_stages.
  destruct (result (_validate_uploaded_image env self image)) as [[]|e1] eqn:E1;
    [|discriminate].
  destruct (result (_validate_uploaded_mask env self mask)) as [[]|e2] eqn:E2;
    [|discriminate].
  destruct (result (_validate_prompt_text env prompt)) as [p|e3] eqn:E3;
    [|discriminate].
  destruct (parameters_cases env sd st gs)
    as [(s & g & -> & Hs & Hst & Hgs)|[(e' & -> & _)|(-> & _)]];
    [|discriminate|discriminate].
  intro H. injection H as <-. cbn [v_prompt v_params seed strength
                                     guidance_scale].
  split; [now apply uploaded_image_accepts|].
  split; [now apply uploaded_mask_accepts|].
  split; [now apply (prompt_text_accepts env)|].
  repeat split; assumption.
Qed.

Lemma validate_inpaint_request_accepts_only_sound_witness :
  sound_upload demo_env default_validator (upload "a.png" image_512)
  /\ accepted_number 0 1 (8 # 10) (Some (VFloat NaN)) NaN.
Proof.
  pose proof (validate_inpaint_request_accepts_only_sound
                demo_env default_validator
                (upload "a.png" image_512) (upload "m.png" mask_256)
                (lit "a red fox") None (Some (VFloat NaN)) None
                (mkValidated (lit "a red fox")
                             (mkParams None NaN (Finite (75 # 10))))
                ltac:(vm_compute; reflexivity)) as H.
  split; [exact (proj1 (proj1 H))|].
  exact (proj1 (proj2 (proj2 (proj2 (proj2 (proj2 H)))))).
Defined.

End ValidationClaims.

(* ------------------------------------------------------------------ *)
(** ** image_processor.py: what the two processing stages take        *)
(* ------------------------------------------------------------------ *)

Module ProcessorFacts.
Import Py World InboundValidation ImageProcessor Acceptance.
Import PyFacts MonadFacts.
Local Open Scope Z_scope.

Lemma existsb_str_In (x : str) (l : list str) :
  existsb (str_eqb x) l = true <-> In x l.
Proof.
  rewrite existsb_exists. split.
  - intros (y & Hy & E). apply str_eqb_eq in E. now subst.
  - intro H. exists x. split; [exact H|now apply str_eqb_eq].
Qed.

Lemma image_format_ok (picture : Image) :
  match format picture with
  | Some f => existsb (str_eqb f) [lit "PNG"; lit "JPEG"]
  | None => false
  end = true
  <-> format picture = Some (lit "PNG") \/ format picture = Some (lit "JPEG").
Proof.
  destruct (format picture) as [f|].
  - rewrite existsb_str_In. cbn [In]. split.
    + intros [<-|[<-|[]]]; [now left|now right].
    + intros [H|H]; injection H as ->; tauto.
  - split; [discriminate|intros [H|H]; discriminate].
Qed.

Lemma mask_format_ok (picture : Image) :
  match format picture with
  | Some f => str_eqb f (lit "PNG")
  | None => false
  end = true
  <-> format picture = Some (lit "PNG").
Proof.
  destruct (format picture) as [f|].
  - rewrite str_eqb_eq. split; [now intros ->|intro H; now injection H].
  - split; discriminate.
Qed.

Lemma wrap_errors_result {A} (code : Z) (prefix : string) (body : M A) :
  result (wrap_errors code prefix body)
  = match result body with
    | Return a => Return a
    | Raise (OtherError m) => Raise (HTTPException code (lit prefix ++ m))
    | Raise e => Raise e
    end.
Proof.
  unfold wrap_errors. rewrite result_try.
  destruct (result body) as [a|[d f|c d|m]]; reflexivity.
Qed.

(** The result of [validate_and_process_image] on a file that decodes. *)
Lemma process_image_result (env : Env) (f : UploadFile) :
  result (validate_and_process_image env f)
  = match Image_open env (content f) with
    | inl message =>
        Raise (HTTPException 422 (lit "Error processing image: " ++ message))
    | inr picture =>
        if negb (match format picture with
                 | Some f => existsb (str_eqb f) [lit "PNG"; lit "JPEG"]
                 | None => false
                 end)
        then Raise (HTTPException 422 (lit "Image must be PNG or JPEG format"))
        else if (2048 <? width picture) || (2048 <? height picture)
        then Raise (HTTPException 422
                      (lit "Image dimensions must not exceed 2048x2048"))
        else if (width picture <? 256) || (height picture <? 256)
        then Raise (HTTPException 422
                      (lit "Image dimensions must be at least 256x256"))
        else match encode_image env (content f) with
             | inl message =>
                 Raise (HTTPException 422
                          (lit "Error processing image: " ++ message))
             | inr b => Return (b, (width picture, height picture))
             end
    end.
Proof.
  unfold validate_and_process_image.
  rewrite result_bind. cbn [emit result snd].
  rewrite wrap_errors_result.
  destruct (Image_open env (content f)) as [msg|picture]; [reflexivity|].
  destruct (negb _); [reflexivity|].
  destruct (_ || _); [reflexivity|].
  destruct (_ || _); [reflexivity|].
  destruct (encode_image env (content f)); reflexivity.
Qed.

Lemma process_mask_result (env : Env) (f : UploadFile) (size : Z * Z) :
  result (validate_and_process_mask env f size)
  = match Image_open env (content f) with
    | inl message =>
        Raise (HTTPException 422 (lit "Error processing mask: " ++ message))
    | inr picture =>
        if negb (match format picture with
                 | Some f => str_eqb f (lit "PNG")
                 | None => false
                 end)
        then Raise (HTTPException 422 (lit "Mask must be PNG format"))
        else if negb (existsb (str_eqb (mode picture))
                        [lit "RGBA"; lit "LA"; lit "L"])
        then Raise (HTTPException 422
                      (lit "Mask must have transparency (alpha channel) or be grayscale"))
        else if negb ((width picture =? fst size)
                      && (height picture =? snd size))
        then Raise (HTTPException 422
                      (lit "Mask dimensions "
                       ++ dims (width picture) (height picture)
                       ++ lit " must match image dimensions "
                       ++ dims (fst size) (snd size)))
        else match encode_mask env (content f) with
             | inl message =>
                 Raise (HTTPException 422
                          (lit "Error processing mask: " ++ message))
             | inr b => Return b
             end
    end.
Proof.
  unfold validate_and_process_mask.
  rewrite result_bind. cbn [emit result snd].
  rewrite wrap_errors_result.
  destruct (Image_open env (content f)) as [msg|picture]; [reflexivity|].
  destruct (negb _); [reflexivity|].
  destruct (negb _); [reflexivity|].
  destruct (negb _); [reflexivity|].
  destruct (encode_mask env (content f)); reflexivity.
Qed.

Lemma process_image_trace (env : Env) (f : UploadFile) :
  trace (validate_and_process_image env f) = [ProcessImage (content f)].
Proof.
  unfold validate_and_process_image, wrap_errors.
  rewrite trace_bind. cbn [emit trace result fst snd app].
  rewrite trace_try.
  destruct (Image_open env (content f)) as [msg|picture]; [reflexivity|].
  destruct (negb _); [reflexivity|].
  destruct (_ || _); [reflexivity|].
  destruct (_ || _); [reflexivity|].
  destruct (encode_image env (content f)); reflexivity.
Qed.

Lemma process_mask_trace (env : Env) (f : UploadFile) (size : Z * Z) :
  trace (validate_and_process_mask env f size) = [ProcessMask (content f)].
Proof.
  unfold validate_and_process_mask, wrap_errors.
  rewrite trace_bind. cbn [emit trace result fst snd app].
  rewrite trace_try.
  destruct (Image_open env (content f)) as [msg|picture]; [reflexivity|].
  destruct (negb _); [reflexivity|].
  destruct (negb _); [reflexivity|].
  destruct (negb _); [reflexivity|].
  destruct (encode_mask env (content f)); reflexivity.
Qed.

Lemma process_image_accepts (env : Env) (f : UploadFile) (b : str)
      (size : Z * Z) :
  result (validate_and_process_image env f) = Return (b, size)
  <-> exists picture,
        Image_open env (content f) = inr picture
        /\ processable_image picture
        /\ encode_image env (content f) = inr b
        /\ size = (width picture, height picture).
Proof.
  rewrite process_image_result. unfold processable_image.
  destruct (Image_open env (content f)) as [msg|picture].
  { split; [discriminate|]. intros (x & H & _). discriminate. }
  pose proof (image_format_ok picture) as Hf.
  destruct (match format picture with
            | Some f0 => existsb (str_eqb f0) [lit "PNG"; lit "JPEG"]
            | None => false
            end) eqn:Ef; cbn [negb].
  2:{ split; [discriminate|]. intros (x & H & (Hx & _) & _).
      injection H as <-. apply Hf in Hx. discriminate. }
  destruct (2048 <? width picture) eqn:E1;
    [apply Z.ltb_lt in E1|apply Z.ltb_ge in E1];
  (destruct (2048 <? height picture) eqn:E2;
    [apply Z.ltb_lt in E2|apply Z.ltb_ge in E2]);
  cbn [orb];
  try (split; [discriminate|];
       intros (x & H & (_ & Hw & Hh) & _); injection H as <-; lia).
  destruct (width picture <? 256) eqn:E3;
    [apply Z.ltb_lt in E3|apply Z.ltb_ge in E3];
  (destruct (height picture <? 256) eqn:E4;
    [apply Z.ltb_lt in E4|apply Z.ltb_ge in E4]);
  cbn [orb];
  try (split; [discriminate|];
       intros (x & H & (_ & Hw & Hh) & _); injection H as <-; lia).
  destruct (encode_image env (content f)) as [msg|b'].
  { split; [discriminate|]. intros (x & _ & _ & H & _). discriminate. }
  split.
  - intro H. injection H as -> <-. exists picture.
    repeat split; try lia. now apply Hf.
  - intros (x & H & _ & Hb & ->). injection H as <-. now injection Hb as ->.
Qed.

Lemma process_mask_accepts (env : Env) (f : UploadFile) (size : Z * Z)
      (b : str) :
  result (validate_and_process_mask env f size) = Return b
  <-> exists picture,
        Image_open env (content f) = inr picture
        /\ processable_mask picture size
        /\ encode_mask env (content f) = inr b.
Proof.
  rewrite process_mask_result. unfold processable_mask.
  destruct (Image_open env (content f)) as [msg|picture].
  { split; [discriminate|]. intros (x & H & _). discriminate. }
  pose proof (mask_format_ok picture) as Hf.
  destruct (match format picture with
            | Some f0 => str_eqb f0 (lit "PNG")
            | None => false
            end) eqn:Ef; cbn [negb].
  2:{ split; [discriminate|]. intros (x & H & (Hx & _) & _).
      injection H as <-. apply Hf in Hx. discriminate. }
  pose proof (existsb_str_In (mode picture) [lit "RGBA"; lit "LA"; lit "L"])
    as Hm.
  destruct (existsb (str_eqb (mode picture))
              [lit "RGBA"; lit "LA"; lit "L"]) eqn:Em; cbn [negb].
  2:{ split; [discriminate|]. intros (x & H & (_ & Hx & _) & _).
      injection H as <-. apply Hm in Hx. discriminate. }
  destruct (width picture =? fst size) eqn:E1;
    [apply Z.eqb_eq in E1|apply Z.eqb_neq in E1];
  (destruct (height picture =? snd size) eqn:E2;
    [apply Z.eqb_eq in E2|apply Z.eqb_neq in E2]);
  cbn [andb negb];
  try (split; [discriminate|];
       intros (x & H & (_ & _ & Hw & Hh) & _); injection H as <-;
       contradiction).
  destruct (encode_mask env (content f)) as [msg|b'].
  { split; [discriminate|]. intros (x & _ & _ & H). discriminate. }
  split.
  - intro H. injection H as ->. exists picture.
    repeat split; try assumption; tauto.
  - intros (x & H & _ & Hb). injection H as <-. now injection Hb as ->.
Qed.

Lemma process_image_raises_422 (env : Env) (f : UploadFile) (e : exn) :
  result (validate_and_process_image env f) = Raise e ->
  exists d, e = HTTPException 422 d.
Proof.
  rewrite process_image_result.
  destruct (Image_open env (content f)) as [msg|picture].
  { intro H. injection H as <-. eexists; reflexivity. }
  destruct (negb _); [intro H; injection H as <-; eexists; reflexivity|].
  destruct (_ || _); [intro H; injection H as <-; eexists; reflexivity|].
  destruct (_ || _); [intro H; injection H as <-; eexists; reflexivity|].
  destruct (encode_image env (content f)); [|discriminate].
  intro H; injection H as <-; eexists; reflexivity.
Qed.

Lemma process_mask_raises_422 (env : Env) (f : UploadFile) (size : Z * Z)
      (e : exn) :
  result (validate_and_process_mask env f size) = Raise e ->
  exists d, e = HTTPException 422 d.
Proof.
  rewrite process_mask_result.
  destruct (Image_open env (content f)) as [msg|picture].
  { intro H. injection H as <-. eexists; reflexivity. }
  destruct (negb _); [intro H; injection H as <-; eexists; reflexivity|].
  destruct (negb _); [intro H; injection H as <-; eexists; reflexivity|].
  destruct (negb _); [intro H; injection H as <-; eexists; reflexivity|].
  destruct (encode_mask env (content f)); [|discriminate].
  intro H; injection H as <-; eexists; reflexivity.
Qed.

End ProcessorFacts.

Module ProcessorClaims.
Import Py World InboundValidation ImageProcessor Acceptance Observations.
Import PyFacts MonadFacts ProcessorFacts.
Local Open Scope Z_scope.

(** X18.  [validate_and_process_image] returns exactly for a file that
    decodes to a PNG or JPEG picture with both sides from 256 to 2048
    and that the encoder takes; it then returns the encoded picture with
    the decoded width and height.  Everything else, a failure of the
    decoder or of the encoder included, ends in [HTTPException(422)]. *)
Theorem validate_and_process_image_decision (env : Env) (f : UploadFile) :
  (forall b size,
     result (validate_and_process_image env f) = Return (b, size)
     <-> exists picture,
           Image_open env (content f) = inr picture
           /\ processable_image picture
           /\ encode_image env (content f) = inr b
           /\ size = (width picture, height picture))
  /\ (forall e, result (validate_and_process_image env f) = Raise e ->
                exists d, e = HTTPException 422 d).
Proof.
  split.
  - intros b size. apply process_image_accepts.
  - intro e. apply process_image_raises_422.
Qed.

(** X19.  [validate_and_process_mask] returns exactly for a file that
    decodes to a PNG picture in mode RGBA, LA or L whose width and
    height are those of the image, and that the encoder takes.
    Everything else ends in [HTTPException(422)]: a palette mask, which
    the upload check admits, is turned down here. *)
Theorem validate_and_process_mask_decision
        (env : Env) (f : UploadFile) (image_size : Z * Z) :
  (forall b,
     result (validate_and_process_mask env f image_size) = Return b
     <-> exists picture,
           Image_open env (content f) = inr picture
           /\ processable_mask picture image_size
           /\ encode_mask env (content f) = inr b)
  /\ (forall e,
        result (validate_and_process_mask env f image_size) = Raise e ->
        exists d, e = HTTPException 422 d)
  /\ (forall picture,
        Image_open env (content f) = inr picture ->
        mode picture = lit "P" ->
        exists d,
          result (validate_and_process_mask env f image_size)
          = Raise (HTTPException 422 d)).
Proof.
  split; [|split].
  - intro b. apply process_mask_accepts.
  - intro e. apply process_mask_raises_422.
  - intros picture Ho Hp.
    destruct (result (validate_and_process_mask env f image_size))
      as [b|e] eqn:E.
    + apply process_mask_accepts in E.
      destruct E as (x & Hx & (_ & Hm & _) & _).
      rewrite Ho in Hx. injection Hx as <-. rewrite Hp in Hm.
      exfalso. cbn in Hm. destruct Hm as [H|[H|[H|[]]]]; discriminate.
    + destruct (process_mask_raises_422 env f image_size e E) as [d ->].
      now exists d.
Qed.

Lemma validate_and_process_image_decision_witness :
  exists d,
    HTTPException 422 (lit "Image dimensions must be at least 256x256")
    = HTTPException 422 d.
Proof.
  apply (proj2 (validate_and_process_image_decision
                  demo_env (upload "a.png" mask_100))).
  vm_compute. reflexivity.
Defined.

Lemma validate_and_process_mask_decision_witness :
  exists d,
    HTTPException 422
      (lit "Mask dimensions 256x256 must match image dimensions 512x512")
    = HTTPException 422 d.
Proof.
  apply (proj1 (proj2 (validate_and_process_mask_decision
                         demo_env (upload "m.png" mask_256) (512, 512)))).
  vm_compute. reflexivity.
Defined.

End ProcessorClaims.

(* ------------------------------------------------------------------ *)
(** ** nanobobana_client.py: what the client raises, returns and sends *)
(* ------------------------------------------------------------------ *)

Module ClientFacts.
Import Py World NanoBananaClient Observations PipelineVocabulary.
Import PyFacts MonadFacts.
Local Open Scope Z_scope.

(** What [handle_response] raises: an error of the decoding, or an
    [HTTPException] with status 422 or 502. *)
Lemma handle_response_raises (env : Env) (r : Response) (e : exn) :
  result (handle_response env r) = Raise e ->
  (exists m, e = OtherError m)
  \/ (exists c d, e = HTTPException c d /\ (c = 422 \/ c = 502)).
Proof.
  unfold handle_response.
  destruct (status_code r =? 200).
  { destruct (startswith _ _); [discriminate|].
    unfold decode_json_body.
    destruct (body_json r) as [[| | |s|items|members]|];
      try (intro H; injection H as <-; left; eexists; reflexivity).
    - destruct (contains_image s);
        intro H; injection H as <-;
        [left; eexists; reflexivity|right; do 2 eexists; split;
         [reflexivity|now right]].
    - destruct (existsb is_image_string items);
        intro H; injection H as <-;
        [left; eexists; reflexivity|right; do 2 eexists; split;
         [reflexivity|now right]].
    - destruct (lookup (lit "image") members) as [v|].
      + destruct (b64decode env v); [|discriminate].
        intro H; injection H as <-. left; eexists; reflexivity.
      + intro H; injection H as <-. right; do 2 eexists; split;
          [reflexivity|now right]. }
  destruct (status_code r =? 400);
    [intro H; injection H as <-; right; do 2 eexists; split;
     [reflexivity|now left]|].
  destruct (status_code r =? 401);
    [intro H; injection H as <-; right; do 2 eexists; split;
     [reflexivity|now right]|].
  destruct (status_code r =? 429);
    [intro H; injection H as <-; right; do 2 eexists; split;
     [reflexivity|now right]|].
  destruct (500 <=? status_code r);
    intro H; injection H as <-; right; do 2 eexists; split;
    try reflexivity; now right.
Qed.

(** What [handle_response] returns: the body of a 200 reply, as it is
    when its content type is an image, decoded from the member [image]
    of a JSON object otherwise. *)
Lemma handle_response_returns (env : Env) (r : Response) (data : bytes) :
  result (handle_response env r) = Return data ->
  status_code r = 200
  /\ ((startswith (match content_type r with Some c => c | None => [] end)
                  (lit "image/") = true
       /\ data = World.content r)
      \/ (startswith (match content_type r with Some c => c | None => [] end)
                     (lit "image/") = false
          /\ exists members v,
               body_json r = Some (JObject members)
               /\ lookup (lit "image") members = Some v
               /\ b64decode env v = inr data)).
Proof.
  unfold handle_response.
  destruct (status_code r =? 200) eqn:E200.
  { apply Z.eqb_eq in E200. intro H. split; [exact E200|].
    destruct (startswith _ _).
    - left. split; [reflexivity|]. now injection H as <-.
    - right. split; [reflexivity|].
      unfold decode_json_body in H.
      destruct (body_json r) as [[| | |s|items|members]|] eqn:Eb;
        try discriminate.
      + destruct (contains_image s); discriminate.
      + destruct (existsb is_image_string items); discriminate.
      + destruct (lookup (lit "image") members) as [v|] eqn:El;
          [|discriminate].
        destruct (b64decode env v) as [msg|d] eqn:Ed; [discriminate|].
        injection H as <-. exists members, v. repeat split; assumption. }
  destruct (status_code r =? 400); [discriminate|].
  destruct (status_code r =? 401); [discriminate|].
  destruct (status_code r =? 429); [discriminate|].
  destruct (500 <=? status_code r); discriminate.
Qed.

Lemma handle_response_silent (env : Env) (r : Response) :
  trace (handle_response env r) = [].
Proof.
  unfold handle_response.
  destruct (status_code r =? 200).
  { destruct (startswith _ _); [reflexivity|].
    unfold decode_json_body.
    destruct (body_json r) as [[| | |s|items|members]|]; try reflexivity.
    - destruct (contains_image s); reflexivity.
    - destruct (existsb is_image_string items); reflexivity.
    - destruct (lookup (lit "image") members) as [v|]; [|reflexivity].
      destruct (b64decode env v); reflexivity. }
  destruct (status_code r =? 400); [reflexivity|].
  destruct (status_code r =? 401); [reflexivity|].
  destruct (status_code r =? 429); [reflexivity|].
  destruct (500 <=? status_code r); reflexivity.
Qed.

Section WithEnv.
Variable env : Env.
Variables (image mask prompt : str) (seed : option Z) (strength guidance : Security.pyfloat).

Lemma client_live_result :
  mock_mode env = false ->
  result (inpaint_image env image mask prompt seed strength guidance)
  = match post env (mkPayload image mask prompt strength guidance seed) with
    | TimeoutException =>
        Raise (HTTPException 502
                 (lit "Request to NanoBanana API timed out after "
                  ++ str_of_Z (request_timeout env) ++ lit " seconds"))
    | RequestError _ =>
        Raise (HTTPException 502 (lit "Failed to connect to NanoBanana API"))
    | PostCrashed _ =>
        Raise (HTTPException 500
                 (lit "Internal server error during image processing"))
    | Responded r =>
        match result (handle_response env r) with
        | Raise (OtherError _) =>
            Raise (HTTPException 500
                     (lit "Internal server error during image processing"))
        | other => other
        end
    end.
Proof.
  intro Hlive. unfold inpaint_image. rewrite Hlive.
  rewrite !result_bind. cbn [emit result snd].
  destruct (post env _) as [r| |m|m]; try reflexivity.
  rewrite result_try.
  destruct (result (handle_response env r)) as [a|[d f|c d|m]]; reflexivity.
Qed.

Lemma client_mock_run :
  mock_mode env = true ->
  inpaint_image env image mask prompt seed strength guidance
  = ([Log INFO "Using mock NanoBanana response (API key not configured)";
          MockResponse],
         Return (mock_png env)).
Proof.
  intro Hmock. unfold inpaint_image. rewrite Hmock. reflexivity.
Qed.

Lemma client_live_upstream :
  mock_mode env = false ->
  filter is_upstream
    (trace (inpaint_image env image mask prompt seed strength guidance))
  = [UpstreamPost image mask prompt].
Proof.
  intro Hlive. unfold inpaint_image. rewrite Hlive.
  rewrite !trace_bind. cbn [emit trace result fst snd app filter is_upstream].
  f_equal.
  destruct (post env _) as [r| |m|m]; try reflexivity.
  rewrite trace_try, handle_response_silent. cbn [app].
  destruct (result (handle_response env r)) as [a|[d f|c d|m]]; reflexivity.
Qed.

Lemma client_statuses (e : exn) :
  result (inpaint_image env image mask prompt seed strength guidance)
  = Raise e ->
  exists c d, e = HTTPException c d /\ In c [422; 500; 502].
Proof.
  destruct (mock_mode env) eqn:Hm.
  { rewrite (client_mock_run Hm). discriminate. }
  rewrite (client_live_result Hm).
  destruct (post env _) as [r| |m|m];
    try (intro H; injection H as <-; do 2 eexists;
         split; [reflexivity|cbn; tauto]).
  destruct (result (handle_response env r)) as [a|e'] eqn:E; [discriminate|].
  destruct (handle_response_raises env r e' E) as [[m ->]|(c & d & -> & Hc)].
  - intro H; injection H as <-. do 2 eexists. split; [reflexivity|cbn; tauto].
  - intro H; injection H as <-. exists c, d.
    split; [reflexivity|cbn; lia].
Qed.

End WithEnv.

End ClientFacts.

Module ClientMore.
Import Py World NanoBananaClient Observations PipelineVocabulary.
Import PyFacts MonadFacts ClientFacts.
Local Open Scope Z_scope.

(** X20.  Whatever the upstream does (an answer with any status and
    any body, a timeout, a connection failure, a crash of the HTTP
    library), [inpaint_image] of the client raises nothing but
    [HTTPException] with status 422, 500 or 502. *)
Theorem client_raises_only_422_500_502
        (env : Env) (image mask prompt : str) (seed : option Z)
        (strength guidance : Security.pyfloat) :
  only_statuses [422; 500; 502]
    (inpaint_image env image mask prompt seed strength guidance).
Proof.
  intros e He.
  exact (client_statuses env image mask prompt seed strength guidance e He).
Qed.

Lemma client_raises_only_422_500_502_witness :
  exists c d,
    HTTPException 502
      (lit "Request to NanoBanana API timed out after 120 seconds")
    = HTTPException c d
    /\ In c [422; 500; 502].
Proof.
  apply (client_raises_only_422_500_502
           demo_env (lit "aQ==") (lit "bQ==") (lit "a red fox")
           None (Security.Finite (8 # 10)) (Security.Finite (75 # 10))).
  vm_compute. reflexivity.
Defined.

(** X21.  With no API key, or the placeholder key, the client sends
    nothing and returns the mock picture; with a key it sends exactly
    one request, with the image, mask and prompt it was given, whatever
    the answer is: a failure is not retried. *)
Theorem client_sends_at_most_one_request
        (env : Env) (image mask prompt : str) (seed : option Z)
        (strength guidance : Security.pyfloat) :
  let run := inpaint_image env image mask prompt seed strength guidance in
  (mock_mode env = true ->
   result run = Return (mock_png env)
   /\ filter is_upstream (trace run) = [MockResponse])
  /\ (mock_mode env = false ->
      filter is_upstream (trace run) = [UpstreamPost image mask prompt]).
Proof.
  cbv zeta. split.
  - intro Hm.
    rewrite (client_mock_run env image mask prompt seed strength guidance Hm).
    split; reflexivity.
  - apply client_live_upstream.
Qed.

Lemma client_sends_at_most_one_request_witness :
  filter is_upstream
    (trace (inpaint_image demo_env (lit "aQ==") (lit "bQ==") (lit "a red fox")
              None (Security.Finite (8 # 10)) (Security.Finite (75 # 10))))
  = [UpstreamPost (lit "aQ==") (lit "bQ==") (lit "a red fox")].
Proof.
  apply (proj2 (client_sends_at_most_one_request
                  demo_env (lit "aQ==") (lit "bQ==") (lit "a red fox")
                  None (Security.Finite (8 # 10)) (Security.Finite (75 # 10)))).
  reflexivity.
Defined.

(** X22.  With a key configured, the bytes the client returns come from
    an upstream reply with status 200 and from nowhere else: they are
    the body of the reply when its content type starts with [image/],
    and the base64 decoding of the member [image] of its JSON object
    otherwise. *)
Theorem client_returns_only_upstream_picture
        (env : Env) (image mask prompt : str) (seed : option Z)
        (strength guidance : Security.pyfloat) (data : bytes)
        (Hlive : mock_mode env = false)
        (Hrun : result (inpaint_image env image mask prompt seed strength
                          guidance) = Return data) :
  exists r,
    post env (mkPayload image mask prompt strength guidance seed)
    = Responded r
    /\ status_code r = 200
    /\ ((startswith (match content_type r with Some c => c | None => [] end)
                    (lit "image/") = true
         /\ data = World.content r)
        \/ (startswith (match content_type r with Some c => c | None => [] end)
                       (lit "image/") = false
            /\ exists members v,
                 body_json r = Some (JObject members)
                 /\ lookup (lit "image") members = Some v
                 /\ b64decode env v = inr data)).
Proof.
  rewrite (client_live_result env image mask prompt seed strength guidance
             Hlive) in Hrun.
  destruct (post env _) as [r| |m|m]; try discriminate.
  exists r. split; [reflexivity|].
  apply handle_response_returns.
  destruct (result (handle_response env r)) as [a|[d f|c d|m]];
    try discriminate.
  exact Hrun.
Qed.

Lemma client_returns_only_upstream_picture_witness :
  exists r,
    post (reply_env (Responded
            (mkResponse 200 (Some (lit "image/png")) None
                        Security.PNG_SIGNATURE None)))
         (mkPayload (lit "aQ==") (lit "bQ==") (lit "a red fox")
                    (Security.Finite (8 # 10)) (Security.Finite (75 # 10)) None)
    = Responded r
    /\ status_code r = 200.
Proof.
  destruct (client_returns_only_upstream_picture
              (reply_env (Responded
                 (mkResponse 200 (Some (lit "image/png")) None
                             Security.PNG_SIGNATURE None)))
              (lit "aQ==") (lit "bQ==") (lit "a red fox") None
              (Security.Finite (8 # 10)) (Security.Finite (75 # 10)) Security.PNG_SIGNATURE
              eq_refl eq_refl) as (r & Hr & Hs & _).
  exists r. split; assumption.
Defined.

End ClientMore.

(* ------------------------------------------------------------------ *)
(** ** api/inpaint.py and main.py: the endpoint as a whole            *)
(* ------------------------------------------------------------------ *)

Module EndpointFacts.
Import Py World Security InboundValidation ImageProcessor Observations.
Import PipelineVocabulary Acceptance.
Import PyFacts MonadFacts PipelineFacts ProcessorFacts ClientFacts.
Local Open Scope Z_scope.

Lemma filter_quiet (t : list event) :
  Forall (fun ev => is_work ev = false) t -> filter is_upstream t = [].
Proof.
  induction 1 as [|ev t Hev _ IH]; [reflexivity|].
  cbn [filter]. rewrite IH.
  destruct ev; cbn in *; try reflexivity; discriminate.
Qed.

Lemma response_image_result (env : Env) (data : bytes) :
  result (create_response_image env data)
  = match encode_response env data with
    | inl message =>
        Raise (HTTPException 500
                 (lit "Error processing response image: " ++ message))
    | inr png => Return png
    end.
Proof.
  unfold create_response_image. rewrite result_bind. cbn [emit result snd].
  rewrite result_try.
  destruct (encode_response env data); reflexivity.
Qed.

Lemma response_image_trace (env : Env) (data : bytes) :
  trace (create_response_image env data) = [ProcessResponse data].
Proof.
  unfold create_response_image. rewrite trace_bind.
  cbn [emit trace result fst snd app]. rewrite trace_try.
  destruct (encode_response env data); reflexivity.
Qed.

Lemma new_client_silent (env : Env) :
  result (NanoBananaClient.new_client env) = Return tt
  /\ filter is_upstream (trace (NanoBananaClient.new_client env)) = [].
Proof.
  unfold NanoBananaClient.new_client.
  destruct (NanoBananaClient.mock_mode env); split; reflexivity.
Qed.

Section WithEnv.
Variable env : Env.
Variable validator : InboundValidator.
Variables (image mask : UploadFile) (prompt : str) (sd : option Z)
          (st gs : option pyfloat).

(** The handler's body, stage by stage: the first stage that raises
    decides. *)
Lemma steps_result :
  result (Api.inpaint_steps env validator image mask prompt sd st gs)
  = match result (validate_inpaint_request env validator image mask prompt
                    sd (option_map VFloat st) (option_map VFloat gs)) with
    | Raise e => Raise e
    | Return vr =>
        match result (validate_and_process_image env image) with
        | Raise e => Raise e
        | Return (i, size) =>
            match result (validate_and_process_mask env mask size) with
            | Raise e => Raise e
            | Return m =>
                match result (upstream_call env vr i m) with
                | Raise e => Raise e
                | Return data =>
                    match result (create_response_image env data) with
                    | Raise e => Raise e
                    | Return png => Return (Api.mkPng png (lit "image/png"))
                    end
                end
            end
        end
    end.
Proof.
  unfold Api.inpaint_steps, upstream_call.
  rewrite result_bind. cbn [emit result snd].
  rewrite result_bind.
  destruct (result (validate_inpaint_request _ _ _ _ _ _ _ _)) as [vr|e];
    [|reflexivity].
  rewrite result_bind. cbn [emit result snd].
  rewrite result_bind. cbn [emit result snd].
  rewrite result_bind.
  destruct (result (validate_and_process_image env image)) as [[i size]|e];
    [|reflexivity].
  rewrite result_bind. cbn [emit result snd].
  rewrite result_bind.
  destruct (result (validate_and_process_mask env mask size)) as [m|e];
    [|reflexivity].
  rewrite result_bind. cbn [emit result snd].
  rewrite result_bind. cbn [emit result snd].
  rewrite result_bind. rewrite (proj1 (new_client_silent env)).
  rewrite result_bind.
  destruct (result (NanoBananaClient.inpaint_image _ _ _ _ _ _ _))
    as [data|e]; [|reflexivity].
  rewrite result_bind. cbn [emit result snd].
  rewrite result_bind.
  destruct (result (create_response_image env data)) as [png|e];
    [|reflexivity].
  rewrite !result_bind. reflexivity.
Qed.

(** The upstream calls of the handler's body are those of the client,
    and the client is reached only when validation and both processing
    stages have returned. *)
Lemma steps_upstream :
  filter is_upstream
    (trace (Api.inpaint_steps env validator image mask prompt sd st gs))
  = match result (validate_inpaint_request env validator image mask prompt
                    sd (option_map VFloat st) (option_map VFloat gs)) with
    | Raise e => []
    | Return vr =>
        match result (validate_and_process_image env image) with
        | Raise e => []
        | Return (i, size) =>
            match result (validate_and_process_mask env mask size) with
            | Raise e => []
            | Return m => filter is_upstream (trace (upstream_call env vr i m))
            end
        end
    end.
Proof.
  pose proof (quiet_validate_inpaint_request env validator image mask prompt
                sd (option_map VFloat st) (option_map VFloat gs)) as Hq.
  apply filter_quiet in Hq.
  unfold Api.inpaint_steps, upstream_call.
  rewrite trace_bind. cbn [emit trace result fst snd].
  rewrite filter_app. cbn [filter is_upstream app].
  rewrite trace_bind, filter_app, Hq. cbn [app].
  destruct (result (validate_inpaint_request _ _ _ _ _ _ _ _)) as [vr|e];
    [|reflexivity].
  rewrite trace_bind. cbn [emit trace result fst snd].
  rewrite filter_app. cbn [filter is_upstream app].
  rewrite trace_bind. cbn [emit trace result fst snd].
  rewrite filter_app. cbn [filter is_upstream app].
  rewrite trace_bind, filter_app, process_image_trace.
  cbn [filter is_upstream app].
  destruct (result (validate_and_process_image env image)) as [[i size]|e];
    [|reflexivity].
  rewrite trace_bind. cbn [emit trace result fst snd].
  rewrite filter_app. cbn [filter is_upstream app].
  rewrite trace_bind, filter_app, process_mask_trace.
  cbn [filter is_upstream app].
  destruct (result (validate_and_process_mask env mask size)) as [m|e];
    [|reflexivity].
  rewrite trace_bind. cbn [emit trace result fst snd].
  rewrite filter_app. cbn [filter is_upstream app].
  rewrite trace_bind. cbn [emit trace result fst snd].
  rewrite filter_app. cbn [filter is_upstream app].
  rewrite trace_bind, filter_app.
  rewrite (proj2 (new_client_silent env)), (proj1 (new_client_silent env)).
  cbn [app].
  rewrite trace_bind, filter_app.
  destruct (result (NanoBananaClient.inpaint_image _ _ _ _ _ _ _))
    as [data|e]; [|now rewrite app_nil_r].
  rewrite trace_bind. cbn [emit trace result fst snd].
  rewrite filter_app. cbn [filter is_upstream app].
  rewrite trace_bind, filter_app, response_image_trace.
  cbn [filter is_upstream app].
  destruct (result (create_response_image env data)) as [png|e];
    [|now rewrite app_nil_r].
  rewrite !trace_bind. cbn [emit trace result fst snd app filter is_upstream].
  now rewrite app_nil_r.
Qed.

Lemma run_result :
  result (Api.inpaint_image env validator image mask prompt sd st gs)
  = match result (Api.inpaint_steps env validator image mask prompt sd st gs) with
    | Return a => Return a
    | Raise e => Raise (handler_exn e)
    end.
Proof.
  unfold Api.inpaint_image.
  destruct (Api.inpaint_steps _ _ _ _ _ _ _ _) as [t [a|[d f|c d|m]]];
    reflexivity.
Qed.

Lemma run_upstream :
  filter is_upstream
    (trace (Api.inpaint_image env validator image mask prompt sd st gs))
  = filter is_upstream
      (trace (Api.inpaint_steps env validator image mask prompt sd st gs)).
Proof.
  unfold Api.inpaint_image.
  destruct (Api.inpaint_steps _ _ _ _ _ _ _ _) as [t [a|[d f|c d|m]]];
    cbn [trace fst]; try reflexivity;
    rewrite filter_app; cbn [filter is_upstream]; now rewrite app_nil_r.
Qed.

End WithEnv.

End EndpointFacts.

Module EndpointClaims.
Import Py World Security InboundValidation ImageProcessor Observations.
Import PipelineVocabulary Acceptance.
Import PyFacts MonadFacts PipelineFacts ProcessorFacts ClientFacts.
Import ValidationFacts EndpointFacts.
Local Open Scope Z_scope.

(** X23.  The upstream API is called only for a request that has passed
    everything before it.  If the handler of [/edit] sends a request
    upstream, then a key is configured, validation has returned and the
    prompt sent is the validated one, and the image and mask sent are
    the encodings of uploads that decode to a PNG or JPEG image with
    sides from 256 to 2048 and to a PNG mask in mode RGBA, LA or L of
    exactly the size of the image. *)
Theorem upstream_called_only_for_processed_request
        (env : Env) (validator : InboundValidator) (image mask : UploadFile)
        (prompt : str) (sd : option Z) (st gs : option pyfloat) (i m p : str)
        (H : In (UpstreamPost i m p)
                (trace (Api.inpaint_image env validator image mask prompt
                          sd st gs))) :
  NanoBananaClient.mock_mode env = false
  /\ (exists vr,
        result (validate_inpaint_request env validator image mask prompt
                  sd (option_map VFloat st) (option_map VFloat gs)) = Return vr
        /\ p = v_prompt vr)
  /\ exists picture stencil,
       Image_open env (content image) = inr picture
       /\ processable_image picture
       /\ encode_image env (content image) = inr i
       /\ Image_open env (content mask) = inr stencil
       /\ processable_mask stencil (width picture, height picture)
       /\ encode_mask env (content mask) = inr m.
Proof.
  assert (Hf : In (UpstreamPost i m p)
                  (filter is_upstream
                     (trace (Api.inpaint_image env validator image mask
                               prompt sd st gs))))
    by (apply filter_In; split; [exact H|reflexivity]).
  rewrite run_upstream, steps_upstream in Hf.
  destruct (result (validate_inpaint_request _ _ _ _ _ _ _ _)) as [vr|e];
    [|destruct Hf].
  destruct (result (validate_and_process_image env image))
    as [[i0 size]|e] eqn:Ei; [|destruct Hf].
  destruct (result (validate_and_process_mask env mask size))
    as [m0|e] eqn:Em; [|destruct Hf].
  unfold upstream_call in Hf.
  destruct (NanoBananaClient.mock_mode env) eqn:Hmode.
  { rewrite (client_mock_run env _ _ _ _ _ _ Hmode) in Hf.
    cbn in Hf. destruct Hf as [Hf|[]]. discriminate. }
  rewrite (client_live_upstream env _ _ _ _ _ _ Hmode) in Hf.
  destruct Hf as [Hf|[]]. injection Hf as -> -> <-.
  split; [reflexivity|]. split; [now exists vr|].
  apply process_image_accepts in Ei.
  destruct Ei as (picture & Ho & Hp & He & ->).
  apply process_mask_accepts in Em.
  destruct Em as (stencil & Ho' & Hp' & He').
  exists picture, stencil. repeat split; try assumption; apply Hp || apply Hp'.
Qed.

Lemma upstream_called_only_for_processed_request_witness :
  NanoBananaClient.mock_mode Samples.picture_env = false
  /\ exists vr,
       result (validate_inpaint_request Samples.picture_env default_validator
                 (upload "a.png" image_512) (upload "m.png" Samples.mask_512)
                 (lit " a red fox ") None None None) = Return vr
       /\ lit "a red fox" = v_prompt vr.
Proof.
  destruct (upstream_called_only_for_processed_request
              Samples.picture_env default_validator
              (upload "a.png" image_512) (upload "m.png" Samples.mask_512)
              (lit " a red fox ") None None None
              (lit "aW1hZ2U=") (lit "bWFzaw==") (lit "a red fox"))
    as (Hm & Hv & _).
  - vm_compute. repeat (first [left; reflexivity | right]).
  - split; assumption.
Defined.

(** X24.  When the handler of [/edit] is run and raises, it raises an
    [HTTPException] whose status is 422, 500 or 502, and the handler
    the application registers for [HTTPException] answers it with that
    status and its envelope: [success] false, the detail as
    [error_message] and [HTTP_] followed by the status as
    [error_code].  This is about requests that reach the handler, with
    floats (or nothing) for the two numbers: a request that FastAPI
    turns down against the [File] and [Form] declarations of the route
    never reaches it and is answered by FastAPI itself. *)
Theorem edit_handler_failure_answer
        (env : Env) (validator : InboundValidator) (image mask : UploadFile)
        (prompt : str) (sd : option Z) (st gs : option pyfloat)
        (request_id : option str) (e : exn)
        (H : result (Api.inpaint_image env validator image mask prompt
                       sd st gs) = Raise e) :
  exists c d,
    e = HTTPException c d
    /\ In c [422; 500; 502]
    /\ result (Main.handle_exception request_id e)
       = Return (Main.mkJSON c
           (JObject [ (lit "success", JBool false);
                      (lit "error_message", JString d);
                      (lit "error_code",
                       JString (lit "HTTP_" ++ str_of_Z c));
                      (lit "request_id",
                       Main.request_id_json request_id) ])).
Proof.
  assert (Hs : exists c d, e = HTTPException c d /\ In c [422; 500; 502]).
  { rewrite run_result, steps_result in H.
    pose proof (ove_validate_inpaint_request env validator image mask prompt
                  sd st gs) as Hove.
    unfold only_validation_errors in Hove.
    destruct (result (validate_inpaint_request _ _ _ _ _ _ _ _))
      as [vr|e0].
    2:{ specialize (Hove e0 eq_refl).
        destruct e0 as [d f|c d|msg]; try discriminate.
        injection H as <-. cbn [handler_exn].
        do 2 eexists. split; [reflexivity|cbn; tauto]. }
    destruct (result (validate_and_process_image env image))
      as [[i size]|e0] eqn:Ei.
    2:{ destruct (process_image_raises_422 env image e0 Ei) as [d ->].
        injection H as <-. do 2 eexists. split; [reflexivity|cbn; tauto]. }
    destruct (result (validate_and_process_mask env mask size))
      as [m|e0] eqn:Em.
    2:{ destruct (process_mask_raises_422 env mask size e0 Em) as [d ->].
        injection H as <-. do 2 eexists. split; [reflexivity|cbn; tauto]. }
    destruct (result (upstream_call env vr i m)) as [data|e0] eqn:Ec.
    2:{ destruct (client_statuses env _ _ _ _ _ _ e0 Ec)
          as (c & d & -> & Hc).
        injection H as <-. now exists c, d. }
    rewrite response_image_result in H.
    destruct (encode_response env data); [|discriminate].
    injection H as <-. do 2 eexists. split; [reflexivity|cbn; tauto]. }
  destruct Hs as (c & d & -> & Hc). exists c, d.
  split; [reflexivity|]. split; [exact Hc|reflexivity].
Qed.

Lemma edit_handler_failure_answer_witness :
  exists c d,
    HTTPException 422 (lit "Mask too small: 100x100 (minimum 256x256)")
    = HTTPException c d
    /\ In c [422; 500; 502]
    /\ result (Main.handle_exception (Some (lit "r-1"))
                 (HTTPException 422
                    (lit "Mask too small: 100x100 (minimum 256x256)")))
       = Return (Main.mkJSON c
           (JObject [ (lit "success", JBool false);
                      (lit "error_message", JString d);
                      (lit "error_code",
                       JString (lit "HTTP_" ++ str_of_Z c));
                      (lit "request_id",
                       Main.request_id_json (Some (lit "r-1"))) ])).
Proof.
  apply (edit_handler_failure_answer demo_env default_validator
           (upload "a.png" image_512) (upload "m.png" mask_100)
           (lit "a red fox") None None None).
  vm_compute. reflexivity.
Defined.

(** X25.  One request to [/edit] causes at most one upstream call (live
    or mocked), and a request that is answered exactly one; the answer
    is served as [image/png] and its body is the upstream picture as
    [create_response_image] re-encodes it. *)
Theorem edit_calls_upstream_once
        (env : Env) (validator : InboundValidator) (image mask : UploadFile)
        (prompt : str) (sd : option Z) (st gs : option pyfloat) :
  let run := Api.inpaint_image env validator image mask prompt sd st gs in
  (len (filter is_upstream (trace run)) <= 1)
  /\ (forall answer,
        result run = Return answer ->
        len (filter is_upstream (trace run)) = 1
        /\ Api.media_type answer = lit "image/png"
        /\ exists vr i m data,
             result (upstream_call env vr i m) = Return data
             /\ encode_response env data = inr (Api.body answer)).
Proof.
  cbv zeta.
  assert (Hc : forall vr i m,
             len (filter is_upstream (trace (upstream_call env vr i m))) = 1).
  { intros vr i m. unfold upstream_call.
    destruct (NanoBananaClient.mock_mode env) eqn:Hmode.
    - now rewrite (client_mock_run env _ _ _ _ _ _ Hmode).
    - now rewrite (client_live_upstream env _ _ _ _ _ _ Hmode). }
  rewrite run_upstream, steps_upstream, run_result, steps_result.
  destruct (result (validate_inpaint_request _ _ _ _ _ _ _ _)) as [vr|e0];
    [|split; [cbn; lia|discriminate]].
  destruct (result (validate_and_process_image env image))
    as [[i size]|e0]; [|split; [cbn; lia|discriminate]].
  destruct (result (validate_and_process_mask env mask size))
    as [m|e0]; [|split; [cbn; lia|discriminate]].
  split; [rewrite Hc; lia|].
  intros answer Ha. split; [apply Hc|].
  destruct (result (upstream_call env vr i m)) as [data|e0] eqn:Ec;
    [|discriminate].
  rewrite response_image_result in Ha.
  destruct (encode_response env data) as [msg|png] eqn:Ee; [discriminate|].
  injection Ha as <-. split; [reflexivity|].
  exists vr, i, m, data. split; [exact Ec|exact Ee].
Qed.

Lemma edit_calls_upstream_once_witness :
  len (filter is_upstream
         (trace (Api.inpaint_image Samples.picture_env default_validator
                   (upload "a.png" image_512)
                   (upload "m.png" Samples.mask_512)
                   (lit "a red fox") None None None))) = 1.
Proof.
  apply (proj2 (edit_calls_upstream_once
                  Samples.picture_env default_validator
                  (upload "a.png" image_512)
                  (upload "m.png" Samples.mask_512)
                  (lit "a red fox") None None None)
               (Api.mkPng PNG_SIGNATURE (lit "image/png"))).
  vm_compute. reflexivity.
Defined.

End EndpointClaims.

(* ------------------------------------------------------------------ *)
(** ** security.py and inbound_validation.py: numbers and prompts     *)
(* ------------------------------------------------------------------ *)

Module ParameterClaims.
Import Py World Security InboundValidation Observations Acceptance.
Import MiddlewareFacts PyFacts MonadFacts NumberFacts.
Local Open Scope Z_scope.

(** Integers of at most 53 bits are floats as they are. *)
Lemma nearest_double_exact (n : Z) :
  0 <= n < 2 ^ 53 -> nearest_double n = Some n.
Proof.
  intro H. unfold nearest_double.
  assert (Hb : Z.log2 n + 1 <= 53).
  { destruct (Z.eq_dec n 0) as [->|Hn]; [cbn; lia|].
    assert (Z.log2 n < 53) by (apply Z.log2_lt_pow2; lia). lia. }
  apply Z.leb_le in Hb. cbv zeta. now rewrite Hb.
Qed.

Lemma float_int_exact (z : Z) :
  Z.abs z < 2 ^ 53 -> float (VInt z) = Converted (Finite (inject_Z z)).
Proof.
  intro H. cbn [float].
  rewrite nearest_double_exact by lia.
  now rewrite Z.mul_comm, Z.abs_sgn.
Qed.

(** X26.  [validate_numeric_parameter], for finite bounds: it returns
    exactly when [float(value)] succeeds and gives a finite number
    within [[min_val, max_val]], both ends included, or a NaN (the two
    comparisons of the range test are false on a NaN), and it returns
    what [float()] gave.  An [int] of at most 53 bits converts as it
    is; a longer one is first rounded to the nearest double, so that
    [2^53 + 1] is within [[0, 2^53]].  What it raises is an
    [InputValidationError] whose field is the name of the parameter,
    for a value [float()] refuses or a number out of range, except for
    an [int] too large for a float: the [OverflowError] of [float()]
    is not caught and leaves the function as it is. *)
Theorem validate_numeric_parameter_decision
        (format_float : pyfloat -> str)
        (v : value) (param_name : str) (min_val max_val : Q) :
  let run := validate_numeric_parameter format_float v param_name
               (Finite min_val) (Finite max_val) in
  (forall f, result run = Return f
             <-> float v = Converted f /\ passes min_val max_val f)
  /\ (forall e, result run = Raise e ->
        (float v <> TooLarge
         /\ exists msg, e = InputValidationError msg (Some param_name))
        \/ (float v = TooLarge /\ e = overflow_error))
  /\ (float v = TooLarge -> result run = Raise overflow_error)
  /\ (forall z, v = VInt z -> Z.abs z < 2 ^ 53 ->
                float v = Converted (Finite (inject_Z z))).
Proof.
  cbv zeta. unfold validate_numeric_parameter.
  split; [|split; [|split]].
  - intro f. destruct (float v) as [g| |] eqn:E.
    + pose proof (range_test_passes g min_val max_val) as R.
      destruct (float_lt g (Finite min_val) || float_lt (Finite max_val) g).
      * split; [discriminate|]. intros [H Hp]. injection H as <-.
        apply R in Hp. discriminate.
      * split.
        -- intro H. injection H as <-. split; [reflexivity|now apply R].
        -- intros [H _]. now injection H as <-.
    + split; [discriminate|]. intros [H _]. discriminate.
    + split; [discriminate|]. intros [H _]. discriminate.
  - intros e. destruct (float v) as [g| |] eqn:E.
    + destruct (float_lt g (Finite min_val) || float_lt (Finite max_val) g);
        [|discriminate].
      intro H. injection H as <-. left.
      split; [discriminate|eexists; reflexivity].
    + intro H. injection H as <-. left.
      split; [discriminate|eexists; reflexivity].
    + intro H. injection H as <-. right. split; reflexivity.
  - intros ->. reflexivity.
  - intros z -> Hz. now apply float_int_exact.
Qed.

Lemma validate_numeric_parameter_decision_witness :
  result (validate_numeric_parameter (fun _ => lit "x")
            (VInt (2 ^ 53 + 1)) (lit "guidance_scale")
            (Finite 0) (Finite (inject_Z (2 ^ 53))))
  = Return (Finite (inject_Z (2 ^ 53)))
  /\ result (validate_numeric_parameter (fun _ => lit "x")
               (VInt (10 ^ 400)) (lit "strength") (Finite 0) (Finite 1))
     = Raise overflow_error.
Proof.
  split.
  - apply (proj1 (validate_numeric_parameter_decision
                    (fun _ => lit "x") (VInt (2 ^ 53 + 1))
                    (lit "guidance_scale") 0 (inject_Z (2 ^ 53)))).
    split; [vm_compute; reflexivity|].
    right. exists (inject_Z (2 ^ 53)).
    split; [reflexivity|]. split; unfold Qle; cbn; lia.
  - apply (proj1 (proj2 (proj2 (validate_numeric_parameter_decision
                    (fun _ => lit "x") (VInt (10 ^ 400))
                    (lit "strength") 0 1)))).
    vm_compute. reflexivity.
Defined.

(** X27.  The two heuristics of [_validate_prompt_text] (fewer than two
    words, few distinct characters) never turn a prompt down: the
    method returns or raises exactly what [validate_prompt] does, and
    all it adds to the log are warnings. *)
Theorem validate_prompt_text_heuristics_only_warn (env : Env) (p : str) :
  result (_validate_prompt_text env p) = result (validate_prompt p)
  /\ exists warnings,
       trace (_validate_prompt_text env p)
       = trace (validate_prompt p) ++ warnings
       /\ Forall (fun ev => exists message, ev = Log WARNING message)
                 warnings.
Proof.
  unfold _validate_prompt_text. split.
  - rewrite result_bind.
    destruct (result (validate_prompt p)) as [q|e]; [|reflexivity].
    rewrite !result_bind.
    destruct (word_count false q <? 2); cbn [emit ret result snd];
      rewrite ?result_bind;
      destruct (Middleware.Qltb _ _); reflexivity.
  - rewrite trace_bind. eexists. split; [reflexivity|].
    destruct (result (validate_prompt p)) as [q|e]; [|constructor].
    rewrite !trace_bind.
    destruct (word_count false q <? 2); cbn [emit ret result trace fst snd];
      rewrite ?trace_bind;
      destruct (Middleware.Qltb _ _);
      cbn [emit ret result trace fst snd app];
      repeat constructor; eexists; reflexivity.
Qed.

End ParameterClaims.
